(** * ccip-agent: a shallow embedding of the token-transfer tool server and
      of the conversational client, with the properties of its specification.

    Sources embedded here:
    - [src/config.ts]        ([config], [validateConfig]);
    - [src/llm-client.ts]    ([callLLM], [callToolWithTimeout], the body of
                              the [while] loop of [main]);
    - [src/mcp-server.mts]   ([start] and the [moveToken] handler; both
                              variants of the file register the same handler).

    JavaScript strings are sequences of UTF-16 code units; they are modelled
    as lists of code units ([list N]), so that [startsWith], [split],
    [trim] and the regular expressions see exactly the units the runtime
    sees.  A JavaScript number is modelled by its exact value; what a text
    or a division denotes is rounded to the nearest binary64 number before
    it is one. *)

From Stdlib Require Import ZArith NArith List String Ascii Bool Lia ZifyBool DecimalString.
From stdpp Require Import gmap list.

Set Warnings "-register-all".
#[local] Open Scope N_scope.

(* ================================================================== *)
(** ** JavaScript strings *)
(* ================================================================== *)

Module Js.

Abbreviation jsstring := (list N).

(** A Rocq string literal read as code units (the literals of the sources
    that are written this way are ASCII). *)
Definition str (s : string) : jsstring :=
  map N_of_ascii (list_ascii_of_string s).

(** The same, with every apostrophe standing for a double quote, to write
    JSON texts legibly. *)
Definition qstr (s : string) : jsstring :=
  map (fun c => if c =? 39 then 34 else c) (str s).

Definition between (lo hi c : N) : bool := (lo <=? c) && (c <=? hi).

(** [\d] *)
Definition isDigit (c : N) : bool := between 48 57 c.

(** [\w] : [A-Za-z0-9_] *)
Definition isWordChar (c : N) : bool :=
  between 97 122 c || between 65 90 c || isDigit c || (c =? 95).

(** LineTerminator of ECMAScript: LF, CR, LS, PS; [.] matches the rest. *)
Definition isLineTerminator (c : N) : bool :=
  (c =? 10) || (c =? 13) || (c =? 8232) || (c =? 8233).

(** [\s], and what [trim] strips: WhiteSpace and LineTerminator. *)
Definition isWhiteSpace (c : N) : bool :=
  between 9 13 c || (c =? 32) || (c =? 160) || (c =? 5760)
  || between 8192 8202 c || (c =? 8232) || (c =? 8233) || (c =? 8239)
  || (c =? 8287) || (c =? 12288) || (c =? 65279).

Definition isDot (c : N) : bool := negb (isLineTerminator c).
Definition isChar (x : N) (c : N) : bool := c =? x.
Definition isNotChar (x : N) (c : N) : bool := negb (c =? x).

Definition eqs (a b : jsstring) : bool := bool_decide (a = b).

(** [s.startsWith(p)] *)
Fixpoint startsWith (p s : jsstring) : bool :=
  match p, s with
  | [], _ => true
  | _ :: _, [] => false
  | a :: p', b :: s' => (a =? b) && startsWith p' s'
  end.

(** [s.includes(p)] *)
Fixpoint includes (p s : jsstring) : bool :=
  startsWith p s || match s with [] => false | _ :: s' => includes p s' end.

(** [s.indexOf(p)]; [None] is the -1 of JavaScript. *)
Fixpoint indexOf (p s : jsstring) : option nat :=
  if startsWith p s then Some 0%nat
  else match s with
       | [] => None
       | _ :: s' => S <$> indexOf p s'
       end.

(** [s.slice(n)] and [s.substring(n)] for [0 <= n]. *)
Definition sliceFrom (n : nat) (s : jsstring) : jsstring := skipn n s.

(** [s.substring(a, b)] for [0 <= a <= b]. *)
Definition substring (a b : nat) (s : jsstring) : jsstring :=
  firstn (b - a) (skipn a s).

Fixpoint trimStart (s : jsstring) : jsstring :=
  match s with
  | c :: s' => if isWhiteSpace c then trimStart s' else s
  | [] => []
  end.

Definition trimEnd (s : jsstring) : jsstring := rev (trimStart (rev s)).

(** [s.trim()] *)
Definition trim (s : jsstring) : jsstring := trimEnd (trimStart s).

(** [s.split('\n')[0]] : the text before the first line feed. *)
Fixpoint firstLine (s : jsstring) : jsstring :=
  match s with
  | [] => []
  | c :: s' => if c =? 10 then [] else c :: firstLine s'
  end.

(** [l.join(sep)] *)
Fixpoint join (sep : jsstring) (l : list jsstring) : jsstring :=
  match l with
  | [] => []
  | [x] => x
  | x :: l' => x ++ sep ++ join sep l'
  end.

(** Decimal text of an integer, as [BigInt.prototype.toString] gives it. *)
Definition showZ (z : Z) : jsstring := str (NilZero.string_of_int (Z.to_int z)).

(** *** Digits *)

Definition hexVal (c : N) : option N :=
  if between 48 57 c then Some (c - 48)
  else if between 97 102 c then Some (c - 87)
  else if between 65 70 c then Some (c - 55)
  else None.

Fixpoint spanDigits (s : jsstring) : jsstring * jsstring :=
  match s with
  | c :: s' =>
      if isDigit c then let '(d, r) := spanDigits s' in (c :: d, r)
      else ([], s)
  | [] => ([], [])
  end.

Definition digitsValue (d : jsstring) : N :=
  fold_left (fun acc c => acc * 10 + (c - 48)) d 0.

Fixpoint spanHex (s : jsstring) : list N :=
  match s with
  | c :: s' => match hexVal c with Some v => v :: spanHex s' | None => [] end
  | [] => []
  end.

(** *** Numbers and values *)

(** A number, by its exact value: an integer, a decimal fraction
    [m / 10^e] that is not an integer, NaN, or an infinity.  Only the
    values of binary64 occur: what a text or a division denotes is rounded
    first ([nearestInteger], [nearestRatio]).  The sign of zero is not
    modelled. *)
Inductive JsNumber :=
| Integral (z : Z)
| Fraction (m : Z) (e : positive)
| NaN
| Infinity (negative : bool).

Definition negate (n : JsNumber) : JsNumber :=
  match n with
  | Integral z => Integral (- z)
  | Fraction m e => Fraction (- m) e
  | NaN => NaN
  | Infinity b => Infinity (negb b)
  end.

(** Every integer up to [2^53] is a binary64 number. *)
Definition maxSafe : N := 9007199254740992.

Inductive JsValue :=
| VNull
| VBool (b : bool)
| VNum (n : JsNumber)
| VStr (s : jsstring)
| VArr (l : list JsValue)
| VObj (m : gmap jsstring JsValue).

(** [m * 10^(-e)] with the trailing zeros of [m] removed. *)
Fixpoint normalise (fuel : nat) (m : Z) (e : positive) : JsNumber :=
  match fuel with
  | O => Fraction m e
  | S f =>
      if (m mod 10 =? 0)%Z then
        match e with
        | xH => Integral (m / 10)
        | _ => normalise f (m / 10) (Pos.pred e)
        end
      else Fraction m e
  end.

(** The binary64 number nearest to the integer [n], ties going to the
    even significand: [n] itself up to [2^53]; beyond, [n] rounded to 53
    significant bits, and an infinity when that reaches [2^1024]. *)
Definition nearestInteger (n : N) : JsNumber :=
  if n <=? maxSafe then Integral (Z.of_N n)
  else
    let k := N.log2 n - 52 in
    let q := n / 2 ^ k in
    let r := n mod 2 ^ k in
    let half := 2 ^ (k - 1) in
    let q' := if (half <? r) || ((r =? half) && N.odd q) then q + 1 else q in
    if 2 ^ 1024 <=? q' * 2 ^ k then Infinity false
    else Integral (Z.of_N (q' * 2 ^ k)).

(** The fraction [(n / d) / 2^k]. *)
Definition scaled (n d : N) (k : Z) : N * N :=
  match k with
  | Zneg p => (n * 2 ^ Npos p, d)
  | _ => (n, d * 2 ^ Z.to_N k)
  end.

(** The binary64 number nearest to [n / d], for [0 < n] and [0 < d]: with
    [2^E <= n / d < 2^(E+1)], the multiple of [2^(E-52)] (of [2^-1074] for
    a subnormal) nearest to [n / d], ties going to the even one. *)
Definition nearestRatio (n d : N) : JsNumber :=
  let e0 := (Z.of_N (N.log2 n) - Z.of_N (N.log2 d))%Z in
  let E := if snd (scaled n d e0) <=? fst (scaled n d e0) then e0 else (e0 - 1)%Z in
  let k := Z.max (E - 52) (-1074) in
  let a := fst (scaled n d k) in
  let b := snd (scaled n d k) in
  let q := a / b in
  let r := a mod b in
  let q' := if (b <? 2 * r) || ((2 * r =? b) && N.odd q) then q + 1 else q in
  match k with
  | Zneg p =>
      if q' =? 0 then Integral 0
      else normalise (Pos.to_nat p) (Z.of_N (q' * 5 ^ Npos p)) p
  | _ =>
      if 2 ^ 1024 <=? q' * 2 ^ Z.to_N k then Infinity false
      else Integral (Z.of_N (q' * 2 ^ Z.to_N k))
  end.

(** The number that the decimal [m * 10^e] denotes, as a numeric literal
    or as the quotient of [m] by a power of ten. *)
Definition decimal (m e : Z) : JsNumber :=
  let a := Z.abs_N m in
  let v :=
    if a =? 0 then Integral 0
    else match e with
         | Zneg p =>
             if a mod 10 ^ Npos p =? 0 then nearestInteger (a / 10 ^ Npos p)
             else nearestRatio a (10 ^ Npos p)
         | _ => nearestInteger (a * 10 ^ Z.to_N e)
         end in
  if (m <? 0)%Z then negate v else v.

(** [parseInt(s)] with no radix: leading white space, a sign, then
    hexadecimal digits after [0x] or decimal digits; NaN without digits.
    The integer read is rounded to binary64 (the engine of Node rounds the
    decimal digits correctly, however many there are). *)
Definition parseInt (s : jsstring) : JsNumber :=
  let s1 := trimStart s in
  let '(neg, s2) :=
    match s1 with
    | c :: t => if c =? 45 then (true, t) else if c =? 43 then (false, t) else (false, s1)
    | [] => (false, s1)
    end in
  let signed (n : N) :=
    if neg then negate (nearestInteger n) else nearestInteger n in
  if startsWith (str "0x") s2 || startsWith (str "0X") s2 then
    match spanHex (skipn 2 s2) with
    | [] => NaN
    | hs => signed (fold_left (fun acc v => acc * 16 + v) hs 0)
    end
  else
    match fst (spanDigits s2) with
    | [] => NaN
    | ds => signed (digitsValue ds)
    end.

(** What the language itself provides and the sources only call: the text
    of a number that is not a safe integer (the shortest digits that read
    back as the same number), [JSON.stringify], and the message of the
    [SyntaxError] that [JSON.parse] throws for a text. *)
Record Runtime := mkRuntime {
  otherNumberToString : JsNumber -> jsstring;
  JSON_stringify : JsValue -> jsstring;
  syntaxErrorMessage : jsstring -> jsstring
}.

(** The text of a number in a template literal: an integer up to [2^53]
    in absolute value is written with all its decimal digits. *)
Definition numberToString (rt : Runtime) (n : JsNumber) : jsstring :=
  match n with
  | Integral z =>
      if (Z.abs z <=? Z.of_N maxSafe)%Z then showZ z else otherNumberToString rt n
  | NaN => str "NaN"
  | Infinity false => str "Infinity"
  | Infinity true => str "-Infinity"
  | Fraction _ _ => otherNumberToString rt n
  end.

(** An [Error] object: its [name] and its [message]. *)
Record Exn := mkExn { ename : jsstring; emessage : jsstring }.

Definition Error (msg : jsstring) : Exn := mkExn (str "Error") msg.

End Js.
Export Js.

(* ================================================================== *)
(** ** Regular expressions *)
(* ================================================================== *)

(** The fragment of ECMAScript regular expressions that the client uses:
    character classes, greedy [*] and [+] over a class, sequence,
    alternation, capture groups and the two anchors.  The matcher is the
    backtracking one of the language: a continuation receives each way of
    matching, longest repetition first, left alternative first. *)
Module Regex.

Inductive Re :=
| RClass (p : N -> bool)
| RStar (p : N -> bool)
| RPlus (p : N -> bool)
| RSeq (r1 r2 : Re)
| RAlt (r1 r2 : Re)
| RGroup (i : nat) (r : Re)
| RBol
| REol.

Record MState := mkMState {
  pos : nat;                       (* index in the subject *)
  rest : jsstring;                 (* the subject from [pos] on *)
  caps : gmap nat jsstring         (* capture groups set so far *)
}.

Fixpoint star {A} (p : N -> bool) (i : nat) (s : jsstring)
    (k : nat -> jsstring -> option A) : option A :=
  match s with
  | c :: s' =>
      if p c then
        match star p (S i) s' k with
        | Some a => Some a
        | None => k i s
        end
      else k i s
  | [] => k i []
  end.

Fixpoint run {A} (r : Re) (st : MState) (k : MState -> option A) : option A :=
  match r with
  | RClass p =>
      match rest st with
      | c :: s' => if p c then k (mkMState (S (pos st)) s' (caps st)) else None
      | [] => None
      end
  | RStar p =>
      star p (pos st) (rest st) (fun i s => k (mkMState i s (caps st)))
  | RPlus p =>
      match rest st with
      | c :: s' =>
          if p c
          then star p (S (pos st)) s' (fun i s => k (mkMState i s (caps st)))
          else None
      | [] => None
      end
  | RSeq r1 r2 => run r1 st (fun st' => run r2 st' k)
  | RAlt r1 r2 =>
      match run r1 st k with
      | Some a => Some a
      | None => run r2 st k
      end
  | RGroup i r =>
      run r st (fun st' =>
        k (mkMState (pos st') (rest st')
             (<[i := firstn (pos st' - pos st) (rest st)]> (caps st'))))
  | RBol => if Nat.eqb (pos st) 0 then k st else None
  | REol => match rest st with [] => k st | _ :: _ => None end
  end.

(** A successful match: where it starts, its text, its groups. *)
Record Match := mkMatch {
  index : nat;
  matched : jsstring;
  groups : gmap nat jsstring
}.

(** The match that starts at index [i], where the subject reads [s]. *)
Definition matchAt (r : Re) (i : nat) (s : jsstring) : option Match :=
  run r (mkMState i s ∅)
    (fun st => Some (mkMatch i (firstn (pos st - i) s) (caps st))).

(** [s.match(r)] without the [g] flag: the leftmost match. *)
Fixpoint execFrom (r : Re) (i : nat) (s : jsstring) : option Match :=
  match matchAt r i s with
  | Some m => Some m
  | None =>
      match s with
      | [] => None
      | _ :: s' => execFrom r (S i) s'
      end
  end.

Definition exec (r : Re) (s : jsstring) : option Match := execFrom r 0 s.

(** [s.match(r)] with the [g] flag: the texts of the successive matches,
    each search resuming where the previous match ended (one unit further
    after an empty match).  [skip] counts the units of the last match still
    to be stepped over. *)
Fixpoint matchAllFrom (r : Re) (i : nat) (s : jsstring) (skip : nat)
    : list jsstring :=
  match skip with
  | S n =>
      match s with
      | [] => []
      | _ :: s' => matchAllFrom r (S i) s' n
      end
  | O =>
      match matchAt r i s with
      | Some m =>
          matched m ::
          match s with
          | [] => []
          | _ :: s' => matchAllFrom r (S i) s' (length (matched m) - 1)
          end
      | None =>
          match s with
          | [] => []
          | _ :: s' => matchAllFrom r (S i) s' 0
          end
      end
  end.

(** [None] is the [null] that [match] returns when nothing matches. *)
Definition matchAll (r : Re) (s : jsstring) : option (list jsstring) :=
  match matchAllFrom r 0 s 0 with
  | [] => None
  | l => Some l
  end.

Definition lit (c : N) : Re := RClass (isChar c).

Fixpoint seq (l : list Re) : Re :=
  match l with
  | [] => RStar (fun _ => false)
  | [r] => r
  | r :: l' => RSeq r (seq l')
  end.

End Regex.
Export Regex.

(* ================================================================== *)
(** ** JSON.parse *)
(* ================================================================== *)

(** The JSON grammar of ECMA-404 as [JSON.parse] reads it.  Objects become
    finite maps (a repeated key keeps its last value); a number is the
    binary64 number nearest to what its text denotes; the sign of zero is
    not modelled. *)
Module Json.

Definition isJsonWs (c : N) : bool :=
  (c =? 32) || (c =? 9) || (c =? 10) || (c =? 13).

Fixpoint skipWs (s : jsstring) : jsstring :=
  match s with
  | c :: s' => if isJsonWs c then skipWs s' else s
  | [] => []
  end.

Definition hex4 (a b c d : N) : option N :=
  match hexVal a, hexVal b, hexVal c, hexVal d with
  | Some x, Some y, Some z, Some w => Some (((x * 16 + y) * 16 + z) * 16 + w)
  | _, _, _, _ => None
  end.

(** The characters of a string after its opening quote, up to the closing
    one; [acc] holds the units read so far, last first. *)
Fixpoint parseStringBody (s acc : jsstring) : option (jsstring * jsstring) :=
  match s with
  | [] => None
  | c :: t =>
      if c =? 34 then Some (rev acc, t)
      else if c <? 32 then None
      else if c =? 92 then
        match t with
        | [] => None
        | e :: t' =>
            if (e =? 34) || (e =? 92) || (e =? 47) then parseStringBody t' (e :: acc)
            else if e =? 98 then parseStringBody t' (8 :: acc)
            else if e =? 102 then parseStringBody t' (12 :: acc)
            else if e =? 110 then parseStringBody t' (10 :: acc)
            else if e =? 114 then parseStringBody t' (13 :: acc)
            else if e =? 116 then parseStringBody t' (9 :: acc)
            else if e =? 117 then
              match t' with
              | h1 :: h2 :: h3 :: h4 :: t'' =>
                  match hex4 h1 h2 h3 h4 with
                  | Some u => parseStringBody t'' (u :: acc)
                  | None => None
                  end
              | _ => None
              end
            else None
        end
      else parseStringBody t (c :: acc)
  end.

(** An optional minus sign; a zero, or digits that do not start with a
    zero; an optional fraction; an optional exponent. *)
Definition parseNumber (s : jsstring) : option (JsNumber * jsstring) :=
  let '(neg, s1) :=
    match s with
    | c :: t => if c =? 45 then (true, t) else (false, s)
    | [] => (false, s)
    end in
  let '(ip, s2) := spanDigits s1 in
  match ip with
  | [] => None
  | d0 :: ds =>
      if (d0 =? 48) && negb (eqs ds []) then None
      else
        let fracPart :=
          match s2 with
          | c :: t =>
              if c =? 46 then
                let '(fp, s3) := spanDigits t in
                match fp with [] => None | _ => Some (fp, s3) end
              else Some ([], s2)
          | [] => Some ([], s2)
          end in
        match fracPart with
        | None => None
        | Some (fp, s3) =>
            let expPart :=
              match s3 with
              | c :: t =>
                  if (c =? 101) || (c =? 69) then
                    let '(eneg, t1) :=
                      match t with
                      | g :: t' =>
                          if g =? 45 then (true, t')
                          else if g =? 43 then (false, t')
                          else (false, t)
                      | [] => (false, t)
                      end in
                    let '(ep, s4) := spanDigits t1 in
                    match ep with
                    | [] => None
                    | _ =>
                        let v := Z.of_N (digitsValue ep) in
                        Some (if eneg then (- v)%Z else v, s4)
                    end
                  else Some (0%Z, s3)
              | [] => Some (0%Z, s3)
              end in
            match expPart with
            | None => None
            | Some (ex, s4) =>
                let m := Z.of_N (digitsValue (ip ++ fp)) in
                let m := if neg then (- m)%Z else m in
                Some (decimal m (ex - Z.of_nat (length fp))%Z, s4)
            end
        end
  end.

(** A value, the elements of an array after its bracket, the members of an
    object after its brace.  Every call takes one unit of [fuel]; a call is
    reached after at most two calls per unit read, so twice the length of
    the text is enough. *)
Fixpoint parseValue (fuel : nat) (s : jsstring) : option (JsValue * jsstring) :=
  match fuel with
  | O => None
  | S f =>
      match skipWs s with
      | [] => None
      | c :: t =>
          if c =? 123 then
            match skipWs t with
            | c2 :: t2 =>
                if c2 =? 125 then Some (VObj ∅, t2) else parseMembers f t ∅
            | [] => None
            end
          else if c =? 91 then
            match skipWs t with
            | c2 :: t2 =>
                if c2 =? 93 then Some (VArr [], t2) else parseElements f t []
            | [] => None
            end
          else if c =? 34 then
            match parseStringBody t [] with
            | Some (v, r) => Some (VStr v, r)
            | None => None
            end
          else if startsWith (str "true") (c :: t) then
            Some (VBool true, skipn 4 (c :: t))
          else if startsWith (str "false") (c :: t) then
            Some (VBool false, skipn 5 (c :: t))
          else if startsWith (str "null") (c :: t) then
            Some (VNull, skipn 4 (c :: t))
          else
            match parseNumber (c :: t) with
            | Some (n, r) => Some (VNum n, r)
            | None => None
            end
      end
  end
with parseElements (fuel : nat) (s : jsstring) (acc : list JsValue)
    : option (JsValue * jsstring) :=
  match fuel with
  | O => None
  | S f =>
      match parseValue f s with
      | Some (v, r) =>
          match skipWs r with
          | c :: t =>
              if c =? 44 then parseElements f t (acc ++ [v])
              else if c =? 93 then Some (VArr (acc ++ [v]), t)
              else None
          | [] => None
          end
      | None => None
      end
  end
with parseMembers (fuel : nat) (s : jsstring) (acc : gmap jsstring JsValue)
    : option (JsValue * jsstring) :=
  match fuel with
  | O => None
  | S f =>
      match skipWs s with
      | c :: t =>
          if c =? 34 then
            match parseStringBody t [] with
            | Some (key, r) =>
                match skipWs r with
                | c2 :: t2 =>
                    if c2 =? 58 then
                      match parseValue f t2 with
                      | Some (v, r2) =>
                          match skipWs r2 with
                          | c3 :: t3 =>
                              if c3 =? 44 then parseMembers f t3 (<[key := v]> acc)
                              else if c3 =? 125 then Some (VObj (<[key := v]> acc), t3)
                              else None
                          | [] => None
                          end
                      | None => None
                      end
                    else None
                | [] => None
                end
            | None => None
            end
          else None
      | [] => None
      end
  end.

(** [JSON.parse(text)]; [None] is the [SyntaxError]. *)
Definition parse (text : jsstring) : option JsValue :=
  match parseValue (2 * length text + 2) text with
  | Some (v, r) => match skipWs r with [] => Some v | _ :: _ => None end
  | None => None
  end.

End Json.

(* ================================================================== *)
(** ** Effects: a state monad whose computations may throw *)
(* ================================================================== *)

Module Eff.

Inductive Outcome (A : Type) :=
| Ok (a : A)
| Throw (e : Exn).
Arguments Ok {A} a.
Arguments Throw {A} e.

(** A computation reads and updates the state and returns or throws; what
    it did to the state before throwing stays done. *)
Definition M (S A : Type) : Type := S -> Outcome A * S.

Definition ret {S A} (a : A) : M S A := fun s => (Ok a, s).

Definition throw {S A} (e : Exn) : M S A := fun s => (Throw e, s).

Definition bind {S A B} (c : M S A) (k : A -> M S B) : M S B :=
  fun s =>
    match c s with
    | (Ok a, s') => k a s'
    | (Throw e, s') => (Throw e, s')
    end.

(** [try { c } catch (e) { h e }] *)
Definition catch {S A} (c : M S A) (h : Exn -> M S A) : M S A :=
  fun s =>
    match c s with
    | (Ok a, s') => (Ok a, s')
    | (Throw e, s') => h e s'
    end.

Definition lift {S A} (o : Outcome A) : M S A := fun s => (o, s).

Definition gets {S A} (f : S -> A) : M S A := fun s => (Ok (f s), s).

Definition modify {S} (f : S -> S) : M S unit := fun s => (Ok tt, f s).

End Eff.
Export Eff.

Declare Scope js_scope.
Delimit Scope js_scope with js.
Notation "'let!' x ':=' c 'in' k" := (bind c (fun x => k))
  (at level 10, x pattern, c at level 100, k at level 200) : js_scope.
Notation "c ';;;' k" := (bind c (fun _ => k))
  (at level 100, k at level 200, right associativity) : js_scope.
#[local] Open Scope js_scope.

(* ================================================================== *)
(** ** src/config.ts *)
(* ================================================================== *)

Module Config.

(** [process.env] after [dotenv.config()]: a variable is a string or is
    undefined. *)
Record Env := mkEnv {
  RPC_URL : option jsstring;
  PRIVATE_KEY : option jsstring;
  ROUTER_ADDRESS : option jsstring;
  TOKEN_ADDRESS : option jsstring;
  DESTINATION_CHAIN_SELECTOR : option jsstring;
  DESTINATION_ACCOUNT : option jsstring;
  AMOUNT : option jsstring;
  LLAMA_API_URL : option jsstring;
  LLAMA_API_KEY : option jsstring;
  MCP_SERVER_PORT : option jsstring
}.

(** A string is truthy when it is not empty. *)
Definition truthyString (v : option jsstring) : bool :=
  match v with
  | Some (_ :: _) => true
  | _ => false
  end.

Record ConfigT := mkConfig {
  rpcUrl : option jsstring;
  privateKey : option jsstring;
  routerAddress : option jsstring;
  tokenAddress : option jsstring;
  destinationChainSelector : option jsstring;
  destinationAccount : option jsstring;
  amount : JsNumber;
  llamaApiUrl : jsstring;
  llamaApiKey : option jsstring;
  mcpServerPort : JsNumber
}.

Definition config (env : Env) : ConfigT :=
  {| rpcUrl := RPC_URL env;
     privateKey := PRIVATE_KEY env;
     routerAddress := ROUTER_ADDRESS env;
     tokenAddress := TOKEN_ADDRESS env;
     destinationChainSelector := DESTINATION_CHAIN_SELECTOR env;
     destinationAccount := DESTINATION_ACCOUNT env;
     amount :=
       if truthyString (AMOUNT env)
       then parseInt (default [] (AMOUNT env)) else Integral 1;
     llamaApiUrl :=
       default (str "http://localhost:11434/api/generate") (LLAMA_API_URL env);
     llamaApiKey := LLAMA_API_KEY env;
     mcpServerPort :=
       if truthyString (MCP_SERVER_PORT env)
       then parseInt (default [] (MCP_SERVER_PORT env)) else Integral 3001 |}.

(** The value of a property of [config]. *)
Inductive Field :=
| FUndefined
| FString (s : jsstring)
| FNumber (n : JsNumber).

Definition ofOption (v : option jsstring) : Field :=
  match v with Some s => FString s | None => FUndefined end.

(** [config[key]] *)
Definition configGet (c : ConfigT) (key : jsstring) : Field :=
  if eqs key (str "rpcUrl") then ofOption (rpcUrl c)
  else if eqs key (str "privateKey") then ofOption (privateKey c)
  else if eqs key (str "routerAddress") then ofOption (routerAddress c)
  else if eqs key (str "tokenAddress") then ofOption (tokenAddress c)
  else if eqs key (str "destinationChainSelector") then ofOption (destinationChainSelector c)
  else if eqs key (str "destinationAccount") then ofOption (destinationAccount c)
  else if eqs key (str "amount") then FNumber (amount c)
  else if eqs key (str "llamaApiUrl") then FString (llamaApiUrl c)
  else if eqs key (str "llamaApiKey") then ofOption (llamaApiKey c)
  else if eqs key (str "mcpServerPort") then FNumber (mcpServerPort c)
  else FUndefined.

Definition truthy (f : Field) : bool :=
  match f with
  | FUndefined => false
  | FString s => match s with [] => false | _ :: _ => true end
  | FNumber (Integral z) => negb (z =? 0)%Z
  | FNumber (Fraction _ _) => true
  | FNumber NaN => false
  | FNumber (Infinity _) => true
  end.

Definition required : list jsstring :=
  [str "rpcUrl"; str "privateKey"; str "routerAddress";
   str "destinationChainSelector"].

Definition missing (c : ConfigT) : list jsstring :=
  List.filter (fun key => negb (truthy (configGet c key))) required.

Definition validateConfig (c : ConfigT) : Outcome unit :=
  if (0 <? length (missing c))%nat
  then Throw (Error (str "Missing required environment variables: "
                       ++ join (str ", ") (missing c)))
  else Ok tt.

End Config.

(* ================================================================== *)
(** ** src/mcp-server.mts *)
(* ================================================================== *)

Module Server.
Import Config.

(** *** The external collaborators *)

Record Account := mkAccount { address : jsstring }.

(** [createPublicClient({ chain: sepolia, transport: http(RPC_URL) })] *)
Record PublicClient := mkPublicClient { publicRpc : option jsstring }.

(** [createWalletClient({ chain: sepolia, transport: http(RPC_URL), account })] *)
Record WalletClient := mkWalletClient {
  walletRpc : option jsstring;
  walletAccount : Account
}.

Record ReadArgs := mkReadArgs {
  readClient : PublicClient;
  readAddress : jsstring;
  readFunctionName : jsstring;
  readOwner : jsstring
}.

Record ApproveArgs := mkApproveArgs {
  approveClient : WalletClient;
  approveRouterAddress : option jsstring;
  approveTokenAddress : jsstring;
  approveAmount : Z;
  waitForReceipt : bool
}.

Record TransferArgs := mkTransferArgs {
  transferClient : WalletClient;
  transferRouterAddress : option jsstring;
  transferTokenAddress : jsstring;
  transferAmount : Z;
  transferDestinationAccount : jsstring;
  transferDestinationChainSelector : option jsstring
}.

Record Receipt := mkReceipt { txHash : jsstring; messageId : jsstring }.

(** viem and ccip-js over a world [W] (the chain and the router): a call
    returns or throws, and leaves a new world. *)
Record Chain (W : Type) := mkChain {
  privateKeyToAccount : option jsstring -> Outcome Account;
  readContract : ReadArgs -> W -> Outcome Z * W;
  approveRouter : ApproveArgs -> W -> Outcome unit * W;
  transferTokens : TransferArgs -> W -> Outcome Receipt * W
}.
Arguments privateKeyToAccount {W} _ _.
Arguments readContract {W} _ _ _.
Arguments approveRouter {W} _ _ _.
Arguments transferTokens {W} _ _ _.

(** The calls made to the chain and to the router, oldest first. *)
Inductive Call :=
| CallRead (a : ReadArgs)
| CallApprove (a : ApproveArgs)
| CallTransfer (a : TransferArgs).

Record State (W : Type) := mkState { world : W; calls : list Call }.
Arguments mkState {W} _ _.
Arguments world {W} _.
Arguments calls {W} _.

(** *** The tool *)

(** The arguments of [moveToken] once the schema
    [{ tokenAddress: z.string(), amount: z.number(), destinationAccount:
    z.string() }] has accepted them. *)
Record Input := mkInput {
  inTokenAddress : jsstring;
  inAmount : JsNumber;
  inDestinationAccount : jsstring
}.

Record Content := mkContent { type : jsstring; text : jsstring }.
Record ToolResponse := mkToolResponse { content : list Content }.

Section Handler.
Context {W : Type}.
Variable rt : Runtime.
Variable chain : Chain W.

(** One awaited call: it is logged, then the world answers. *)
Definition call {A} (c : Call) (f : W -> Outcome A * W) : M (State W) A :=
  fun st =>
    let '(o, w') := f (world st) in
    (o, mkState w' (calls st ++ [c])).

(** [BigInt(n)] *)
Definition BigInt (n : JsNumber) : Outcome Z :=
  match n with
  | Integral z => Ok z
  | _ =>
      Throw (mkExn (str "RangeError")
               (str "The number " ++ numberToString rt n
                ++ str " cannot be converted to a BigInt because it is not an integer"))
  end.

Definition insufficientMessage (balance amount : Z) : jsstring :=
  [10060] ++ str " Insufficient token balance: you have " ++ showZ balance
  ++ str ", but need " ++ showZ amount.

Definition movedMessage (input : Input) (txHash messageId : jsstring) : jsstring :=
  str "Moved " ++ numberToString rt (inAmount input) ++ str " tokens from "
  ++ inTokenAddress input ++ str " to " ++ inDestinationAccount input
  ++ str " on Arbitrum Sepolia with txHash " ++ txHash
  ++ str " and message ID " ++ messageId ++ str ".".

Definition textResponse (response : jsstring) : ToolResponse :=
  mkToolResponse [mkContent (str "text") response].

(** The arguments of the three calls. *)
Definition readArgs (env : Env) (input : Input) (account : Account) : ReadArgs :=
  mkReadArgs (mkPublicClient (RPC_URL env)) (inTokenAddress input)
    (str "balanceOf") (address account).

Definition approveArgs (env : Env) (input : Input) (account : Account)
    (amount : Z) : ApproveArgs :=
  mkApproveArgs (mkWalletClient (RPC_URL env) account) (ROUTER_ADDRESS env)
    (inTokenAddress input) amount true.

Definition transferArgs (env : Env) (input : Input) (account : Account)
    (amount : Z) : TransferArgs :=
  mkTransferArgs (mkWalletClient (RPC_URL env) account) (ROUTER_ADDRESS env)
    (inTokenAddress input) amount (inDestinationAccount input)
    (DESTINATION_CHAIN_SELECTOR env).

(** The handler registered under the name moveToken. *)
Definition moveToken (env : Env) (input : Input) : M (State W) ToolResponse :=
  let! account := lift (privateKeyToAccount chain (PRIVATE_KEY env)) in
  let! amount := lift (BigInt (inAmount input)) in
  (* 0) Check token balance *)
  let rd := readArgs env input account in
  let! balance := call (CallRead rd) (readContract chain rd) in
  let! response :=
    if (balance <? amount)%Z then
      ret (insufficientMessage balance amount)
    else
      (* 1) Approve Router to move your tokens *)
      let ap := approveArgs env input account amount in
      call (CallApprove ap) (approveRouter chain ap) ;;;
      (* 2) Send the cross-chain transfer *)
      let tr := transferArgs env input account amount in
      let! receipt := call (CallTransfer tr) (transferTokens chain tr) in
      ret (movedMessage input (txHash receipt) (messageId receipt))
  in
  ret (textResponse response).

(** One invocation of the tool, its calls counted from none. *)
Definition invoke (env : Env) (input : Input) (w : W)
    : Outcome ToolResponse * State W :=
  moveToken env input (mkState w []).

End Handler.

(** *** Startup *)





End Server.

(* ================================================================== *)
(** ** src/llm-client.ts *)
(* ================================================================== *)

Module Client.
Import Config.
Import Server (ToolResponse, Content, content, text, mkToolResponse, mkContent).

(** *** The outside of the client: the model endpoint and the tool server *)

(** An awaited operation settles after some milliseconds, or never does. *)
Inductive Pending (A : Type) :=
| Settles (after : N) (o : Outcome A)
| Never.
Arguments Settles {A} after o.
Arguments Never {A}.

(** What [fetch] resolves to, once the headers of the answer are in.  The
    body comes later: [res.text()] and [res.json()] settle [bodyAfter]
    milliseconds after the headers, with the text of the body or with the
    exception of a failed read.  A body that never arrives is outside the
    model: [callLLM] would then never return. *)
Record HttpResponse := mkHttpResponse {
  ok : bool;
  status : N;
  statusText : jsstring;
  bodyAfter : N;
  body : Outcome jsstring
}.

(** The POST of [callLLM]; its body is
    [{ model: "llama3.2", prompt, stream: false }]. *)
Record Request := mkRequest {
  endpoint : jsstring;
  authorization : option jsstring;
  prompt : jsstring
}.

Record Outside (W : Type) := mkOutside {
  fetch : Request -> W -> Pending HttpResponse * W;
  callTool : jsstring -> JsValue -> W -> Pending ToolResponse * W
}.
Arguments fetch {W} _ _ _.
Arguments callTool {W} _ _ _ _.

Inductive Event :=
| Completion (prompt : jsstring)
| Dispatch (toolName : jsstring) (args : JsValue).

Record State (W : Type) := mkState {
  world : W;
  clock : N;                      (* milliseconds spent waiting *)
  trace : list Event;             (* requests sent, oldest first *)
  history : list jsstring         (* the transcript *)
}.
Arguments mkState {W} _ _ _ _.
Arguments world {W} _.
Arguments clock {W} _.
Arguments trace {W} _.
Arguments history {W} _.

(** *** Reading a tool command *)

(** The pattern of the form with parentheses, anchored at both ends:
    group 1 [\w+], an opening parenthesis, [\s*], group 2 (an opening
    brace, any units but line terminators, a closing brace), [\s*], a
    closing parenthesis. *)
Definition parenRe : Re :=
  seq [RBol; RGroup 1 (RPlus isWordChar); lit 40; RStar isWhiteSpace;
       RGroup 2 (seq [lit 123; RStar isDot; lit 125]);
       RStar isWhiteSpace; lit 41; REol].

(** The pattern of the manual extraction, with two alternatives.
    First: group 1 [\w+], a colon, [\s*], a double quote, group 2 (one or
    more units other than a double quote), a double quote.
    Second: group 3 [\w+], a colon, [\s*], group 4 [\d+]. *)
Definition kvQuoted : Re :=
  seq [RGroup 1 (RPlus isWordChar); lit 58; RStar isWhiteSpace; lit 34;
       RGroup 2 (RPlus (isNotChar 34)); lit 34].

Definition kvInteger : Re :=
  seq [RGroup 3 (RPlus isWordChar); lit 58; RStar isWhiteSpace;
       RGroup 4 (RPlus isDigit)].

Definition kvRe : Re := RAlt kvQuoted kvInteger.

Definition marker : jsstring := str "TOOL:".

(** A string is truthy when it is defined and not empty. *)
Definition truthyGroup (g : option jsstring) : bool :=
  match g with
  | Some (_ :: _) => true
  | _ => false
  end.

(** [String(g)] for a group that may be undefined. *)
Definition groupText (g : option jsstring) : jsstring :=
  default (str "undefined") g.

(** [toolName] and [argsJson] of a reply that starts with the marker. *)
Definition splitCommand (llmReply : jsstring) : jsstring * jsstring :=
  let toolLine := firstLine llmReply in
  let rest := trim (sliceFrom 5 toolLine) in
  match exec parenRe rest with
  | Some parenMatch =>
      (groupText (groups parenMatch !! 1%nat), groupText (groups parenMatch !! 2%nat))
  | None =>
      match indexOf (str " ") rest with
      | Some spaceIndex =>
          (substring 0 spaceIndex rest, trim (sliceFrom (spaceIndex + 1) rest))
      | None => (rest, [])
      end
  end.

(** [obj[key] = value] for a string or a number [value]: the assignment to
    [__proto__] of a value that is not an object changes nothing. *)
Definition assign (obj : gmap jsstring JsValue) (key : jsstring) (value : JsValue)
    : gmap jsstring JsValue :=
  if eqs key (str "__proto__") then obj else <[key := value]> obj.

(** The body of the [forEach] over the matches. *)
Definition scrapeEntry (obj : gmap jsstring JsValue) (m : jsstring)
    : gmap jsstring JsValue :=
  match exec kvRe m with
  | Some keyValueMatch =>
      let g i := groups keyValueMatch !! (i : nat) in
      let key := if truthyGroup (g 1%nat) then groupText (g 1%nat) else groupText (g 3%nat) in
      let value :=
        if truthyGroup (g 2%nat) then VStr (groupText (g 2%nat))
        else VNum (parseInt (groupText (g 4%nat))) in
      assign obj key value
  | None => obj
  end.

(** The inner [try] block: the manual extraction of key-value pairs. *)
Definition scrape (argsJson : jsstring) : Outcome JsValue :=
  let fixedJson := argsJson in
  if startsWith (str "{") fixedJson && includes [34] fixedJson
     && negb (includes [92; 34] fixedJson)
  then
    match matchAll kvRe fixedJson with
    | Some matches => Ok (VObj (fold_left scrapeEntry matches ∅))
    | None => Throw (Error (str "Could not extract key-value pairs"))
    end
  else Throw (Error (str "Unrecognized format")).

(** [args]: [{}] unless [argsJson] is not empty and one of the two parsers
    accepts it. *)
Definition parseArgs (argsJson : jsstring) : JsValue :=
  match argsJson with
  | [] => VObj ∅
  | _ :: _ =>
      match Json.parse argsJson with
      | Some v => v
      | None =>
          match scrape argsJson with
          | Ok v => v
          | Throw _ => VObj ∅
          end
      end
  end.

(** A value that the manual extraction can produce: a string that is not
    empty, or the number that a run of digits writes (an integer that is
    not negative, rounded to binary64, or Infinity). *)
Definition scrapedValue (v : JsValue) : Prop :=
  (exists s, s <> [] /\ v = VStr s)
  \/ (exists ds, ds <> [] /\ forallb isDigit ds = true
                 /\ v = VNum (nearestInteger (digitsValue ds))).


(** The example of the specification: a first line and its arguments. *)
Definition exampleLine : jsstring :=
  qstr "TOOL: moveToken {'tokenAddress':'0xabc','amount':5,'destinationAccount':'0xdef'}".

Definition exampleArgs : gmap jsstring JsValue :=
  <[str "tokenAddress" := VStr (str "0xabc")]>
    (<[str "amount" := VNum (Integral 5)]>
       (<[str "destinationAccount" := VStr (str "0xdef")]> ∅)).

(** *** The two bounded calls *)

Definition llmBudget : N := 100000.
Definition defaultToolBudget : N := 300000.

Definition abortError : Exn :=
  mkExn (str "AbortError") (str "This operation was aborted").

Definition llmTimeoutMessage : jsstring :=
  str "LLM request timed out after 30 seconds".

(** [`Tool '${toolName}' timed out after ${timeoutMs/1000} seconds`] *)
Definition toolTimeoutMessage (rt : Runtime) (toolName : jsstring) (timeoutMs : N)
    : jsstring :=
  str "Tool '" ++ toolName ++ str "' timed out after "
  ++ numberToString rt (decimal (Z.of_N timeoutMs) (-3)) ++ str " seconds".

Inductive Loop := Continue | Break.

(** The number of tool calls among the requests sent. *)
Definition isDispatch (e : Event) : bool :=
  match e with Dispatch _ _ => true | Completion _ => false end.

Definition dispatches (t : list Event) : nat := length (List.filter isDispatch t).

Section Driver.
Context {W : Type}.
Variable rt : Runtime.
Variable env : Env.
Variable out : Outside W.

Definition advance (d : N) (st : State W) : State W :=
  mkState (world st) (clock st + d) (trace st) (history st).

Definition record (e : Event) (w : W) (st : State W) : State W :=
  mkState w (clock st) (trace st ++ [e]) (history st).

(** [await fetch(endpoint, { ..., signal })] under the timer that aborts
    the request after [budget] milliseconds; the timer is cleared as soon
    as [fetch] has resolved. *)
Definition awaitFetch (req : Request) (budget : N) : M (State W) HttpResponse :=
  fun st =>
    let '(p, w') := fetch out req (world st) in
    let st' := record (Completion (prompt req)) w' st in
    match p with
    | Settles d o =>
        if d <? budget then (o, advance d st')
        else (Throw abortError, advance budget st')
    | Never => (Throw abortError, advance budget st')
    end.

(** [await res.text()], and the read behind [await res.json()]: no timer
    runs any more. *)
Definition readBody (res : HttpResponse) : M (State W) jsstring :=
  fun st => (body res, advance (bodyAfter res) st).

(** The parsing of [res.json()], then [json.response]. *)
Definition responseText (text : jsstring) : Outcome jsstring :=
  match Json.parse text with
  | None => Throw (mkExn (str "SyntaxError") (syntaxErrorMessage rt text))
  | Some VNull =>
      Throw (mkExn (str "TypeError")
               (str "Cannot read properties of null (reading 'response')"))
  | Some (VObj m) =>
      match m !! str "response" with
      | Some (VStr r) => Ok r
      | _ => Throw (Error (str "Unexpected response format: "
                             ++ JSON_stringify rt (VObj m)))
      end
  | Some json =>
      Throw (Error (str "Unexpected response format: " ++ JSON_stringify rt json))
  end.

Definition callLLM (conversation : jsstring) : M (State W) jsstring :=
  let endpoint :=
    default (str "http://localhost:11434/api/generate") (LLAMA_API_URL env) in
  let apiKey := LLAMA_API_KEY env in
  let authorization :=
    if truthyString apiKey then Some (str "Bearer " ++ default [] apiKey)
    else None in
  catch
    (let! res := awaitFetch (mkRequest endpoint authorization conversation)
                   llmBudget in
     if negb (ok res) then
       let! text := readBody res in
       throw (Error (str "LLM request failed: " ++ showZ (Z.of_N (status res))
                     ++ str " " ++ statusText res ++ str " - " ++ text))
     else
       let! text := readBody res in
       lift (responseText text))
    (fun error =>
       if eqs (ename error) (str "AbortError")
       then throw (Error llmTimeoutMessage)
       else throw error).

Definition callToolWithTimeout (toolName : jsstring) (args : JsValue)
    (timeoutMs : N) : M (State W) ToolResponse :=
  fun st =>
    let '(p, w') := callTool out toolName args (world st) in
    let st' := record (Dispatch toolName args) w' st in
    let timedOut :=
      (Throw (Error (toolTimeoutMessage rt toolName timeoutMs)),
       advance timeoutMs st') in
    match p with
    | Settles d o => if d <? timeoutMs then (o, advance d st') else timedOut
    | Never => timedOut
    end.

(** *** One turn of the loop of [main] *)

(** [history.push(line)] *)
Definition pushed (line : jsstring) (st : State W) : State W :=
  mkState (world st) (clock st) (trace st) (history st ++ [line]).

Definition push (line : jsstring) : M (State W) unit := modify (pushed line).

(** [try { x = await c } catch { break }]: [None] is the [break]. *)
Definition orBreak {A} (c : M (State W) A) : M (State W) (option A) :=
  catch (let! a := c in ret (Some a)) (fun _ => ret None).

Definition lower (c : N) : N := if between 65 90 c then c + 32 else c.

(** [userInput.toLowerCase() === "exit"]: no unit outside ASCII has one
    of the four letters as its lower case. *)
Definition isExit (userInput : jsstring) : bool :=
  eqs (map lower userInput) (str "exit").

Definition followUpInstruction : jsstring :=
  [10; 10] ++ str "Provide a helpful summary of the result to the user. Do not call any additional tools.".

Definition cannedCompletion : jsstring :=
  str "Assistant: The token transfer has been completed successfully! The transaction details are shown above.".

Definition turn (answer : jsstring) : M (State W) Loop :=
  let userInput := trim answer in
  if isExit userInput then ret Break
  else
    push (str "User: " ++ userInput) ;;;
    let! h := gets history in
    let conversationText := join [10] h in
    let! reply := orBreak (callLLM conversationText) in
    match reply with
    | None => ret Break
    | Some llmReply =>
        if startsWith marker llmReply then
          let '(toolName, argsJson) := splitCommand llmReply in
          let args := parseArgs argsJson in
          let! result := orBreak (callToolWithTimeout toolName args defaultToolBudget) in
          match result with
          | None => ret Break
          | Some toolResult =>
              let output := join [10] (map text (content toolResult)) in
              push (str "Tool result for " ++ toolName ++ str ": " ++ output) ;;;
              let! h2 := gets history in
              let followUpPrompt := join [10] h2 ++ followUpInstruction in
              let! reply2 := orBreak (callLLM followUpPrompt) in
              match reply2 with
              | None => ret Break
              | Some followUp =>
                  (if startsWith marker followUp then push cannedCompletion
                   else push (str "Assistant: " ++ followUp)) ;;;
                  ret Continue
              end
          end
        else
          push (str "Assistant: " ++ llmReply) ;;; ret Continue
    end.

(** Names for the stages of a turn: the state once the line of the user
    is in the transcript, the prompt made of a transcript, the name and the
    arguments read from a reply, the state once the result of the tool is
    in the transcript, and the follow-up prompt. *)
Definition asked (answer : jsstring) (st : State W) : State W :=
  pushed (str "User: " ++ trim answer) st.

Definition conversationOf (st : State W) : jsstring := join [10] (history st).

Definition commandName (llmReply : jsstring) : jsstring :=
  fst (splitCommand llmReply).

Definition commandArgs (llmReply : jsstring) : JsValue :=
  parseArgs (snd (splitCommand llmReply)).

Definition toolOutput (toolResult : ToolResponse) : jsstring :=
  join [10] (map text (content toolResult)).

Definition answered (llmReply : jsstring) (toolResult : ToolResponse)
    (st : State W) : State W :=
  pushed (str "Tool result for " ++ commandName llmReply ++ str ": "
          ++ toolOutput toolResult) st.

Definition followUpPromptOf (st : State W) : jsstring :=
  conversationOf st ++ followUpInstruction.

(** The [while (true)] loop over the lines typed by the user. *)
Fixpoint chat (answers : list jsstring) : M (State W) unit :=
  match answers with
  | [] => ret tt
  | answer :: answers' =>
      let! l := turn answer in
      match l with
      | Break => ret tt
      | Continue => chat answers'
      end
  end.

End Driver.

End Client.

(* ================================================================== *)
(** ** Test doubles *)
(* ================================================================== *)

(** A chain and an outside world that answer from a script, to run the
    definitions above on concrete inputs. *)
Module Mock.
Import Config Server.

Definition rt : Runtime :=
  mkRuntime (fun _ => str "<number>") (fun _ => str "<json>")
    (fun _ => str "<syntax error>").

Record World := mkWorld {
  balance : Z;
  readFails : option Exn;
  approveFails : option Exn;
  transferFails : option Exn;
  approved : list Z;               (* amounts approved so far *)
  sent : list Z                    (* amounts sent so far *)
}.

Definition sender : Account := mkAccount (str "0xSender").

Definition chain : Chain World :=
  {| privateKeyToAccount k :=
       match k with
       | Some (_ :: _) => Ok sender
       | _ => Throw (Error (str "invalid private key"))
       end;
     readContract a w :=
       match readFails w with
       | Some e => (Throw e, w)
       | None => (Ok (balance w), w)
       end;
     approveRouter a w :=
       match approveFails w with
       | Some e => (Throw e, w)
       | None =>
           (Ok tt, mkWorld (balance w) (readFails w) (approveFails w)
                     (transferFails w) (approved w ++ [approveAmount a]) (sent w))
       end;
     transferTokens a w :=
       match transferFails w with
       | Some e => (Throw e, w)
       | None =>
           (Ok (mkReceipt (str "0xhash") (str "0xmessage")),
            mkWorld (balance w - transferAmount a) (readFails w) (approveFails w)
              (transferFails w) (approved w) (sent w ++ [transferAmount a]))
       end |}.

Definition env : Env :=
  mkEnv (Some (str "https://rpc.example")) (Some (str "0xkey"))
    (Some (str "0xrouter")) None (Some (str "3478487238524512106")) None
    None None None None.

Definition emptyEnv : Env :=
  mkEnv None None None None None None None None None None.

Definition envWithoutKey : Env :=
  mkEnv (Some (str "https://rpc.example")) None (Some (str "0xrouter")) None
    (Some (str "3478487238524512106")) None None None None None.

Definition input (amount : Z) : Input :=
  mkInput (str "0xabc") (Integral amount) (str "0xdef").

Definition healthy (balance : Z) : World :=
  mkWorld balance None None None [] [].

Definition boom : Exn := Error (str "execution reverted").

Definition approvalReverts (balance : Z) : World :=
  mkWorld balance None (Some boom) None [] [].

(** The outside of the client: the answers still to come, in order; a
    request that finds none never settles. *)
Record Script := mkScript {
  completions : list (Client.Pending Client.HttpResponse);
  toolAnswers : list (Client.Pending ToolResponse)
}.

Definition outside : Client.Outside Script :=
  {| Client.fetch _ w :=
       match completions w with
       | p :: l => (p, mkScript l (toolAnswers w))
       | [] => (Client.Never, w)
       end;
     Client.callTool _ _ w :=
       match toolAnswers w with
       | p :: l => (p, mkScript (completions w) l)
       | [] => (Client.Never, w)
       end |}.

(** The text of a JSON string literal for [s]. *)
Definition quoted (s : jsstring) : jsstring :=
  [34] ++ flat_map (fun c => if (c =? 34) || (c =? 92) then [92; c]
                             else if c =? 10 then [92; 110] else [c]) s
  ++ [34].

(** The endpoint answers [text] after [ms] milliseconds, the body coming
    with the headers. *)
Definition says (ms : N) (text : jsstring) : Client.Pending Client.HttpResponse :=
  Client.Settles ms
    (Ok (Client.mkHttpResponse true 200 (str "OK") 0
           (Ok (qstr "{'response':" ++ quoted text ++ str "}")))).

(** The tool server answers [text] after [ms] milliseconds. *)
Definition returns (ms : N) (text : jsstring) : Client.Pending ToolResponse :=
  Client.Settles ms (Ok (textResponse text)).

Definition fresh (s : Script) : Client.State Script :=
  Client.mkState s 0 [] [str "SYSTEM: You are an assistant."].

End Mock.

(* ================================================================== *)
(** ** src/mcp-server.mts: the sessions behind [POST /rpc] *)
(* ================================================================== *)

(** The route handler of the server that creates one [McpServer] per
    session.  Requests are taken one after another, each handled to its
    end; what the transport does with a request is its own business and is
    only recorded. *)
Module Router.
Import Config Server.

(** The names that every plain object inherits from [Object.prototype]:
    [sessions[name]] is defined, and truthy, for each of them. *)
Definition objectPrototypeNames : list jsstring :=
  [str "constructor"; str "__defineGetter__"; str "__defineSetter__";
   str "hasOwnProperty"; str "__lookupGetter__"; str "__lookupSetter__";
   str "isPrototypeOf"; str "propertyIsEnumerable"; str "toString";
   str "valueOf"; str "__proto__"; str "toLocaleString"].

(** A session: the server and the transport created for it (objects are
    numbered in the order of their creation), the tools registered on that
    server, and what its [sessionIdGenerator] returns. *)
Record Session := mkSession {
  sessionServer : nat;
  sessionTransport : nat;
  sessionTools : list jsstring;
  sessionName : jsstring
}.

(** A request: its [mcp-session-id] header and its body. *)
Record RpcRequest := mkRpcRequest {
  sessionHeader : option jsstring;
  rpcBody : jsstring
}.

Record Routes := mkRoutes {
  sessions : gmap jsstring Session;         (* the [sessions] object *)
  objects : nat;                            (* servers and transports created *)
  delegated : list (nat * RpcRequest)       (* [handleRequest] calls, oldest first *)
}.

(** After [start]: no session, and one object, the server on which
    [start] itself registers the three tools. *)
Definition started : Routes := mkRoutes ∅ 1 [].

(** [sessions[sessionId]]: an own property, an inherited one, or none. *)
Inductive Slot :=
| Own (s : Session)
| Inherited
| Missing.

Definition slot (m : gmap jsstring Session) (sessionId : jsstring) : Slot :=
  match m !! sessionId with
  | Some s => Own s
  | None =>
      if bool_decide (sessionId ∈ objectPrototypeNames) then Inherited
      else Missing
  end.

(** [let sessionId = req.headers["mcp-session-id"]; if (!sessionId)
    sessionId = "default";] *)
Definition sessionIdOf (req : RpcRequest) : jsstring :=
  match sessionHeader req with
  | Some (c :: s) => c :: s
  | _ => str "default"
  end.

Definition registeredTools : list jsstring :=
  [str "helloWorld"; str "getCurrentTime"; str "moveToken"].

(** The handler of [app.post("/rpc", ...)]. *)
Definition rpc (req : RpcRequest) : M Routes unit :=
  fun st =>
    let sessionId := sessionIdOf req in
    match slot (sessions st) sessionId with
    | Missing =>
        (* Create a new server instance for this session *)
        let sessionServer := objects st in
        let transport := S (objects st) in
        let session := mkSession sessionServer transport registeredTools sessionId in
        (Ok tt,
         mkRoutes (<[sessionId := session]> (sessions st)) (S (S (objects st)))
           (delegated st ++ [(transport, req)]))
    | Own session =>
        (Ok tt,
         mkRoutes (sessions st) (objects st)
           (delegated st ++ [(sessionTransport session, req)]))
    | Inherited =>
        (* [sessions[sessionId].transport] is undefined *)
        (Throw (mkExn (str "TypeError")
                  (str "Cannot read properties of undefined (reading 'handleRequest')")),
         st)
    end.

(** The handler run on the requests of a list, in order: the requests
    that reached the route. *)
Definition serve (reqs : list RpcRequest) (st : Routes) : Routes :=
  fold_left (fun st req => snd (rpc req st)) reqs st.

(** [app.use(express.json())] runs before the route.  It reads the body of
    the request and either hands the request on ([json req] is true), or
    answers it itself (400 for a body that is not JSON, 413 for one that
    is too large), and then the route does not run.  Which of the two it
    does is the business of the middleware. *)
Definition post (json : RpcRequest -> bool) (req : RpcRequest) : M Routes unit :=
  fun st => if json req then rpc req st else (Ok tt, st).

(** The requests that the server receives, in order. *)
Definition receive (json : RpcRequest -> bool) (reqs : list RpcRequest)
    (st : Routes) : Routes :=
  fold_left (fun st req => snd (post json req st)) reqs st.

(** The states the server can be in: after [start], and after any request
    handled from such a state. *)
Inductive Reachable : Routes -> Prop :=
| ReachStarted : Reachable started
| ReachRpc (req : RpcRequest) (st : Routes) :
    Reachable st -> Reachable (snd (rpc req st)).

(** What holds of the sessions in every state the server can reach:
    each is stored under the name its transport was given, has the three
    tools, a server and a transport of its own created after startup, and
    a name that [Object.prototype] does not have; no two share a server;
    and every request went to the transport of its own session. *)
Definition tidy (st : Routes) : Prop :=
  (forall id s, sessions st !! id = Some s ->
     sessionName s = id /\ sessionTools s = registeredTools
     /\ (0 < sessionServer s)%nat /\ sessionTransport s = S (sessionServer s)
     /\ (sessionTransport s < objects st)%nat
     /\ id <> [] /\ id ∉ objectPrototypeNames)
  /\ (forall id1 id2 s1 s2,
        sessions st !! id1 = Some s1 -> sessions st !! id2 = Some s2 ->
        sessionServer s1 = sessionServer s2 -> id1 = id2)
  /\ (forall t req, (t, req) ∈ delegated st ->
        exists s, sessions st !! sessionIdOf req = Some s /\ sessionTransport s = t)
  /\ (0 < objects st)%nat.

End Router.

(* ================================================================== *)
(** ** src/llm-client.ts: the progress indicator *)
(* ================================================================== *)

(** [showProgress], and the [try] block of [main] that wraps the tool call
    in it.  The terminal holds what has been written and the intervals
    that are armed; an interval fires when the event loop says so. *)
Module Progress.
Import Config Client.
Import Server (ToolResponse).

Definition spinner : list N :=
  [10251; 10265; 10297; 10296; 10300; 10292; 10278; 10279; 10247; 10255].

Inductive Output :=
| Stdout (text : jsstring)
| Stderr (text : jsstring).

Record Terminal := mkTerminal {
  written : list Output;              (* oldest first *)
  intervals : gmap nat nat;           (* armed intervals, each with its [i] *)
  nextInterval : nat
}.

(** [spinner[i]] inside a template literal. *)
Definition spinnerText (i : nat) : jsstring :=
  match spinner !! i with
  | Some c => [c]
  | None => str "undefined"
  end.

Definition frameText (i : nat) : jsstring :=
  [13] ++ spinnerText i ++ str " Processing...".

Definition completeText : jsstring := [13; 10003] ++ str " Complete" ++ [10].

(** The frames of [n] firings of an indicator that has just been shown. *)
Definition frames (n : nat) : list Output :=
  map (fun k => Stdout (frameText (k mod length spinner))) (List.seq 0%nat n).

(** [console.log(text)] and [console.error(text)] *)
Definition consoleLog (text : jsstring) (t : Terminal) : Terminal :=
  mkTerminal (written t ++ [Stdout (text ++ [10])]) (intervals t) (nextInterval t).

Definition consoleError (text : jsstring) (t : Terminal) : Terminal :=
  mkTerminal (written t ++ [Stderr (text ++ [10])]) (intervals t) (nextInterval t).

(** [showProgress(message)]: the handle it returns stands for the
    function that stops the indicator. *)
Definition showProgress (message : jsstring) (t : Terminal) : nat * Terminal :=
  let t1 := consoleLog message t in
  let interval := nextInterval t1 in
  (interval, mkTerminal (written t1) (<[interval := 0%nat]> (intervals t1)) (S interval)).

(** One firing of the interval. *)
Definition fire (interval : nat) (t : Terminal) : Terminal :=
  match intervals t !! interval with
  | Some i =>
      mkTerminal (written t ++ [Stdout (frameText i)])
        (<[interval := ((i + 1) mod length spinner)%nat]> (intervals t))
        (nextInterval t)
  | None => t
  end.

(** The function that [showProgress] returns. *)
Definition stopProgress (interval : nat) (t : Terminal) : Terminal :=
  mkTerminal (written t ++ [Stdout completeText]) (delete interval (intervals t))
    (nextInterval t).

Definition progressMessage (toolName : jsstring) : jsstring :=
  if eqs toolName (str "moveToken")
  then [55357; 56580] ++ str " Processing cross-chain transfer (this may take several minutes)..."
  else str "Invoking tool " ++ toolName ++ str "...".

Definition tip : jsstring :=
  [55357; 56481] ++ str " Tip: Cross-chain operations can take several minutes. Please be patient.".

Section Dispatch.
Context {W : Type}.
Variable rt : Runtime.
Variable out : Outside W.

(** The [try] block around the tool call; the interval fires [fired]
    times while the call is awaited.  [None] is the [break]. *)
Definition dispatch (toolName : jsstring) (args : JsValue) (fired : nat)
    (st : State W) (t : Terminal) : option ToolResponse * State W * Terminal :=
  let '(stopHandle, t1) := showProgress (progressMessage toolName) t in
  let '(r, st') := callToolWithTimeout rt out toolName args defaultToolBudget st in
  let t2 := Nat.iter fired (fire stopHandle) t1 in
  match r with
  | Ok toolResult => (Some toolResult, st', stopProgress stopHandle t2)
  | Throw err =>
      let t3 := consoleError (str "Tool invocation error: " ++ emessage err) t2 in
      let t4 :=
        if includes (str "timed out") (emessage err) then consoleLog tip t3
        else t3 in
      (None, st', t4)
  end.

End Dispatch.

End Progress.

(* ================================================================== *)
(** ** src/llm-client.ts: what a conversation leaves behind *)
(* ================================================================== *)

Module Transcript.
Import Client.

(** A line that a turn may add to the transcript. *)
Definition turnLine (line : jsstring) : Prop :=
  (exists x, line = str "User: " ++ x)
  \/ (exists n x, line = str "Tool result for " ++ n ++ str ": " ++ x)
  \/ line = cannedCompletion
  \/ (exists x, startsWith marker x = false /\ line = str "Assistant: " ++ x).

(** Every tool call comes right after a completion request; [prev] tells
    whether the request before the list was one. *)
Fixpoint prompted (prev : bool) (t : list Event) : bool :=
  match t with
  | [] => true
  | Completion _ :: t' => prompted true t'
  | Dispatch _ _ :: t' => prev && prompted false t'
  end.

End Transcript.

(* ================================================================== *)
(** * Properties *)
(* ================================================================== *)

(* ================================================================== *)
(** ** The fuel of the JSON parser *)
(* ================================================================== *)

(** The fuel of [normalise] is never exhausted: more fuel than the exponent
    changes nothing. *)
Lemma normalise_fuel (f : nat) :
  forall (m : Z) (e : positive),
    (Pos.to_nat e <= f)%nat -> normalise f m e = normalise (Pos.to_nat e) m e.
Proof.
  induction f as [|f IH]; intros m e H; [lia|].
  destruct (Pos.to_nat e) as [|n] eqn:En; [lia|].
  cbn [normalise]. destruct (m mod 10 =? 0)%Z; [|reflexivity].
  destruct (Pos.eq_dec e 1%positive) as [->|Hne]; [reflexivity|].
  assert (Hp : Pos.to_nat (Pos.pred e) = n) by lia.
  destruct e; try (rewrite IH by lia; rewrite Hp; reflexivity). done.
Qed.

Section JsonFuel.
Import Json.

Lemma skipWs_length (s : jsstring) : (length (skipWs s) <= length s)%nat.
Proof.
  induction s as [|c s IH]; simpl; [lia|].
  destruct (isJsonWs c); simpl; lia.
Qed.

Lemma skipWs_cons (s : jsstring) (c : N) (t : jsstring) :
  skipWs s = c :: t -> (length t < length s)%nat.
Proof. intros H. pose proof (skipWs_length s) as L. rewrite H in L. simpl in L. lia. Qed.

Lemma parseStringBody_length (s : jsstring) :
  forall acc v r, parseStringBody s acc = Some (v, r) -> (length r < length s)%nat.
Proof.
  induction s as [s IH] using (induction_ltof1 _ (@length N)). unfold ltof in IH.
  intros acc v r H. destruct s as [|c t]; [discriminate H|].
  cbn [parseStringBody] in H.
  destruct (c =? 34); [injection H as <- <-; simpl; lia|].
  destruct (c <? 32); [discriminate H|].
  destruct (c =? 92).
  2:{ apply IH in H; simpl in *; lia. }
  destruct t as [|e t']; [discriminate H|].
  repeat match type of H with
         | (if ?b then _ else _) = _ =>
             destruct b; [try (apply IH in H; simpl in *; lia)|]
         end.
  2: discriminate H.
  destruct t' as [|h1 [|h2 [|h3 [|h4 t'']]]]; try discriminate H.
  destruct (hex4 h1 h2 h3 h4); [|discriminate H].
  apply IH in H; simpl in *; lia.
Qed.

Lemma spanDigits_length (s : jsstring) :
  (length (snd (spanDigits s)) + length (fst (spanDigits s)) = length s)%nat.
Proof.
  induction s as [|c s IH]; simpl; [lia|].
  destruct (isDigit c); simpl; [|lia].
  destruct (spanDigits s); simpl in *. lia.
Qed.

Lemma parseNumber_length (s : jsstring) (n : JsNumber) (r : jsstring) :
  parseNumber s = Some (n, r) -> (length r < length s)%nat.
Proof.
  unfold parseNumber. intros H.
  set (p := match s with
            | c :: t => if c =? 45 then (true, t) else (false, s)
            | [] => (false, s)
            end) in H.
  assert (Hp : (length (snd p) <= length s)%nat).
  { subst p. destruct s as [|c t]; simpl; [lia|]. destruct (c =? 45); simpl; lia. }
  destruct p as [neg s1]. cbn [snd] in Hp.
  pose proof (spanDigits_length s1) as L1.
  destruct (spanDigits s1) as [ip s2]. cbn [fst snd] in L1.
  destruct ip as [|d0 ds]; [discriminate H|].
  destruct ((d0 =? 48) && negb (eqs ds [])); [discriminate H|].
  assert (Hfrac : forall fp s3,
    match s2 with
    | c :: t =>
        if c =? 46 then
          let '(fp, s3) := spanDigits t in
          match fp with [] => None | _ => Some (fp, s3) end
        else Some ([], s2)
    | [] => Some ([], s2)
    end = Some (fp, s3) -> (length s3 <= length s2)%nat).
  { intros fp s3 E. destruct s2 as [|c t]; [injection E as <- <-; lia|].
    destruct (c =? 46); [|injection E as <- <-; lia].
    pose proof (spanDigits_length t) as L. destruct (spanDigits t) as [fp' s3'].
    destruct fp'; [discriminate E|]. injection E as <- <-. simpl in *. lia. }
  match type of H with
  | match ?x with _ => _ end = _ => destruct x as [[fp s3]|] eqn:E; [|discriminate H]
  end.
  specialize (Hfrac fp s3 eq_refl).
  assert (Hexp : forall ex s4,
    match s3 with
    | c :: t =>
        if (c =? 101) || (c =? 69) then
          let '(eneg, t1) :=
            match t with
            | g :: t' =>
                if g =? 45 then (true, t')
                else if g =? 43 then (false, t')
                else (false, t)
            | [] => (false, t)
            end in
          let '(ep, s4) := spanDigits t1 in
          match ep with
          | [] => None
          | _ =>
              let v := Z.of_N (digitsValue ep) in
              Some (if eneg then (- v)%Z else v, s4)
          end
        else Some (0%Z, s3)
    | [] => Some (0%Z, s3)
    end = Some (ex, s4) -> (length s4 <= length s3)%nat).
  { intros ex s4 E'. destruct s3 as [|c t]; [injection E' as <- <-; lia|].
    destruct ((c =? 101) || (c =? 69)); [|injection E' as <- <-; lia].
    set (q := match t with
              | g :: t' =>
                  if g =? 45 then (true, t')
                  else if g =? 43 then (false, t')
                  else (false, t)
              | [] => (false, t)
              end) in E'.
    assert (Hq : (length (snd q) <= length t)%nat).
    { subst q. destruct t as [|g t']; simpl; [lia|].
      destruct (g =? 45); simpl; [lia|]. destruct (g =? 43); simpl; lia. }
    destruct q as [eneg t1]. cbn [snd] in Hq.
    pose proof (spanDigits_length t1) as L. destruct (spanDigits t1) as [ep s4'].
    destruct ep; [discriminate E'|]. injection E' as <- <-. simpl in *. lia. }
  match type of H with
  | match ?x with _ => _ end = _ => destruct x as [[ex s4]|] eqn:E'; [|discriminate H]
  end.
  specialize (Hexp ex s4 eq_refl). injection H as <- <-. simpl in *. lia.
Qed.

Lemma startsWith_length (p s : jsstring) :
  startsWith p s = true -> (length p <= length s)%nat.
Proof.
  revert s. induction p as [|a p IH]; intros [|b s] H; simpl in *; try lia; try done.
  apply andb_true_iff in H as [_ H]. apply IH in H. lia.
Qed.

(** A parse that succeeds with some fuel reads at least one unit and
    succeeds, with the same result, with any fuel that is at least twice
    the number of units read. *)
Lemma fuel_adequate (f : nat) :
  (forall s v r,
      parseValue f s = Some (v, r) ->
      (length r < length s)%nat
      /\ forall g, (2 * (length s - length r) <= g)%nat -> parseValue g s = Some (v, r))
  /\ (forall s acc v r,
      parseElements f s acc = Some (v, r) ->
      (length r + 2 <= length s)%nat
      /\ forall g, (2 * (length s - length r) - 1 <= g)%nat ->
                   parseElements g s acc = Some (v, r))
  /\ (forall s acc v r,
      parseMembers f s acc = Some (v, r) ->
      (length r + 2 <= length s)%nat
      /\ forall g, (2 * (length s - length r) - 1 <= g)%nat ->
                   parseMembers g s acc = Some (v, r)).
Proof.
  induction f as [|f (IHV & IHE & IHM)]; [repeat split; discriminate|].
  split; [|split].
  - intros s v r H. cbn [parseValue] in H.
    destruct (skipWs s) as [|c t] eqn:Hs; [discriminate H|].
    pose proof (skipWs_cons _ _ _ Hs) as Ls.
    destruct (c =? 123) eqn:E1.
    { destruct (skipWs t) as [|c2 t2] eqn:Ht; [discriminate H|].
      pose proof (skipWs_cons _ _ _ Ht) as Lt.
      destruct (c2 =? 125) eqn:E2.
      - injection H as <- <-. split; [lia|].
        intros [|g] Hg; [lia|]. cbn [parseValue]. by rewrite Hs, E1, Ht, E2.
      - apply IHM in H as [L G]. split; [lia|].
        intros [|g] Hg; [lia|]. cbn [parseValue]. rewrite Hs, E1, Ht, E2.
        apply G. lia. }
    destruct (c =? 91) eqn:E3.
    { destruct (skipWs t) as [|c2 t2] eqn:Ht; [discriminate H|].
      pose proof (skipWs_cons _ _ _ Ht) as Lt.
      destruct (c2 =? 93) eqn:E2.
      - injection H as <- <-. split; [lia|].
        intros [|g] Hg; [lia|]. cbn [parseValue]. by rewrite Hs, E1, E3, Ht, E2.
      - apply IHE in H as [L G]. split; [lia|].
        intros [|g] Hg; [lia|]. cbn [parseValue]. rewrite Hs, E1, E3, Ht, E2.
        apply G. lia. }
    assert (Hscalar : forall v r,
      (length r < length (c :: t))%nat ->
      (if c =? 34
       then match parseStringBody t [] with
            | Some (v, r) => Some (VStr v, r)
            | None => None
            end
       else if startsWith (str "true") (c :: t) then Some (VBool true, skipn 4 (c :: t))
       else if startsWith (str "false") (c :: t) then Some (VBool false, skipn 5 (c :: t))
       else if startsWith (str "null") (c :: t) then Some (VNull, skipn 4 (c :: t))
       else match parseNumber (c :: t) with
            | Some (n, r) => Some (VNum n, r)
            | None => None
            end) = Some (v, r) ->
      (length r < length s)%nat
      /\ forall g, (2 * (length s - length r) <= g)%nat -> parseValue g s = Some (v, r)).
    { intros v' r' L H'. cbn [length] in L. split; [lia|].
      intros [|g] Hg; [lia|]. cbn [parseValue]. by rewrite Hs, E1, E3. }
    apply Hscalar; [|exact H].
    destruct (c =? 34).
    { destruct (parseStringBody t []) as [[v' r']|] eqn:Hb; [|discriminate H].
      injection H as <- <-. apply parseStringBody_length in Hb. simpl. lia. }
    destruct (startsWith (str "true") (c :: t)) eqn:Hlit4.
    { injection H as <- <-. apply startsWith_length in Hlit4.
      rewrite length_skipn. change (length (str "true")) with 4%nat in Hlit4.
      cbn [length] in *. lia. }
    destruct (startsWith (str "false") (c :: t)) eqn:Hlit5.
    { injection H as <- <-. apply startsWith_length in Hlit5.
      rewrite length_skipn. change (length (str "false")) with 5%nat in Hlit5.
      cbn [length] in *. lia. }
    destruct (startsWith (str "null") (c :: t)) eqn:Hnull.
    { injection H as <- <-. apply startsWith_length in Hnull.
      rewrite length_skipn. change (length (str "null")) with 4%nat in Hnull.
      cbn [length] in *. lia. }
    destruct (parseNumber (c :: t)) as [[n r']|] eqn:Hn; [|discriminate H].
    injection H as <- <-. by apply parseNumber_length in Hn.
  - intros s acc v r H. cbn [parseElements] in H.
    destruct (parseValue f s) as [[v1 r1]|] eqn:Hv; [|discriminate H].
    apply IHV in Hv as [L1 G1].
    destruct (skipWs r1) as [|c t] eqn:Hr; [discriminate H|].
    pose proof (skipWs_cons _ _ _ Hr) as Lr.
    destruct (c =? 44) eqn:E1.
    + apply IHE in H as [L G]. split; [lia|].
      intros [|g] Hg; [lia|]. cbn [parseElements].
      rewrite (G1 g) by lia. rewrite Hr, E1. apply G. lia.
    + destruct (c =? 93) eqn:E2; [|discriminate H].
      injection H as <- <-. split; [lia|].
      intros [|g] Hg; [lia|]. cbn [parseElements].
      rewrite (G1 g) by lia. by rewrite Hr, E1, E2.
  - intros s acc v r H. cbn [parseMembers] in H.
    destruct (skipWs s) as [|c t] eqn:Hs; [discriminate H|].
    pose proof (skipWs_cons _ _ _ Hs) as Ls.
    destruct (c =? 34) eqn:E0; [|discriminate H].
    destruct (parseStringBody t []) as [[key r0]|] eqn:Hk; [|discriminate H].
    pose proof (parseStringBody_length _ _ _ _ Hk) as Lk.
    destruct (skipWs r0) as [|c2 t2] eqn:Hr0; [discriminate H|].
    pose proof (skipWs_cons _ _ _ Hr0) as Lr0.
    destruct (c2 =? 58) eqn:E1; [|discriminate H].
    destruct (parseValue f t2) as [[v1 r2]|] eqn:Hv; [|discriminate H].
    apply IHV in Hv as [L1 G1].
    destruct (skipWs r2) as [|c3 t3] eqn:Hr2; [discriminate H|].
    pose proof (skipWs_cons _ _ _ Hr2) as Lr2.
    destruct (c3 =? 44) eqn:E2.
    + apply IHM in H as [L G]. split; [lia|].
      intros [|g] Hg; [lia|]. cbn [parseMembers].
      rewrite Hs, E0, Hk, Hr0, E1. rewrite (G1 g) by lia. rewrite Hr2, E2.
      apply G. lia.
    + destruct (c3 =? 125) eqn:E3; [|discriminate H].
      injection H as <- <-. split; [lia|].
      intros [|g] Hg; [lia|]. cbn [parseMembers].
      rewrite Hs, E0, Hk, Hr0, E1. rewrite (G1 g) by lia. by rewrite Hr2, E2, E3.
Qed.

(** [JSON.parse] does not depend on its fuel: a text that parses with some
    fuel parses with the fuel that [parse] gives. *)
Lemma parse_fuel (text : jsstring) (f : nat) (v : JsValue) (r : jsstring) :
  parseValue f text = Some (v, r) ->
  skipWs r = [] ->
  parse text = Some v.
Proof.
  intros H Hr. unfold parse.
  destruct (proj1 (fuel_adequate f) text v r H) as [L G].
  rewrite (G (2 * length text + 2)%nat) by lia. by rewrite Hr.
Qed.
End JsonFuel.

(* ================================================================== *)
(** ** Properties of the moveToken handler *)
(* ================================================================== *)

Section HandlerProperties.
Import Config Server.
Context {W : Type}.
Variable rt : Runtime.
Variable chain : Chain W.
Variable env : Env.
Variable input : Input.

Ltac run_handler :=
  unfold invoke, moveToken, bind, lift, call, ret, BigInt; simpl.

(** What one invocation does, step by step: each lemma fixes the answers
    of the world up to one step and gives the outcome and the calls. *)

Lemma invoke_no_account (w : W) e :
  privateKeyToAccount chain (PRIVATE_KEY env) = Throw e ->
  invoke rt chain env input w = (Throw e, mkState w []).
Proof. intros Hk. run_handler. by rewrite Hk. Qed.

Lemma invoke_not_integer (w : W) account :
  privateKeyToAccount chain (PRIVATE_KEY env) = Ok account ->
  (forall z, inAmount input <> Integral z) ->
  exists e, invoke rt chain env input w = (Throw e, mkState w []).
Proof.
  intros Hk Hn. run_handler. rewrite Hk.
  destruct (inAmount input) as [z| | |]; [by destruct (Hn z)| | |]; eauto.
Qed.

Section Steps.
Variables (account : Account) (amount : Z).
Hypothesis Hkey : privateKeyToAccount chain (PRIVATE_KEY env) = Ok account.
Hypothesis Hamount : inAmount input = Integral amount.

Abbreviation rd := (readArgs env input account).
Abbreviation ap := (approveArgs env input account amount).
Abbreviation tr := (transferArgs env input account amount).

Lemma invoke_read_throws (w w1 : W) e :
  readContract chain rd w = (Throw e, w1) ->
  invoke rt chain env input w = (Throw e, mkState w1 [CallRead rd]).
Proof. intros Hr. run_handler. rewrite Hkey, Hamount. fold rd. by rewrite Hr. Qed.

Lemma invoke_insufficient (w w1 : W) balance :
  readContract chain rd w = (Ok balance, w1) ->
  (balance < amount)%Z ->
  invoke rt chain env input w
  = (Ok (textResponse (insufficientMessage balance amount)),
     mkState w1 [CallRead rd]).
Proof.
  intros Hr Hlt. run_handler. rewrite Hkey, Hamount. fold rd. rewrite Hr.
  apply Z.ltb_lt in Hlt. by rewrite Hlt.
Qed.

Lemma invoke_approve_throws (w w1 w2 : W) balance e :
  readContract chain rd w = (Ok balance, w1) ->
  (amount <= balance)%Z ->
  approveRouter chain ap w1 = (Throw e, w2) ->
  invoke rt chain env input w
  = (Throw e, mkState w2 [CallRead rd; CallApprove ap]).
Proof.
  intros Hr Hle Ha. run_handler. rewrite Hkey, Hamount. fold rd. rewrite Hr.
  apply Z.ltb_ge in Hle. rewrite Hle. simpl. fold ap. by rewrite Ha.
Qed.

Lemma invoke_transfer_throws (w w1 w2 w3 : W) balance e :
  readContract chain rd w = (Ok balance, w1) ->
  (amount <= balance)%Z ->
  approveRouter chain ap w1 = (Ok tt, w2) ->
  transferTokens chain tr w2 = (Throw e, w3) ->
  invoke rt chain env input w
  = (Throw e, mkState w3 [CallRead rd; CallApprove ap; CallTransfer tr]).
Proof.
  intros Hr Hle Ha Ht. run_handler. rewrite Hkey, Hamount. fold rd. rewrite Hr.
  apply Z.ltb_ge in Hle. rewrite Hle. simpl. fold ap. rewrite Ha. simpl.
  fold tr. by rewrite Ht.
Qed.

Lemma invoke_completed (w w1 w2 w3 : W) balance receipt :
  readContract chain rd w = (Ok balance, w1) ->
  (amount <= balance)%Z ->
  approveRouter chain ap w1 = (Ok tt, w2) ->
  transferTokens chain tr w2 = (Ok receipt, w3) ->
  invoke rt chain env input w
  = (Ok (textResponse (movedMessage rt input (txHash receipt) (messageId receipt))),
     mkState w3 [CallRead rd; CallApprove ap; CallTransfer tr]).
Proof.
  intros Hr Hle Ha Ht. run_handler. rewrite Hkey, Hamount. fold rd. rewrite Hr.
  apply Z.ltb_ge in Hle. rewrite Hle. simpl. fold ap. rewrite Ha. simpl.
  fold tr. by rewrite Ht.
Qed.
End Steps.
End HandlerProperties.

Section HandlerCases.
Import Config Server.
Context {W : Type}.
Variable rt : Runtime.
Variable chain : Chain W.

(** Every invocation goes one of six ways. *)
Lemma invoke_cases (env : Env) (input : Input) (w : W) :
  (exists e,
      privateKeyToAccount chain (PRIVATE_KEY env) = Throw e
      /\ invoke rt chain env input w = (Throw e, mkState w []))
  \/ (exists account msg,
      privateKeyToAccount chain (PRIVATE_KEY env) = Ok account
      /\ (forall z, inAmount input <> Integral z)
      /\ invoke rt chain env input w = (Throw (mkExn (str "RangeError") msg), mkState w []))
  \/ (exists account amount,
      privateKeyToAccount chain (PRIVATE_KEY env) = Ok account
      /\ inAmount input = Integral amount
      /\ let rd := readArgs env input account in
         let ap := approveArgs env input account amount in
         let tr := transferArgs env input account amount in
         (exists e w1,
             readContract chain rd w = (Throw e, w1)
             /\ invoke rt chain env input w = (Throw e, mkState w1 [CallRead rd]))
         \/ (exists balance w1,
             readContract chain rd w = (Ok balance, w1)
             /\ (balance < amount)%Z
             /\ invoke rt chain env input w
                = (Ok (textResponse (insufficientMessage balance amount)),
                   mkState w1 [CallRead rd]))
         \/ (exists balance w1 e w2,
             readContract chain rd w = (Ok balance, w1)
             /\ (amount <= balance)%Z
             /\ approveRouter chain ap w1 = (Throw e, w2)
             /\ invoke rt chain env input w
                = (Throw e, mkState w2 [CallRead rd; CallApprove ap]))
         \/ (exists balance w1 w2 e w3,
             readContract chain rd w = (Ok balance, w1)
             /\ (amount <= balance)%Z
             /\ approveRouter chain ap w1 = (Ok tt, w2)
             /\ transferTokens chain tr w2 = (Throw e, w3)
             /\ invoke rt chain env input w
                = (Throw e, mkState w3 [CallRead rd; CallApprove ap; CallTransfer tr]))
         \/ (exists balance w1 w2 receipt w3,
             readContract chain rd w = (Ok balance, w1)
             /\ (amount <= balance)%Z
             /\ approveRouter chain ap w1 = (Ok tt, w2)
             /\ transferTokens chain tr w2 = (Ok receipt, w3)
             /\ invoke rt chain env input w
                = (Ok (textResponse (movedMessage rt input (txHash receipt)
                                       (messageId receipt))),
                   mkState w3 [CallRead rd; CallApprove ap; CallTransfer tr]))).
Proof.
  destruct (privateKeyToAccount chain (PRIVATE_KEY env)) as [account|e] eqn:Hk.
  2:{ left. exists e. split; [reflexivity|]. by apply invoke_no_account. }
  right.
  destruct (inAmount input) as [amount|m ex| |b] eqn:Ha.
  2,3,4: left; eexists account, _; split; [reflexivity|];
       split; [intros z; discriminate|];
       unfold invoke, moveToken, bind, lift, BigInt; rewrite Hk, Ha; reflexivity.
  right. exists account, amount. split; [reflexivity|]. split; [reflexivity|].
  intros rd ap tr.
  destruct (readContract chain rd w) as [[balance|e] w1] eqn:Hr.
  2:{ left. exists e, w1. split; [reflexivity|].
      exact (invoke_read_throws rt chain env input account amount Hk Ha w w1 e Hr). }
  right. destruct (Z.lt_ge_cases balance amount) as [Hlt|Hge].
  { left. exists balance, w1. split; [reflexivity|]. split; [exact Hlt|].
    exact (invoke_insufficient rt chain env input account amount Hk Ha w w1 balance Hr Hlt). }
  right. destruct (approveRouter chain ap w1) as [[[]|e] w2] eqn:Hap.
  2:{ left. exists balance, w1, e, w2. split; [reflexivity|]. split; [exact Hge|]. split; [exact Hap|].
      exact (invoke_approve_throws rt chain env input account amount Hk Ha
               w w1 w2 balance e Hr Hge Hap). }
  right. destruct (transferTokens chain tr w2) as [[receipt|e] w3] eqn:Htr.
  - right. exists balance, w1, w2, receipt, w3. split; [reflexivity|]. split; [exact Hge|]. split; [exact Hap|]. split; [exact Htr|].
    exact (invoke_completed rt chain env input account amount Hk Ha
             w w1 w2 w3 balance receipt Hr Hge Hap Htr).
  - left. exists balance, w1, w2, e, w3. split; [reflexivity|]. split; [exact Hge|]. split; [exact Hap|]. split; [exact Htr|].
    exact (invoke_transfer_throws rt chain env input account amount Hk Ha
             w w1 w2 w3 balance e Hr Hge Hap Htr).
Qed.
End HandlerCases.

Section HandlerClaims.
Import Config Server.
Context {W : Type}.
Variable rt : Runtime.
Variable chain : Chain W.
Variable env : Env.
Variable input : Input.

(** C1. When the requested amount exceeds the balance that was read, the
    handler returns one text content that reads: the cross mark (U+274C),
    then Insufficient token balance: you have, the digits of the balance
    read, but need, the digits of the requested amount; and the only call
    it has made is the balance read: no approval, no send. *)
Theorem moveToken_insufficient_balance
    (w w1 : W) (account : Account) (amount balance : Z) :
  privateKeyToAccount chain (PRIVATE_KEY env) = Ok account ->
  inAmount input = Integral amount ->
  readContract chain (readArgs env input account) w = (Ok balance, w1) ->
  (amount > balance)%Z ->
  invoke rt chain env input w
  = (Ok (mkToolResponse
           [mkContent (str "text")
              ([10060] ++ str " Insufficient token balance: you have "
               ++ showZ balance ++ str ", but need " ++ showZ amount)]),
     mkState w1 [CallRead (readArgs env input account)])
  /\ (forall a, ~ In (CallApprove a) (calls (snd (invoke rt chain env input w))))
  /\ (forall a, ~ In (CallTransfer a) (calls (snd (invoke rt chain env input w)))).
Proof.
  intros Hk Ha Hr Hgt.
  assert (E := invoke_insufficient rt chain env input account amount Hk Ha
                 w w1 balance Hr ltac:(lia)).
  rewrite E. split; [reflexivity|].
  split; intros a [H|[]]; discriminate H.
Qed.

(** C2. When the balance read is at least the requested amount and both
    the approval and the send succeed, the handler returns one text
    content that reads: Moved, the amount as the template literal prints
    it (all its digits up to 2^53), tokens from, the token address, to,
    the destination account, on Arbitrum Sepolia with txHash, the
    transaction hash that the send returned, and message ID, the message
    identifier that the send returned, and a full stop.  The approval is
    called with [waitForReceipt] set, for the requested amount, and the
    send is submitted after it, in the world the confirmed approval left. *)
Theorem moveToken_completed
    (w w1 w2 w3 : W) (account : Account) (amount balance : Z) (receipt : Receipt) :
  privateKeyToAccount chain (PRIVATE_KEY env) = Ok account ->
  inAmount input = Integral amount ->
  readContract chain (readArgs env input account) w = (Ok balance, w1) ->
  (balance >= amount)%Z ->
  approveRouter chain (approveArgs env input account amount) w1 = (Ok tt, w2) ->
  transferTokens chain (transferArgs env input account amount) w2 = (Ok receipt, w3) ->
  invoke rt chain env input w
  = (Ok (mkToolResponse
           [mkContent (str "text")
              (str "Moved " ++ numberToString rt (Integral amount)
               ++ str " tokens from " ++ inTokenAddress input
               ++ str " to " ++ inDestinationAccount input
               ++ str " on Arbitrum Sepolia with txHash " ++ txHash receipt
               ++ str " and message ID " ++ messageId receipt ++ str ".")]),
     mkState w3 [CallRead (readArgs env input account);
                 CallApprove (approveArgs env input account amount);
                 CallTransfer (transferArgs env input account amount)])
  /\ ((Z.abs amount <= 9007199254740992)%Z ->
      numberToString rt (Integral amount) = showZ amount)
  /\ waitForReceipt (approveArgs env input account amount) = true
  /\ approveAmount (approveArgs env input account amount) = amount.
Proof.
  intros Hk Ha Hr Hge Hap Htr. split; [|split; [|split; reflexivity]].
  - rewrite (invoke_completed rt chain env input account amount Hk Ha
               w w1 w2 w3 balance receipt Hr ltac:(lia) Hap Htr).
    unfold textResponse, movedMessage. by rewrite Ha.
  - intros Hsafe. unfold numberToString.
    replace (Z.abs amount <=? Z.of_N maxSafe)%Z with true; [reflexivity|].
    symmetry. apply Z.leb_le. exact Hsafe.
Qed.

(** C3. If a send call appears among the calls of an invocation, then in
    that invocation the balance was read and was not below the amount,
    and the approval call returned normally before the send; and if the
    approval call throws, no send call is made. *)
Theorem send_requires_balance_and_approval (w : W) :
  (forall tr, In (CallTransfer tr) (calls (snd (invoke rt chain env input w))) ->
     exists account amount balance w1 w2,
       privateKeyToAccount chain (PRIVATE_KEY env) = Ok account
       /\ inAmount input = Integral amount
       /\ readContract chain (readArgs env input account) w = (Ok balance, w1)
       /\ (balance <? amount)%Z = false
       /\ approveRouter chain (approveArgs env input account amount) w1 = (Ok tt, w2)
       /\ tr = transferArgs env input account amount)
  /\ (forall account amount balance w1 w2 e,
        privateKeyToAccount chain (PRIVATE_KEY env) = Ok account ->
        inAmount input = Integral amount ->
        readContract chain (readArgs env input account) w = (Ok balance, w1) ->
        approveRouter chain (approveArgs env input account amount) w1 = (Throw e, w2) ->
        forall tr, ~ In (CallTransfer tr) (calls (snd (invoke rt chain env input w)))).
Proof.
  assert (Hmain : forall tr,
    In (CallTransfer tr) (calls (snd (invoke rt chain env input w))) ->
     exists account amount balance w1 w2,
       privateKeyToAccount chain (PRIVATE_KEY env) = Ok account
       /\ inAmount input = Integral amount
       /\ readContract chain (readArgs env input account) w = (Ok balance, w1)
       /\ (balance <? amount)%Z = false
       /\ approveRouter chain (approveArgs env input account amount) w1 = (Ok tt, w2)
       /\ tr = transferArgs env input account amount).
  { intros tr.
    destruct (privateKeyToAccount chain (PRIVATE_KEY env)) as [account|e] eqn:Hk.
    2:{ rewrite (invoke_no_account rt chain env input w e Hk). intros []. }
    destruct (inAmount input) as [amount| | |] eqn:Ha.
    2,3,4: destruct (invoke_not_integer rt chain env input w account Hk) as [ex E];
         [intros z; rewrite Ha; discriminate | rewrite E; intros []].
    destruct (readContract chain (readArgs env input account) w) as [[balance|e] w1] eqn:Hr.
    2:{ rewrite (invoke_read_throws rt chain env input account amount Hk Ha w w1 e Hr).
        intros [H|[]]; discriminate H. }
    destruct (balance <? amount)%Z eqn:Hlt.
    { apply Z.ltb_lt in Hlt.
      rewrite (invoke_insufficient rt chain env input account amount Hk Ha w w1 balance Hr Hlt).
      intros [H|[]]; discriminate H. }
    assert (Hle : (amount <= balance)%Z) by (apply Z.ltb_ge; exact Hlt).
    destruct (approveRouter chain (approveArgs env input account amount) w1)
      as [[[]|e] w2] eqn:Hap.
    2:{ rewrite (invoke_approve_throws rt chain env input account amount Hk Ha
                   w w1 w2 balance e Hr Hle Hap).
        intros [H|[H|[]]]; discriminate H. }
    intros Hin. exists account, amount, balance, w1, w2.
    repeat (split; [assumption || reflexivity|]).
    destruct (transferTokens chain (transferArgs env input account amount) w2)
      as [[receipt|e] w3] eqn:Htr.
    - rewrite (invoke_completed rt chain env input account amount Hk Ha
                 w w1 w2 w3 balance receipt Hr Hle Hap Htr) in Hin.
      destruct Hin as [H|[H|[H|[]]]]; congruence.
    - rewrite (invoke_transfer_throws rt chain env input account amount Hk Ha
                 w w1 w2 w3 balance e Hr Hle Hap Htr) in Hin.
      destruct Hin as [H|[H|[H|[]]]]; congruence. }
  split; [exact Hmain|].
  intros account amount balance w1 w2 e Hk Ha Hr Hap tr Hin.
  destruct (Hmain tr Hin) as (account' & amount' & balance' & w1' & w2' & Hk' & Ha' & Hr' & _ & Hap' & _).
  rewrite Hk in Hk'. injection Hk' as <-.
  rewrite Ha in Ha'. injection Ha' as <-.
  rewrite Hr in Hr'. injection Hr' as <- <-.
  rewrite Hap in Hap'. discriminate Hap'.
Qed.

(** C4, as the handler has it. An exception thrown by the balance read,
    by the approval or by the send leaves the handler as that same
    exception, thrown, not as a returned outcome; and the handler has
    then made each call up to the failing one exactly once: nothing is
    retried. *)
Theorem provider_exception_is_rethrown
    (w : W) (account : Account) (amount : Z) (e : Exn) :
  privateKeyToAccount chain (PRIVATE_KEY env) = Ok account ->
  inAmount input = Integral amount ->
  let rd := readArgs env input account in
  let ap := approveArgs env input account amount in
  let tr := transferArgs env input account amount in
  (forall w1,
      readContract chain rd w = (Throw e, w1) ->
      invoke rt chain env input w = (Throw e, mkState w1 [CallRead rd]))
  /\ (forall balance w1 w2,
      readContract chain rd w = (Ok balance, w1) ->
      (balance >= amount)%Z ->
      approveRouter chain ap w1 = (Throw e, w2) ->
      invoke rt chain env input w
      = (Throw e, mkState w2 [CallRead rd; CallApprove ap]))
  /\ (forall balance w1 w2 w3,
      readContract chain rd w = (Ok balance, w1) ->
      (balance >= amount)%Z ->
      approveRouter chain ap w1 = (Ok tt, w2) ->
      transferTokens chain tr w2 = (Throw e, w3) ->
      invoke rt chain env input w
      = (Throw e, mkState w3 [CallRead rd; CallApprove ap; CallTransfer tr])).
Proof.
  intros Hk Ha rd ap tr. split; [|split].
  - intros w1 Hr.
    exact (invoke_read_throws rt chain env input account amount Hk Ha w w1 e Hr).
  - intros balance w1 w2 Hr Hge Hap.
    eapply invoke_approve_throws; eauto. lia.
  - intros balance w1 w2 w3 Hr Hge Hap Htr.
    eapply invoke_transfer_throws; eauto. lia.
Qed.

(** C5. A negative integer amount passes the guard for every balance that
    is not negative: the handler does not answer with the
    insufficient-balance message, it calls the approval with that
    negative amount, and once the approval returns it calls the send with
    that negative amount. *)
Theorem negative_amount_passes_guard
    (w w1 : W) (account : Account) (amount balance : Z) :
  privateKeyToAccount chain (PRIVATE_KEY env) = Ok account ->
  inAmount input = Integral amount ->
  (amount < 0)%Z ->
  (0 <= balance)%Z ->
  readContract chain (readArgs env input account) w = (Ok balance, w1) ->
  let run := invoke rt chain env input w in
  let ap := approveArgs env input account amount in
  let tr := transferArgs env input account amount in
  (balance <? amount)%Z = false
  /\ fst run <> Ok (textResponse (insufficientMessage balance amount))
  /\ approveAmount ap = amount
  /\ transferAmount tr = amount
  /\ (exists more, calls (snd run)
                   = CallRead (readArgs env input account) :: CallApprove ap :: more)
  /\ (forall w2, approveRouter chain ap w1 = (Ok tt, w2) ->
        calls (snd run)
        = [CallRead (readArgs env input account); CallApprove ap; CallTransfer tr]).
Proof.
  intros Hk Ha Hneg Hpos Hr run ap tr.
  assert (Hle : (amount <= balance)%Z) by lia.
  split; [apply Z.ltb_ge; exact Hle|].
  destruct (approveRouter chain ap w1) as [[[]|e] w2] eqn:Hap.
  - destruct (transferTokens chain tr w2) as [[receipt|e] w3] eqn:Htr.
    + assert (E := invoke_completed rt chain env input account amount Hk Ha
                     w w1 w2 w3 balance receipt Hr Hle Hap Htr).
      subst run. rewrite E. simpl.
      split; [intros H; discriminate H|].
      repeat split; eauto.
    + assert (E := invoke_transfer_throws rt chain env input account amount Hk Ha
                     w w1 w2 w3 balance e Hr Hle Hap Htr).
      subst run. rewrite E. simpl.
      split; [intros H; discriminate H|].
      repeat split; eauto.
  - assert (E := invoke_approve_throws rt chain env input account amount Hk Ha
                   w w1 w2 balance e Hr Hle Hap).
    subst run. rewrite E. simpl.
    split; [intros H; discriminate H|].
    repeat split; eauto. intros w2' H; discriminate H.
Qed.

End HandlerClaims.
(* ================================================================== *)
(** ** The matcher *)
(* ================================================================== *)

Section MatcherFacts.
Context {A : Type}.

(** Whatever [star] returns comes from the continuation, called after a
    run of units of the class. *)
Lemma star_sound (p : N -> bool) (s : jsstring) :
  forall (i : nat) (k : nat -> jsstring -> option A) (a : A),
    star p i s k = Some a ->
    exists n, forallb p (firstn n s) = true
              /\ (n <= length s)%nat
              /\ k (i + n)%nat (skipn n s) = Some a.
Proof.
  induction s as [|c s IH]; intros i k a H; simpl in H.
  - exists 0%nat. rewrite Nat.add_0_r. simpl. auto.
  - destruct (p c) eqn:Hc.
    + destruct (star p (S i) s k) as [a'|] eqn:Hs.
      * injection H as <-. destruct (IH _ _ _ Hs) as (n & Hn & Hl & Hk).
        exists (S n). simpl. rewrite Hc, Hn. repeat split; [lia|].
        by replace (i + S n)%nat with (S i + n)%nat by lia.
      * exists 0%nat. rewrite Nat.add_0_r. simpl. split; [done|split; [lia|done]].
    + exists 0%nat. rewrite Nat.add_0_r. simpl. split; [done|split; [lia|done]].
Qed.



Lemma star_nil (p : N -> bool) (i : nat) (k : nat -> jsstring -> option A) :
  star p i [] k = k i [].
Proof. reflexivity. Qed.
End MatcherFacts.


Section ExtractionPattern.
Import Client.
Context {A : Type}.

Ltac step_class H :=
  match type of H with
  | context [match ?s with [] => _ | _ :: _ => _ end] =>
      let c := fresh "c" in let s' := fresh "s" in
      destruct s as [|c s'] eqn:?; [discriminate H|];
      match type of H with
      | context [if ?b then _ else _] =>
          destruct b eqn:?; [|discriminate H]
      end
  end.

Lemma kvQuoted_sound (st : MState) (k : MState -> option A) (a : A) :
  run kvQuoted st k = Some a ->
  exists st' key val,
    k st' = Some a /\ key <> [] /\ val <> []
    /\ caps st' = <[2%nat := val]> (<[1%nat := key]> (caps st)).
Proof.
  unfold kvQuoted. simpl. intros H.
  step_class H.
  apply star_sound in H as (n1 & _ & _ & H). simpl in H.
  step_class H.
  apply star_sound in H as (n2 & _ & _ & H). simpl in H.
  step_class H. step_class H.
  apply star_sound in H as (n3 & _ & _ & H). simpl in H.
  step_class H.
  eexists _, _, _. split; [exact H|]. simpl.
  split; [|split; [|reflexivity]].
  - match goal with |- firstn ?n _ <> _ => replace n with (S n1) by lia end.
    discriminate.
  - match goal with |- firstn ?n _ <> _ => replace n with (S n3) by lia end.
    discriminate.
Qed.

Lemma kvInteger_sound (st : MState) (k : MState -> option A) (a : A) :
  run kvInteger st k = Some a ->
  exists st' key ds,
    k st' = Some a /\ key <> [] /\ ds <> [] /\ forallb isDigit ds = true
    /\ caps st' = <[4%nat := ds]> (<[3%nat := key]> (caps st)).
Proof.
  unfold kvInteger. simpl. intros H.
  step_class H.
  apply star_sound in H as (n1 & _ & _ & H). simpl in H.
  step_class H.
  apply star_sound in H as (n2 & _ & _ & H). simpl in H.
  step_class H.
  apply star_sound in H as (n3 & Hd & _ & H). simpl in H.
  eexists _, _, _. split; [exact H|]. simpl.
  split; [|split; [|split; [|reflexivity]]].
  - match goal with |- firstn ?n _ <> _ => replace n with (S n1) by lia end.
    discriminate.
  - match goal with |- firstn ?n _ <> _ => replace n with (S n3) by lia end.
    discriminate.
  - match goal with |- forallb _ (firstn ?n _) = _ => replace n with (S n3) by lia end.
    simpl. apply andb_true_iff. split; assumption.
Qed.
End ExtractionPattern.

Section Extraction.
Import Client.

Lemma digit_bounds (c : N) : isDigit c = true -> 48 <= c <= 57.
Proof. unfold isDigit, between. intros H. apply andb_true_iff in H as [H1 H2]. lia. Qed.

Lemma digit_not_space (c : N) : isDigit c = true -> isWhiteSpace c = false.
Proof.
  intros H. apply digit_bounds in H. unfold isWhiteSpace, between.
  repeat (apply orb_false_iff; split); try (apply andb_false_iff); lia.
Qed.

Lemma spanDigits_all (ds : jsstring) :
  forallb isDigit ds = true -> spanDigits ds = (ds, []).
Proof.
  induction ds as [|c ds IH]; simpl; [done|].
  intros H. apply andb_true_iff in H as [Hc H]. by rewrite Hc, (IH H).
Qed.

(** Up to [2^53] an integer is its own nearest number; beyond, the
    nearest number is an integer that is not negative, or Infinity. *)
Lemma nearestInteger_safe (n : N) :
  n <= maxSafe -> nearestInteger n = Integral (Z.of_N n).
Proof. intros H. unfold nearestInteger. by rewrite (proj2 (N.leb_le _ _) H). Qed.

Lemma nearestInteger_shape (n : N) :
  nearestInteger n = Infinity false
  \/ exists z, (0 <= z)%Z /\ nearestInteger n = Integral z.
Proof.
  unfold nearestInteger. destruct (n <=? maxSafe).
  - right. eexists. split; [|reflexivity]. lia.
  - match goal with |- context [if ?b then Infinity false else _] => destruct b end.
    + by left.
    + right. eexists. split; [|reflexivity]. lia.
Qed.

Lemma parseInt_digits (ds : jsstring) :
  ds <> [] -> forallb isDigit ds = true ->
  parseInt ds = nearestInteger (digitsValue ds).
Proof.
  destruct ds as [|c t]; [done|]. intros _ H.
  assert (Hall := H). simpl in H. apply andb_true_iff in H as [Hc Ht].
  unfold parseInt. simpl trimStart. rewrite (digit_not_space c Hc).
  apply digit_bounds in Hc.
  replace (c =? 45) with false by lia. replace (c =? 43) with false by lia.
  assert (Hx : startsWith (str "0x") (c :: t) || startsWith (str "0X") (c :: t) = false).
  { change (str "0x") with [48; 120]. change (str "0X") with [48; 88].
    destruct t as [|d t]; cbn [startsWith].
    - by rewrite !andb_false_r.
    - apply andb_true_iff in Ht as [Hd _]. apply digit_bounds in Hd.
      replace (120 =? d) with false by lia. replace (88 =? d) with false by lia.
      by rewrite !andb_false_r. }
  rewrite Hx. by rewrite (spanDigits_all _ Hall).
Qed.

Lemma matchAt_kv (i : nat) (s : jsstring) (m : Match) :
  matchAt kvRe i s = Some m ->
  (exists key val, key <> [] /\ val <> []
     /\ groups m = <[2%nat := val]> (<[1%nat := key]> ∅))
  \/ (exists key ds, key <> [] /\ ds <> [] /\ forallb isDigit ds = true
     /\ groups m = <[4%nat := ds]> (<[3%nat := key]> ∅)).
Proof.
  unfold matchAt, kvRe. cbn [run]. intros H.
  match type of H with
  | match ?x with Some _ => _ | None => _ end = _ => destruct x eqn:E
  end.
  - injection H as ->. apply kvQuoted_sound in E as (st' & key & val & E' & Hk & Hv & Hc).
    left. exists key, val. injection E' as <-. simpl. by rewrite Hc.
  - apply kvInteger_sound in H as (st' & key & ds & E' & Hk & Hd & Hds & Hc).
    right. exists key, ds. injection E' as <-. simpl. by rewrite Hc.
Qed.

Lemma execFrom_kv (s : jsstring) :
  forall (i : nat) (m : Match),
    execFrom kvRe i s = Some m ->
    (exists key val, key <> [] /\ val <> []
       /\ groups m = <[2%nat := val]> (<[1%nat := key]> ∅))
    \/ (exists key ds, key <> [] /\ ds <> [] /\ forallb isDigit ds = true
       /\ groups m = <[4%nat := ds]> (<[3%nat := key]> ∅)).
Proof.
  induction s as [|c s IH]; intros i m H; cbn [execFrom] in H.
  - destruct (matchAt kvRe i []) eqn:E; [|done].
    injection H as ->. by apply matchAt_kv in E.
  - destruct (matchAt kvRe i (c :: s)) eqn:E.
    + injection H as ->. by apply matchAt_kv in E.
    + by apply IH in H.
Qed.

Lemma assign_values (obj : gmap jsstring JsValue) (key : jsstring) (v : JsValue) :
  map_Forall (fun _ x => scrapedValue x) obj ->
  scrapedValue v ->
  map_Forall (fun _ x => scrapedValue x) (assign obj key v).
Proof.
  intros Hobj Hv. unfold assign. destruct (eqs key (str "__proto__")); [done|].
  by apply map_Forall_insert_2.
Qed.

Lemma scrapeEntry_values (obj : gmap jsstring JsValue) (m : jsstring) :
  map_Forall (fun _ x => scrapedValue x) obj ->
  map_Forall (fun _ x => scrapedValue x) (scrapeEntry obj m).
Proof.
  intros Hobj. unfold scrapeEntry.
  destruct (exec kvRe m) as [kv|] eqn:E; [|done].
  apply execFrom_kv in E as [(key & val & Hk & Hv & ->)|(key & ds & Hk & Hd & Hds & ->)].
  - apply assign_values; [done|]. left.
    rewrite lookup_insert_eq. destruct val as [|c val]; [done|]. simpl.
    eexists. split; [|reflexivity]. done.
  - apply assign_values; [done|]. right.
    rewrite lookup_insert_ne, lookup_insert_ne, lookup_empty by done.
    simpl. rewrite lookup_insert_eq. simpl.
    rewrite (parseInt_digits ds Hd Hds). by exists ds.
Qed.

Lemma scrape_values (argsJson : jsstring) (v : JsValue) :
  scrape argsJson = Ok v ->
  exists obj, v = VObj obj /\ map_Forall (fun _ x => scrapedValue x) obj.
Proof.
  unfold scrape. destruct (_ && _); [|done].
  destruct (matchAll kvRe argsJson) as [matches|]; [|done].
  intros [= <-]. eexists. split; [reflexivity|].
  assert (G : forall l obj,
    map_Forall (fun _ x => scrapedValue x) obj ->
    map_Forall (fun _ x => scrapedValue x) (fold_left scrapeEntry l obj)).
  { induction l as [|m l IH]; intros obj Hobj; simpl; [done|].
    apply IH. by apply scrapeEntry_values. }
  apply G. apply map_Forall_empty.
Qed.
End Extraction.

Section SurfaceSyntax.
Import Client.


Lemma word_facts (c : N) :
  isWordChar c = true -> c <> 32 /\ c <> 40 /\ c <> 10.
Proof. unfold isWordChar, isDigit, between. lia. Qed.





Lemma execFrom_bol_later (r : Re) (s : jsstring) :
  forall i, (0 < i)%nat -> execFrom (RSeq RBol r) i s = None.
Proof.
  induction s as [|c s IH]; intros i Hi; cbn [execFrom].
  - unfold matchAt. cbn [run pos]. destruct i; [lia|]. reflexivity.
  - unfold matchAt at 1. cbn [run pos]. destruct i; [lia|]. cbn [Nat.eqb].
    apply IH. lia.
Qed.

End SurfaceSyntax.

Section ParenSyntax.
Import Client.


End ParenSyntax.

Section Commands.
Import Client.





End Commands.

Section StringFacts.
Lemma startsWith_app (p s : jsstring) : startsWith p (p ++ s) = true.
Proof. induction p as [|c p IH]; [done|]. cbn. by rewrite N.eqb_refl. Qed.

Lemma includes_app (p a b : jsstring) : includes p (a ++ p ++ b) = true.
Proof.
  induction a as [|c a IH].
  - cbn [app]. destruct (p ++ b) eqn:E; cbn [includes]; rewrite <- ?E;
      by rewrite startsWith_app.
  - cbn [app includes]. rewrite IH. apply orb_true_r.
Qed.
End StringFacts.

Section ExtractionApplies.
Import Client.













End ExtractionApplies.

Section ExtractionFamily.
Import Client.

End ExtractionFamily.

Section ExtractionIntegers.
Import Client.





End ExtractionIntegers.

Section ExtractionFamilyTwo.
Import Client.




End ExtractionFamilyTwo.

(* ================================================================== *)
(** ** The conversational driver *)
(* ================================================================== *)

Section DriverFacts.
Import Config Client.
Import Server (ToolResponse, Content, content, text, mkToolResponse, mkContent).
Context {W : Type}.
Variable rt : Runtime.
Variable env : Env.
Variable out : Outside W.

(** A completion request sends one request and leaves the transcript
    alone, however it ends. *)
Lemma callLLM_frame (conversation : jsstring) (st st' : State W) r :
  callLLM rt env out conversation st = (r, st') ->
  trace st' = trace st ++ [Completion conversation] /\ history st' = history st.
Proof.
  unfold callLLM, catch, bind, awaitFetch, readBody, throw, lift. cbn [prompt].
  destruct (fetch out _ (world st)) as [[d [res|e]|] w'].
  - destruct (d <? llmBudget).
    + destruct (negb (ok res)); destruct (body res) as [text|e]; cbn.
      * intros [= <- <-]. done.
      * destruct (eqs _ _); intros [= <- <-]; done.
      * destruct (responseText rt text); cbn.
        -- intros [= <- <-]. done.
        -- destruct (eqs _ _); intros [= <- <-]; done.
      * destruct (eqs _ _); intros [= <- <-]; done.
    + cbn. intros [= <- <-]. done.
  - destruct (d <? llmBudget); cbn.
    + destruct (eqs _ _); intros [= <- <-]; done.
    + intros [= <- <-]. done.
  - cbn. intros [= <- <-]. done.
Qed.

(** A tool call sends one request and leaves the transcript alone. *)
Lemma callTool_frame (toolName : jsstring) (args : JsValue) (timeoutMs : N)
    (st st' : State W) r :
  callToolWithTimeout rt out toolName args timeoutMs st = (r, st') ->
  trace st' = trace st ++ [Dispatch toolName args] /\ history st' = history st.
Proof.
  unfold callToolWithTimeout.
  destruct (callTool out toolName args (world st)) as [[d o|] w'].
  - destruct (d <? timeoutMs); intros [= <- <-]; done.
  - intros [= <- <-]. done.
Qed.

Lemma dispatches_app (a b : list Event) :
  dispatches (a ++ b) = (dispatches a + dispatches b)%nat.
Proof. unfold dispatches. by rewrite List.filter_app, length_app. Qed.

(** *** The five ways a turn can go *)

Ltac simpl_turn :=
  cbn -[callLLM callToolWithTimeout join splitCommand parseArgs startsWith
        str trim app] in *.

Ltac unfold_turn :=
  unfold turn, push, modify, gets, orBreak, catch, ret, bind;
  unfold followUpPromptOf, answered, toolOutput, commandName, commandArgs,
    conversationOf, asked in *;
  unfold pushed in *; simpl_turn.

Section Turn.
Variable answer : jsstring.
Variable st : State W.
Hypothesis Hstay : isExit (trim answer) = false.

Lemma turn_completion_fails (st1 : State W) e :
  callLLM rt env out (conversationOf (asked answer st)) (asked answer st) = (Throw e, st1) ->
  turn rt env out answer st = (Ok Break, st1).
Proof.
  intros H. unfold turn. rewrite Hstay.
  unfold_turn.
  by rewrite H.
Qed.

Section Replied.
Variables (llmReply : jsstring) (st1 : State W).
Hypothesis Hreply : callLLM rt env out (conversationOf (asked answer st)) (asked answer st) = (Ok llmReply, st1).

Lemma turn_plain_reply :
  startsWith marker llmReply = false ->
  turn rt env out answer st
  = (Ok Continue, pushed (str "Assistant: " ++ llmReply) st1).
Proof.
  intros Hm. unfold turn. rewrite Hstay.
  unfold_turn.
  rewrite Hreply. by rewrite Hm.
Qed.

Section Command.
Hypothesis Hmarker : startsWith marker llmReply = true.

Lemma turn_tool_fails (st2 : State W) e :
  callToolWithTimeout rt out (commandName llmReply) (commandArgs llmReply)
    defaultToolBudget st1 = (Throw e, st2) ->
  turn rt env out answer st = (Ok Break, st2).
Proof.
  intros H. unfold turn. rewrite Hstay.
  unfold_turn.
  rewrite Hreply, Hmarker.
  destruct (splitCommand llmReply) as [n a]. cbn [fst snd] in *.
  by rewrite H.
Qed.

Section Executed.
Variables (toolResult : ToolResponse) (st2 : State W).
Hypothesis Htool :
  callToolWithTimeout rt out (commandName llmReply) (commandArgs llmReply)
    defaultToolBudget st1
  = (Ok toolResult, st2).

Lemma turn_followup_fails (st3 : State W) e :
  callLLM rt env out (followUpPromptOf (answered llmReply toolResult st2))
    (answered llmReply toolResult st2) = (Throw e, st3) ->
  turn rt env out answer st = (Ok Break, st3).
Proof.
  intros H. unfold turn. rewrite Hstay.
  unfold_turn.
  rewrite Hreply, Hmarker.
  destruct (splitCommand llmReply) as [n a]. cbn [fst snd] in *.
  rewrite Htool. simpl_turn. by rewrite H.
Qed.

Lemma turn_followup (followUp : jsstring) (st3 : State W) :
  callLLM rt env out (followUpPromptOf (answered llmReply toolResult st2))
    (answered llmReply toolResult st2) = (Ok followUp, st3) ->
  turn rt env out answer st
  = (Ok Continue,
     pushed (if startsWith marker followUp then cannedCompletion
             else str "Assistant: " ++ followUp) st3).
Proof.
  intros H. unfold turn. rewrite Hstay.
  unfold_turn.
  rewrite Hreply, Hmarker.
  destruct (splitCommand llmReply) as [n a]. cbn [fst snd] in *.
  rewrite Htool. simpl_turn. rewrite H. by destruct (startsWith marker followUp).
Qed.
End Executed.
End Command.
End Replied.
End Turn.

Lemma turn_exit (answer : jsstring) (st : State W) :
  isExit (trim answer) = true -> turn rt env out answer st = (Ok Break, st).
Proof. intros H. unfold turn. by rewrite H. Qed.
End DriverFacts.

Section DriverTrace.
Import Config Client.
Import Server (ToolResponse, Content, content, text, mkToolResponse, mkContent).
Context {W : Type}.
Variable rt : Runtime.
Variable env : Env.
Variable out : Outside W.
Variable answer : jsstring.
Variable st : State W.

(** A reply that starts with the marker is dispatched, once, with the
    name and the arguments read from it. *)
Lemma turn_command_trace (llmReply : jsstring) (st1 : State W) :
  isExit (trim answer) = false ->
  callLLM rt env out (conversationOf (asked answer st)) (asked answer st)
  = (Ok llmReply, st1) ->
  startsWith marker llmReply = true ->
  exists more,
    trace (snd (turn rt env out answer st))
    = trace st1 ++ Dispatch (commandName llmReply) (commandArgs llmReply) :: more
    /\ dispatches more = 0%nat.
Proof.
  intros Hstay Hreply Hmarker.
  destruct (callToolWithTimeout rt out (commandName llmReply) (commandArgs llmReply)
              defaultToolBudget st1)
    as [[toolResult|e] st2] eqn:Htool.
  - destruct (callTool_frame _ _ _ _ _ _ _ _ Htool) as [Ht2 _].
    destruct (callLLM rt env out (followUpPromptOf (answered llmReply toolResult st2))
                (answered llmReply toolResult st2))
      as [[followUp|e] st3] eqn:Hfollow.
    + destruct (callLLM_frame _ _ _ _ _ _ _ Hfollow) as [Ht3 _].
      rewrite (turn_followup rt env out answer st Hstay llmReply st1 Hreply Hmarker
                 toolResult st2 Htool followUp st3 Hfollow).
      eexists [_]. cbn [snd pushed trace]. rewrite Ht3. cbn [answered trace pushed].
      rewrite Ht2, <- app_assoc. split; reflexivity.
    + destruct (callLLM_frame _ _ _ _ _ _ _ Hfollow) as [Ht3 _].
      rewrite (turn_followup_fails rt env out answer st Hstay llmReply st1 Hreply Hmarker
                 toolResult st2 Htool st3 e Hfollow).
      eexists [_]. cbn [snd]. rewrite Ht3. cbn [answered trace pushed].
      rewrite Ht2, <- app_assoc. split; reflexivity.
  - destruct (callTool_frame _ _ _ _ _ _ _ _ Htool) as [Ht2 _].
    rewrite (turn_tool_fails rt env out answer st Hstay llmReply st1 Hreply Hmarker
               st2 e Htool).
    exists []. cbn [snd]. rewrite Ht2. split; reflexivity.
Qed.

(** A turn sends at most one tool call. *)
Lemma turn_dispatches_once :
  (dispatches (trace (snd (turn rt env out answer st)))
   <= dispatches (trace st) + 1)%nat.
Proof.
  destruct (isExit (trim answer)) eqn:Hstay.
  { rewrite turn_exit by done. cbn [snd]. lia. }
  destruct (callLLM rt env out (conversationOf (asked answer st)) (asked answer st))
    as [[llmReply|e] st1] eqn:Hreply.
  2:{ rewrite (turn_completion_fails rt env out answer st Hstay st1 e Hreply).
      destruct (callLLM_frame _ _ _ _ _ _ _ Hreply) as [Ht1 _]. cbn [snd].
      rewrite Ht1, dispatches_app. cbn [asked pushed trace].
      change (dispatches [Completion ?p]) with 0%nat. lia. }
  destruct (callLLM_frame _ _ _ _ _ _ _ Hreply) as [Ht1 _].
  assert (Hd1 : dispatches (trace st1) = dispatches (trace st)).
  { rewrite Ht1, dispatches_app. cbn [asked pushed trace].
    change (dispatches [Completion ?p]) with 0%nat. lia. }
  destruct (startsWith marker llmReply) eqn:Hmarker.
  - destruct (turn_command_trace llmReply st1 Hstay Hreply Hmarker) as (more & -> & Hmore).
    rewrite dispatches_app. change (Dispatch ?n ?a :: more) with ([Dispatch n a] ++ more).
    rewrite dispatches_app, Hmore, Hd1. change (dispatches [Dispatch ?n ?a]) with 1%nat. lia.
  - rewrite (turn_plain_reply rt env out answer st Hstay llmReply st1 Hreply Hmarker).
    cbn [snd pushed trace]. lia.
Qed.
End DriverTrace.

Section DriverClaims.
Import Config Client.
Import Server (ToolResponse, Content, content, text, mkToolResponse, mkContent).
Context {W : Type}.
Variable rt : Runtime.
Variable env : Env.
Variable out : Outside W.
Variable answer : jsstring.
Variable st : State W.


(** C8. A turn sends at most one tool call.  After a tool has answered,
    the requests of the turn are, in order: the completion for the
    transcript with the line of the user, the tool call, and a completion
    whose prompt is the transcript with the line of the user and the line
    of the tool result, followed by two line feeds and the sentences
    Provide a helpful summary of the result to the user. Do not call any
    additional tools.  When the answer to that last request itself starts
    with TOOL:, the turn goes on to the next line of the user, the
    transcript has received, after the line of the tool result, the line
    Assistant: The token transfer has been completed successfully! The
    transaction details are shown above., and exactly one tool call has
    been sent. *)
Theorem one_dispatch_per_turn :
  (dispatches (trace (snd (turn rt env out answer st)))
   <= dispatches (trace st) + 1)%nat
  /\ (forall llmReply st1 toolResult st2,
        isExit (trim answer) = false ->
        callLLM rt env out (conversationOf (asked answer st)) (asked answer st)
        = (Ok llmReply, st1) ->
        startsWith (str "TOOL:") llmReply = true ->
        callToolWithTimeout rt out (commandName llmReply) (commandArgs llmReply)
          defaultToolBudget st1
        = (Ok toolResult, st2) ->
        let userLine := str "User: " ++ trim answer in
        let resultLine :=
          str "Tool result for " ++ commandName llmReply ++ str ": "
          ++ join [10] (map text (content toolResult)) in
        let followUpPrompt :=
          join [10] (history st ++ [userLine; resultLine]) ++ [10; 10]
          ++ str "Provide a helpful summary of the result to the user. Do not call any additional tools." in
        trace (snd (turn rt env out answer st))
        = trace st ++ [Completion (join [10] (history st ++ [userLine]));
                       Dispatch (commandName llmReply) (commandArgs llmReply);
                       Completion followUpPrompt]
        /\ (forall followUp st3,
              callLLM rt env out followUpPrompt (answered llmReply toolResult st2)
              = (Ok followUp, st3) ->
              startsWith (str "TOOL:") followUp = true ->
              fst (turn rt env out answer st) = Ok Continue
              /\ history (snd (turn rt env out answer st))
                 = history st
                   ++ [userLine; resultLine;
                       str "Assistant: The token transfer has been completed successfully! The transaction details are shown above."]
              /\ dispatches (trace (snd (turn rt env out answer st)))
                 = (dispatches (trace st) + 1)%nat)).
Proof.
  split; [apply turn_dispatches_once|].
  intros llmReply st1 toolResult st2 Hstay Hreply Hmarker Htool
    userLine resultLine followUpPrompt.
  destruct (callLLM_frame _ _ _ _ _ _ _ Hreply) as [Ht1 Hh1].
  destruct (callTool_frame _ _ _ _ _ _ _ _ Htool) as [Ht2 Hh2].
  cbn [asked pushed trace history] in Ht1, Hh1.
  set (st2' := answered llmReply toolResult st2).
  assert (Hh2' : history st2' = history st ++ [userLine; resultLine]).
  { unfold st2', answered, pushed, toolOutput. cbn [history].
    rewrite Hh2, Hh1, <- app_assoc. reflexivity. }
  assert (Hp : followUpPromptOf st2' = followUpPrompt).
  { unfold followUpPromptOf, conversationOf. rewrite Hh2'. reflexivity. }
  assert (Ht2' : trace st2
                 = trace st ++ [Completion (join [10] (history st ++ [userLine]));
                                Dispatch (commandName llmReply) (commandArgs llmReply)]).
  { rewrite Ht2, Ht1, <- app_assoc. reflexivity. }
  assert (Hframe : forall r st3,
    callLLM rt env out (followUpPromptOf st2') st2' = (r, st3) ->
    trace st3 = trace st ++ [Completion (join [10] (history st ++ [userLine]));
                             Dispatch (commandName llmReply) (commandArgs llmReply);
                             Completion followUpPrompt]
    /\ history st3 = history st ++ [userLine; resultLine]).
  { intros r st3 H. destruct (callLLM_frame _ _ _ _ _ _ _ H) as [Ht3 Hh3].
    cbn [trace] in Ht3. fold st2' in Ht3.
    assert (Hst2 : trace st2' = trace st2) by reflexivity.
    rewrite Hst2, Ht2', Hp, <- app_assoc in Ht3. rewrite Hh3, Hh2'. by split. }
  split.
  - destruct (callLLM rt env out (followUpPromptOf st2') st2')
      as [[followUp|e] st3] eqn:Hfollow.
    + rewrite (turn_followup rt env out answer st Hstay llmReply st1 Hreply Hmarker
                 toolResult st2 Htool followUp st3 Hfollow).
      cbn [snd pushed trace]. exact (proj1 (Hframe _ _ eq_refl)).
    + rewrite (turn_followup_fails rt env out answer st Hstay llmReply st1 Hreply Hmarker
                 toolResult st2 Htool st3 e Hfollow).
      cbn [snd]. exact (proj1 (Hframe _ _ eq_refl)).
  - intros followUp st3 Hfollow Hagain. rewrite <- Hp in Hfollow.
    rewrite (turn_followup rt env out answer st Hstay llmReply st1 Hreply Hmarker
               toolResult st2 Htool followUp st3 Hfollow).
    change (startsWith marker followUp) with (startsWith (str "TOOL:") followUp).
    rewrite Hagain. cbn [fst snd pushed history trace].
    destruct (Hframe _ _ Hfollow) as [Ht3 Hh3].
    split; [reflexivity|]. split.
    + rewrite Hh3, <- app_assoc. reflexivity.
    + rewrite Ht3, dispatches_app.
      change (dispatches [Completion ?p; Dispatch ?n ?a; Completion ?q]) with 1%nat.
      lia.
Qed.


(** C9, evaluated. When the model endpoint has not settled when the
    timer fires, [callLLM] has waited 100000 milliseconds and throws an
    error whose message says 30 seconds; when the tool server has not
    settled, [callToolWithTimeout] has waited [timeoutMs] milliseconds
    and throws an error whose message gives [timeoutMs / 1000] seconds,
    300 for the budget that [main] uses. *)
Theorem timeout_messages (conversation toolName : jsstring) (args : JsValue)
    (timeoutMs : N) (w' : W) :
  let request :=
    mkRequest (default (str "http://localhost:11434/api/generate") (LLAMA_API_URL env))
      (if truthyString (LLAMA_API_KEY env)
       then Some (str "Bearer " ++ default [] (LLAMA_API_KEY env)) else None)
      conversation in
  (fetch out request (world st) = (Never, w') ->
     callLLM rt env out conversation st
     = (Throw (Error (str "LLM request timed out after 30 seconds")),
        mkState w' (clock st + 100000) (trace st ++ [Completion conversation])
          (history st)))
  /\ (callTool out toolName args (world st) = (Never, w') ->
      callToolWithTimeout rt out toolName args timeoutMs st
      = (Throw (Error (toolTimeoutMessage rt toolName timeoutMs)),
         mkState w' (clock st + timeoutMs) (trace st ++ [Dispatch toolName args])
           (history st)))
  /\ toolTimeoutMessage rt toolName defaultToolBudget
     = str "Tool '" ++ toolName ++ str "' timed out after 300 seconds".
Proof.
  intros request. split; [|split].
  - intros H. unfold callLLM, catch, bind, awaitFetch. fold request. rewrite H.
    reflexivity.
  - intros H. unfold callToolWithTimeout. rewrite H. reflexivity.
  - reflexivity.
Qed.
End DriverClaims.

(* ================================================================== *)
(** ** Configuration and startup *)
(* ================================================================== *)

Section Startup.
Import Config Server.

Lemma missing_cons (c : ConfigT) :
  missing c
  = (if truthyString (rpcUrl c) then [] else [str "rpcUrl"])
    ++ (if truthyString (privateKey c) then [] else [str "privateKey"])
    ++ (if truthyString (routerAddress c) then [] else [str "routerAddress"])
    ++ (if truthyString (destinationChainSelector c) then []
        else [str "destinationChainSelector"]).
Proof.
  unfold missing, required. cbn [List.filter].
  change (configGet c (str "rpcUrl")) with (ofOption (rpcUrl c)).
  change (configGet c (str "privateKey")) with (ofOption (privateKey c)).
  change (configGet c (str "routerAddress")) with (ofOption (routerAddress c)).
  change (configGet c (str "destinationChainSelector"))
    with (ofOption (destinationChainSelector c)).
  destruct (rpcUrl c) as [[|? ?]|], (privateKey c) as [[|? ?]|],
    (routerAddress c) as [[|? ?]|], (destinationChainSelector c) as [[|? ?]|];
    reflexivity.
Qed.

End Startup.

(* ================================================================== *)
(** ** The theorems at concrete inputs *)
(* ================================================================== *)

Section Runs.
Import Config Server.

(** C1 at a request for 10 with a balance of 3. *)
Lemma moveToken_insufficient_balance_witness :
  invoke Mock.rt Mock.chain Mock.env (Mock.input 10) (Mock.healthy 3)
  = (Ok (mkToolResponse
           [mkContent (str "text")
              ([10060] ++ str " Insufficient token balance: you have 3, but need 10")]),
     mkState (Mock.healthy 3)
       [CallRead (mkReadArgs (mkPublicClient (Some (str "https://rpc.example")))
                    (str "0xabc") (str "balanceOf") (str "0xSender"))])
  /\ (forall a, ~ In (CallApprove a)
        (calls (snd (invoke Mock.rt Mock.chain Mock.env (Mock.input 10) (Mock.healthy 3)))))
  /\ (forall a, ~ In (CallTransfer a)
        (calls (snd (invoke Mock.rt Mock.chain Mock.env (Mock.input 10) (Mock.healthy 3))))).
Proof.
  apply (moveToken_insufficient_balance Mock.rt Mock.chain Mock.env (Mock.input 10)
           (Mock.healthy 3) (Mock.healthy 3) Mock.sender 10 3);
    [reflexivity | reflexivity | reflexivity | lia].
Defined.

(** C2 at a request for 5 with a balance of 10. *)
Lemma moveToken_completed_witness :
  fst (invoke Mock.rt Mock.chain Mock.env (Mock.input 5) (Mock.healthy 10))
  = Ok (mkToolResponse
          [mkContent (str "text")
             (str "Moved 5 tokens from 0xabc to 0xdef on Arbitrum Sepolia with txHash 0xhash and message ID 0xmessage.")])
  /\ calls (snd (invoke Mock.rt Mock.chain Mock.env (Mock.input 5) (Mock.healthy 10)))
     = [CallRead (mkReadArgs (mkPublicClient (Some (str "https://rpc.example")))
                    (str "0xabc") (str "balanceOf") (str "0xSender"));
        CallApprove (mkApproveArgs
                       (mkWalletClient (Some (str "https://rpc.example"))
                          (mkAccount (str "0xSender")))
                       (Some (str "0xrouter")) (str "0xabc") 5 true);
        CallTransfer (mkTransferArgs
                        (mkWalletClient (Some (str "https://rpc.example"))
                           (mkAccount (str "0xSender")))
                        (Some (str "0xrouter")) (str "0xabc") 5 (str "0xdef")
                        (Some (str "3478487238524512106")))].
Proof.
  edestruct (moveToken_completed Mock.rt Mock.chain Mock.env (Mock.input 5)
               (Mock.healthy 10) (Mock.healthy 10)
               (Mock.mkWorld 10 None None None [5%Z] [])
               (Mock.mkWorld 5 None None None [5%Z] [5%Z])
               Mock.sender 5 10 (mkReceipt (str "0xhash") (str "0xmessage")))
    as [E _];
    [reflexivity | reflexivity | reflexivity | lia | reflexivity | reflexivity |].
  rewrite E. split; reflexivity.
Defined.

(** C3 at the same completed request, and at one whose approval reverts. *)
Lemma send_requires_balance_and_approval_witness :
  (exists account amount balance w1 w2,
      privateKeyToAccount Mock.chain (PRIVATE_KEY Mock.env) = Ok account
      /\ inAmount (Mock.input 5) = Integral amount
      /\ readContract Mock.chain (readArgs Mock.env (Mock.input 5) account)
           (Mock.healthy 10) = (Ok balance, w1)
      /\ (balance <? amount)%Z = false
      /\ approveRouter Mock.chain (approveArgs Mock.env (Mock.input 5) account amount) w1
         = (Ok tt, w2)
      /\ transferArgs Mock.env (Mock.input 5) Mock.sender 5
         = transferArgs Mock.env (Mock.input 5) account amount)
  /\ (forall tr, ~ In (CallTransfer tr)
        (calls (snd (invoke Mock.rt Mock.chain Mock.env (Mock.input 5)
                       (Mock.approvalReverts 10))))).
Proof.
  split.
  - apply (proj1 (send_requires_balance_and_approval Mock.rt Mock.chain Mock.env
                    (Mock.input 5) (Mock.healthy 10))).
    right. right. left. reflexivity.
  - apply (proj2 (send_requires_balance_and_approval Mock.rt Mock.chain Mock.env
                    (Mock.input 5) (Mock.approvalReverts 10))
             Mock.sender 5%Z 10%Z (Mock.approvalReverts 10) (Mock.approvalReverts 10)
             Mock.boom);
      reflexivity.
Defined.

(** C4 as stated fails: when the approval reverts, the handler returns no
    outcome at all, it throws the exception of the router. *)
Lemma failed_outcome_counterexample :
  fst (invoke Mock.rt Mock.chain Mock.env (Mock.input 5) (Mock.approvalReverts 10))
  = Throw Mock.boom
  /\ ~ (exists response : ToolResponse,
          fst (invoke Mock.rt Mock.chain Mock.env (Mock.input 5) (Mock.approvalReverts 10))
          = Ok response).
Proof.
  split; [reflexivity|]. intros [response H]. discriminate H.
Qed.

(** C4 as amended, at a read that fails, an approval that reverts and a
    send that reverts. *)
Lemma provider_exception_is_rethrown_witness :
  invoke Mock.rt Mock.chain Mock.env (Mock.input 5)
    (Mock.mkWorld 10 (Some Mock.boom) None None [] [])
  = (Throw Mock.boom,
     mkState (Mock.mkWorld 10 (Some Mock.boom) None None [] [])
       [CallRead (readArgs Mock.env (Mock.input 5) Mock.sender)])
  /\ invoke Mock.rt Mock.chain Mock.env (Mock.input 5) (Mock.approvalReverts 10)
     = (Throw Mock.boom,
        mkState (Mock.approvalReverts 10)
          [CallRead (readArgs Mock.env (Mock.input 5) Mock.sender);
           CallApprove (approveArgs Mock.env (Mock.input 5) Mock.sender 5)])
  /\ invoke Mock.rt Mock.chain Mock.env (Mock.input 5)
       (Mock.mkWorld 10 None None (Some Mock.boom) [] [])
     = (Throw Mock.boom,
        mkState (Mock.mkWorld 10 None None (Some Mock.boom) [5%Z] [])
          [CallRead (readArgs Mock.env (Mock.input 5) Mock.sender);
           CallApprove (approveArgs Mock.env (Mock.input 5) Mock.sender 5);
           CallTransfer (transferArgs Mock.env (Mock.input 5) Mock.sender 5)]).
Proof.
  split; [|split].
  - apply (proj1 (provider_exception_is_rethrown Mock.rt Mock.chain Mock.env
                    (Mock.input 5) _ Mock.sender 5 Mock.boom eq_refl eq_refl)).
    reflexivity.
  - apply (proj1 (proj2 (provider_exception_is_rethrown Mock.rt Mock.chain Mock.env
                    (Mock.input 5) _ Mock.sender 5 Mock.boom eq_refl eq_refl))
             10%Z (Mock.approvalReverts 10));
      [reflexivity | lia | reflexivity].
  - apply (proj2 (proj2 (provider_exception_is_rethrown Mock.rt Mock.chain Mock.env
                    (Mock.input 5) _ Mock.sender 5 Mock.boom eq_refl eq_refl))
             10%Z (Mock.mkWorld 10 None None (Some Mock.boom) [] [])
             (Mock.mkWorld 10 None None (Some Mock.boom) [5%Z] []));
      [reflexivity | lia | reflexivity | reflexivity].
Defined.

(** C5 at a request for -5 with a balance of 10. *)
Lemma negative_amount_passes_guard_witness :
  fst (invoke Mock.rt Mock.chain Mock.env (Mock.input (-5)) (Mock.healthy 10))
  <> Ok (textResponse (insufficientMessage 10 (-5)))
  /\ calls (snd (invoke Mock.rt Mock.chain Mock.env (Mock.input (-5)) (Mock.healthy 10)))
     = [CallRead (readArgs Mock.env (Mock.input (-5)) Mock.sender);
        CallApprove (approveArgs Mock.env (Mock.input (-5)) Mock.sender (-5));
        CallTransfer (transferArgs Mock.env (Mock.input (-5)) Mock.sender (-5))].
Proof.
  destruct (negative_amount_passes_guard Mock.rt Mock.chain Mock.env (Mock.input (-5))
              (Mock.healthy 10) (Mock.healthy 10) Mock.sender (-5) 10
              eq_refl eq_refl ltac:(lia) ltac:(lia) eq_refl)
    as (_ & Hne & _ & _ & _ & Hcalls).
  split; [exact Hne|].
  exact (Hcalls (Mock.mkWorld 10 None None None [(-5)%Z] []) eq_refl).
Defined.
End Runs.

Section ClientRuns.
Import Config Client.
Import Server (ToolResponse, Content, content, text, mkToolResponse, mkContent).




(** C8 at a turn whose follow-up reply asks for a tool again. *)
Lemma one_dispatch_per_turn_witness :
  let after :=
    snd (turn Mock.rt Mock.emptyEnv Mock.outside (str "move 5 tokens")
           (Mock.fresh (Mock.mkScript
              [Mock.says 1200 exampleLine; Mock.says 900 (str "TOOL: helloWorld")]
              [Mock.returns 60000 (str "Moved"); Mock.returns 10 (str "Hello, world!!")]))) in
  history after
  = [str "SYSTEM: You are an assistant.";
     str "User: move 5 tokens";
     str "Tool result for moveToken: Moved";
     str "Assistant: The token transfer has been completed successfully! The transaction details are shown above."]
  /\ trace after
     = [Completion (join [10] [str "SYSTEM: You are an assistant.";
                               str "User: move 5 tokens"]);
        Dispatch (str "moveToken") (VObj exampleArgs);
        Completion (join [10] [str "SYSTEM: You are an assistant.";
                               str "User: move 5 tokens";
                               str "Tool result for moveToken: Moved"]
                    ++ [10; 10]
                    ++ str "Provide a helpful summary of the result to the user. Do not call any additional tools.")]
  /\ dispatches (trace after) = 1%nat.
Proof.
  intros after.
  edestruct (proj2 (one_dispatch_per_turn Mock.rt Mock.emptyEnv Mock.outside
                      (str "move 5 tokens")
                      (Mock.fresh (Mock.mkScript
                         [Mock.says 1200 exampleLine;
                          Mock.says 900 (str "TOOL: helloWorld")]
                         [Mock.returns 60000 (str "Moved");
                          Mock.returns 10 (str "Hello, world!!")]))))
    as [Htrace Hagain];
    [vm_compute; reflexivity | vm_compute; reflexivity | vm_compute; reflexivity
     | vm_compute; reflexivity |].
  edestruct Hagain as (_ & Hhistory & Hcount);
    [vm_compute; reflexivity | vm_compute; reflexivity |].
  subst after. split; [|split].
  - rewrite Hhistory. vm_compute. reflexivity.
  - rewrite Htrace. vm_compute. reflexivity.
  - exact Hcount.
Defined.

(** C9 at an endpoint and a tool server that never answer. *)
Lemma timeout_messages_witness :
  callLLM Mock.rt Mock.emptyEnv Mock.outside (str "hello")
    (Mock.fresh (Mock.mkScript [] []))
  = (Throw (Error (str "LLM request timed out after 30 seconds")),
     mkState (Mock.mkScript [] []) 100000 [Completion (str "hello")]
       [str "SYSTEM: You are an assistant."])
  /\ callToolWithTimeout Mock.rt Mock.outside (str "moveToken") (VObj exampleArgs)
       defaultToolBudget (Mock.fresh (Mock.mkScript [] []))
     = (Throw (Error (str "Tool 'moveToken' timed out after 300 seconds")),
        mkState (Mock.mkScript [] []) 300000
          [Dispatch (str "moveToken") (VObj exampleArgs)]
          [str "SYSTEM: You are an assistant."]).
Proof.
  destruct (timeout_messages Mock.rt Mock.emptyEnv Mock.outside
              (Mock.fresh (Mock.mkScript [] [])) (str "hello") (str "moveToken")
              (VObj exampleArgs) defaultToolBudget (Mock.mkScript [] []))
    as (Hllm & Htool & _).
  split; [exact (Hllm eq_refl) | exact (Htool eq_refl)].
Defined.


End ClientRuns.

(* ================================================================== *)
(** * Further properties *)
(* ================================================================== *)

(* ================================================================== *)
(** ** The moveToken handler *)
(* ================================================================== *)

Section HandlerMore.
Import Config Server.
Context {W : Type}.
Variable rt : Runtime.
Variable chain : Chain W.

(** X1. When no account can be made of [PRIVATE_KEY], or when the amount
    is a number that is not an integer (the schema lets it through), the
    handler throws before it has made any call: in the second case a
    RangeError, from [BigInt]. *)
Theorem moveToken_fails_before_any_call (env : Env) (input : Input) (w : W) :
  (forall e,
      privateKeyToAccount chain (PRIVATE_KEY env) = Throw e ->
      invoke rt chain env input w = (Throw e, mkState w []))
  /\ (forall account,
      privateKeyToAccount chain (PRIVATE_KEY env) = Ok account ->
      (forall z, inAmount input <> Integral z) ->
      exists msg,
        invoke rt chain env input w
        = (Throw (mkExn (str "RangeError") msg), mkState w [])).
Proof.
  split.
  - intros e Hk. by apply invoke_no_account.
  - intros account Hk Hn.
    unfold invoke, moveToken, bind, lift, BigInt. rewrite Hk.
    destruct (inAmount input) as [z| | |]; [by destruct (Hn z)| | |]; eauto.
Qed.

(** X2. Whatever the chain and the router answer, the calls of one
    invocation are an initial part of: one balance read, one approval, one
    send; the approval and the send carry the same amount, the integer
    value of the amount asked, the same token and the same router. *)
Theorem moveToken_calls_in_order (env : Env) (input : Input) (w : W) :
  let cs := calls (snd (invoke rt chain env input w)) in
  cs = []
  \/ exists account amount,
       privateKeyToAccount chain (PRIVATE_KEY env) = Ok account
       /\ inAmount input = Integral amount
       /\ let rd := readArgs env input account in
          let ap := approveArgs env input account amount in
          let tr := transferArgs env input account amount in
          (cs = [CallRead rd] \/ cs = [CallRead rd; CallApprove ap]
           \/ cs = [CallRead rd; CallApprove ap; CallTransfer tr])
          /\ approveAmount ap = transferAmount tr
          /\ approveTokenAddress ap = transferTokenAddress tr
          /\ approveRouterAddress ap = transferRouterAddress tr.
Proof.
  intros cs. subst cs.
  destruct (invoke_cases rt chain env input w)
    as [(e & _ & ->)|[(account & msg & _ & _ & ->)|(account & amount & Hk & Ha & H)]];
    [by left|by left|].
  right. exists account, amount. split; [exact Hk|]. split; [exact Ha|].
  intros rd ap tr. split; [|repeat split].
  destruct H as [(e & w1 & _ & ->)|[(b & w1 & _ & _ & ->)|[(b & w1 & e & w2 & _ & _ & _ & ->)
    |[(b & w1 & w2 & e & w3 & _ & _ & _ & _ & ->)|(b & w1 & w2 & r & w3 & _ & _ & _ & _ & ->)]]]];
    cbn [snd calls]; auto.
Qed.

(** X3. A response that the handler returns is one of two texts, and
    tells what was done.  Either it reads: the cross mark (U+274C), then
    Insufficient token balance: you have, the digits of the balance, but
    need, the digits of the amount; then the balance read is below the
    amount and the read is the only call made.  Or it reads: Moved, the
    amount, tokens from, the token address, to, the destination account,
    on Arbitrum Sepolia with txHash, the transaction hash, and message ID,
    the message identifier, and a full stop; then the approval and the
    send have both returned, and the hash and the identifier are those
    that the send returned. *)
Theorem moveToken_response_inversion (env : Env) (input : Input) (w : W)
    (response : ToolResponse) (st' : State W) :
  invoke rt chain env input w = (Ok response, st') ->
  exists account amount balance w1,
    privateKeyToAccount chain (PRIVATE_KEY env) = Ok account
    /\ inAmount input = Integral amount
    /\ readContract chain (readArgs env input account) w = (Ok balance, w1)
    /\ ((response
          = mkToolResponse
              [mkContent (str "text")
                 ([10060] ++ str " Insufficient token balance: you have "
                  ++ showZ balance ++ str ", but need " ++ showZ amount)]
         /\ (balance < amount)%Z
         /\ st' = mkState w1 [CallRead (readArgs env input account)])
        \/ (exists w2 receipt w3,
              approveRouter chain (approveArgs env input account amount) w1 = (Ok tt, w2)
              /\ transferTokens chain (transferArgs env input account amount) w2
                 = (Ok receipt, w3)
              /\ (amount <= balance)%Z
              /\ response
                 = mkToolResponse
                     [mkContent (str "text")
                        (str "Moved " ++ numberToString rt (Integral amount)
                         ++ str " tokens from " ++ inTokenAddress input
                         ++ str " to " ++ inDestinationAccount input
                         ++ str " on Arbitrum Sepolia with txHash " ++ txHash receipt
                         ++ str " and message ID " ++ messageId receipt ++ str ".")]
              /\ st' = mkState w3 [CallRead (readArgs env input account);
                                   CallApprove (approveArgs env input account amount);
                                   CallTransfer (transferArgs env input account amount)])).
Proof.
  intros Hrun.
  destruct (invoke_cases rt chain env input w)
    as [(e & _ & E)|[(account & msg & _ & _ & E)|(account & amount & Hk & Ha & H)]];
    [congruence|congruence|].
  cbv zeta in H.
  destruct H as [(e & w1 & _ & E)|[(b & w1 & Hr & Hlt & E)|[(b & w1 & e & w2 & _ & _ & _ & E)
    |[(b & w1 & w2 & e & w3 & _ & _ & _ & _ & E)|(b & w1 & w2 & r & w3 & Hr & Hge & Hap & Htr & E)]]]];
    rewrite E in Hrun; try discriminate Hrun.
  - injection Hrun as <- <-. exists account, amount, b, w1.
    split; [exact Hk|]. split; [exact Ha|]. split; [exact Hr|].
    left. split; [reflexivity|]. split; [exact Hlt|reflexivity].
  - injection Hrun as <- <-. exists account, amount, b, w1.
    split; [exact Hk|]. split; [exact Ha|]. split; [exact Hr|].
    right. exists w2, r, w3.
    split; [exact Hap|]. split; [exact Htr|]. split; [exact Hge|].
    split; [|reflexivity]. unfold textResponse, movedMessage. by rewrite Ha.
Qed.

(** X4. The handler reads four variables of the environment and no
    other: the token and the destination come from the arguments of the
    call, never from [TOKEN_ADDRESS] or [DESTINATION_ACCOUNT], and
    [AMOUNT] plays no part. *)
Theorem moveToken_reads_four_variables (env env' : Env) (input : Input) (w : W) :
  RPC_URL env = RPC_URL env' ->
  PRIVATE_KEY env = PRIVATE_KEY env' ->
  ROUTER_ADDRESS env = ROUTER_ADDRESS env' ->
  DESTINATION_CHAIN_SELECTOR env = DESTINATION_CHAIN_SELECTOR env' ->
  invoke rt chain env input w = invoke rt chain env' input w.
Proof.
  intros H1 H2 H3 H4.
  unfold invoke, moveToken, readArgs, approveArgs, transferArgs.
  by rewrite H1, H2, H3, H4.
Qed.
End HandlerMore.

(* ================================================================== *)
(** ** The configuration *)
(* ================================================================== *)

Section ConfigMore.
Import Config.

(** X5. [validateConfig] looks at four variables and no other: two
    environments that agree on them are judged alike, whatever they hold
    for the token address, the destination account or anything else. *)
Theorem validateConfig_reads_four_variables (env env' : Env) :
  RPC_URL env = RPC_URL env' ->
  PRIVATE_KEY env = PRIVATE_KEY env' ->
  ROUTER_ADDRESS env = ROUTER_ADDRESS env' ->
  DESTINATION_CHAIN_SELECTOR env = DESTINATION_CHAIN_SELECTOR env' ->
  validateConfig (config env) = validateConfig (config env').
Proof.
  intros H1 H2 H3 H4. unfold validateConfig. rewrite !missing_cons.
  cbn [config rpcUrl privateKey routerAddress destinationChainSelector].
  by rewrite H1, H2, H3, H4.
Qed.

(** X6. The amount of the configuration is 1 when [AMOUNT] is absent or
    empty.  When [AMOUNT] is a string of decimal digits it is the binary64
    number nearest to the number written: that number itself up to 2^53,
    beyond that an integer that may differ from it, or Infinity.  The
    port likewise, 3001 by default. *)
Theorem config_numbers (env : Env) :
  (truthyString (AMOUNT env) = false -> amount (config env) = Integral 1)
  /\ (forall ds, AMOUNT env = Some ds -> ds <> [] -> forallb isDigit ds = true ->
      amount (config env) = nearestInteger (digitsValue ds)
      /\ (digitsValue ds <= 9007199254740992 ->
          amount (config env) = Integral (Z.of_N (digitsValue ds)))
      /\ (amount (config env) = Infinity false
          \/ exists z, (0 <= z)%Z /\ amount (config env) = Integral z))
  /\ (truthyString (MCP_SERVER_PORT env) = false ->
      mcpServerPort (config env) = Integral 3001)
  /\ (forall ds, MCP_SERVER_PORT env = Some ds -> ds <> [] -> forallb isDigit ds = true ->
      mcpServerPort (config env) = nearestInteger (digitsValue ds)
      /\ (digitsValue ds <= 9007199254740992 ->
          mcpServerPort (config env) = Integral (Z.of_N (digitsValue ds)))).
Proof.
  split; [|split; [|split]].
  - intros H. cbn [config amount]. by rewrite H.
  - intros ds H Hne Hd.
    assert (E : amount (config env) = nearestInteger (digitsValue ds)).
    { cbn [config amount]. rewrite H.
      destruct ds as [|c ds]; [done|]. cbn [truthyString default].
      by apply parseInt_digits. }
    rewrite E. split; [reflexivity|]. split.
    + apply nearestInteger_safe.
    + apply nearestInteger_shape.
  - intros H. cbn [config mcpServerPort]. by rewrite H.
  - intros ds H Hne Hd.
    assert (E : mcpServerPort (config env) = nearestInteger (digitsValue ds)).
    { cbn [config mcpServerPort]. rewrite H.
      destruct ds as [|c ds]; [done|]. cbn [truthyString default].
      by apply parseInt_digits. }
    rewrite E. split; [reflexivity|]. apply nearestInteger_safe.
Qed.
End ConfigMore.

(* ================================================================== *)
(** ** The sessions behind POST /rpc *)
(* ================================================================== *)

Section RouterFacts.
Import Router.

Lemma rpc_sessions_kept (req : RpcRequest) (st : Routes) (id : jsstring) (s : Session) :
  sessions st !! id = Some s -> sessions (snd (rpc req st)) !! id = Some s.
Proof.
  intros H. unfold rpc, slot.
  destruct (sessions st !! sessionIdOf req) eqn:E; cbn [snd sessions]; [done|].
  case_bool_decide; cbn [snd sessions]; [done|].
  rewrite lookup_insert_ne; [done|]. intros Heq. congruence.
Qed.

Lemma reachable_serve (reqs : list RpcRequest) (st : Routes) :
  Reachable st -> Reachable (serve reqs st).
Proof.
  revert st. induction reqs as [|req reqs IH]; intros st H; [done|].
  cbn [serve fold_left]. apply IH. by constructor.
Qed.

Lemma sessionIdOf_not_empty (req : RpcRequest) : sessionIdOf req <> [].
Proof. unfold sessionIdOf. by destruct (sessionHeader req) as [[|c s]|]. Qed.

Lemma reachable_tidy (st : Routes) : Reachable st -> tidy st.
Proof.
  induction 1 as [|req st Hr (Hs & Hinj & Hd & Ho)].
  { split; [|split; [|split]]; cbn; try done.
    intros t req H. by apply elem_of_nil in H. lia. }
  unfold rpc, slot.
  destruct (sessions st !! sessionIdOf req) as [s0|] eqn:E; cbn [snd].
  { split; [|split; [|split]]; cbn [sessions objects delegated]; try done.
    intros t r [H|H%list_elem_of_singleton]%elem_of_app; [by apply Hd|].
    injection H as -> ->. by exists s0. }
  case_bool_decide as Hp; cbn [snd]; [done|].
  split; [|split; [|split]]; cbn [sessions objects delegated].
  - intros id s. destruct (decide (id = sessionIdOf req)) as [->|Hne].
    + rewrite lookup_insert_eq. intros [= <-]. cbn.
      repeat split; try lia; [apply sessionIdOf_not_empty|done].
    + rewrite lookup_insert_ne by done. intros H.
      destruct (Hs _ _ H) as (? & ? & ? & ? & ? & ? & ?). repeat split; try done. lia.
  - intros id1 id2 s1 s2.
    destruct (decide (id1 = sessionIdOf req)) as [->|Hne1];
      destruct (decide (id2 = sessionIdOf req)) as [->|Hne2]; [done| | |].
    + rewrite lookup_insert_eq, lookup_insert_ne by done. intros [= <-] H2. cbn.
      destruct (Hs _ _ H2) as (_ & _ & _ & ? & ? & _). lia.
    + rewrite lookup_insert_eq, lookup_insert_ne by done. intros H1 [= <-]. cbn.
      destruct (Hs _ _ H1) as (_ & _ & _ & ? & ? & _). lia.
    + rewrite !lookup_insert_ne by done. apply Hinj.
  - intros t r [H|H%list_elem_of_singleton]%elem_of_app.
    + destruct (Hd _ _ H) as (s & Hs1 & Hs2). exists s. split; [|done].
      rewrite lookup_insert_ne; [done|]. intros Heq. congruence.
    + injection H as -> ->. eexists. rewrite lookup_insert_eq. split; reflexivity.
  - lia.
Qed.

(** X7. A session, once created, is kept for good: no request removes
    it or replaces its server or its transport, however many requests
    follow. *)
Theorem sessions_are_never_dropped (reqs : list RpcRequest) (st : Routes)
    (id : jsstring) (s : Session) :
  sessions st !! id = Some s -> sessions (serve reqs st) !! id = Some s.
Proof.
  revert st. induction reqs as [|req reqs IH]; intros st H; [done|].
  cbn [serve fold_left]. apply IH. by apply rpc_sessions_kept.
Qed.

(** X8. In every state the server can reach, two session identifiers
    never share a server or a transport; every session has a server of
    its own, which is not the one created at startup (that one is number
    0, and is never connected), with the three tools registered on it;
    and the transport was told the identifier under which it is stored. *)
Theorem sessions_do_not_share (st : Routes) (id1 id2 : jsstring) (s1 s2 : Session) :
  Reachable st ->
  sessions st !! id1 = Some s1 ->
  sessions st !! id2 = Some s2 ->
  (id1 <> id2 ->
     sessionServer s1 <> sessionServer s2
     /\ sessionTransport s1 <> sessionTransport s2)
  /\ sessionServer s1 <> 0%nat
  /\ sessionTools s1 = registeredTools
  /\ sessionName s1 = id1.
Proof.
  intros Hr H1 H2. destruct (reachable_tidy _ Hr) as (Hs & Hinj & _ & _).
  destruct (Hs _ _ H1) as (? & ? & ? & ? & _), (Hs _ _ H2) as (_ & _ & _ & ? & _).
  split; [|repeat split; try done; lia].
  intros Hne. split; intros Heq; apply Hne, (Hinj _ _ _ _ H1 H2); lia.
Qed.

(** X9. In every state the server can reach, two requests have been
    handed to the same transport exactly when they carry the same session
    identifier, a request without the header, or with an empty one,
    counting as default. *)
Theorem delegation_follows_session_id (st : Routes) (t1 t2 : nat)
    (req1 req2 : RpcRequest) :
  Reachable st ->
  (t1, req1) ∈ delegated st ->
  (t2, req2) ∈ delegated st ->
  t1 = t2 <-> sessionIdOf req1 = sessionIdOf req2.
Proof.
  intros Hr H1 H2. destruct (reachable_tidy _ Hr) as (Hs & Hinj & Hd & _).
  destruct (Hd _ _ H1) as (s1 & L1 & <-), (Hd _ _ H2) as (s2 & L2 & <-).
  destruct (Hs _ _ L1) as (_ & _ & _ & ? & _), (Hs _ _ L2) as (_ & _ & _ & ? & _).
  split.
  - intros Heq. apply (Hinj _ _ _ _ L1 L2). lia.
  - intros Heq. rewrite Heq in L1. congruence.
Qed.

(** X10. A request whose session identifier is the name of a member of
    Object.prototype (constructor, toString, __proto__, ...) is never
    served: the lookup finds the inherited member, no session is created,
    nothing is delegated, and the handler throws a TypeError. *)
Theorem inherited_name_is_not_a_session (st : Routes) (req : RpcRequest) :
  Reachable st ->
  sessionIdOf req ∈ objectPrototypeNames ->
  rpc req st
  = (Throw (mkExn (str "TypeError")
              (str "Cannot read properties of undefined (reading 'handleRequest')")),
     st).
Proof.
  intros Hr Hp. destruct (reachable_tidy _ Hr) as (Hs & _).
  unfold rpc, slot.
  destruct (sessions st !! sessionIdOf req) as [s|] eqn:E.
  - by destruct (Hs _ _ E) as (_ & _ & _ & _ & _ & _ & Hn).
  - by rewrite bool_decide_eq_true_2.
Qed.

Lemma serve_sessions (reqs : list RpcRequest) (st : Routes) (id : jsstring) :
  is_Some (sessions (serve reqs st) !! id)
  <-> is_Some (sessions st !! id)
      \/ (id ∈ map sessionIdOf reqs /\ id ∉ objectPrototypeNames).
Proof.
  revert st. induction reqs as [|req reqs IH]; intros st.
  { cbn. split; [by left|]. intros [H|[H _]]; [done|]. by apply elem_of_nil in H. }
  cbn [serve fold_left map]. fold (serve reqs (snd (rpc req st))). rewrite IH.
  rewrite elem_of_cons. unfold rpc, slot.
  destruct (sessions st !! sessionIdOf req) as [s0|] eqn:E; cbn [snd sessions].
  { split; [tauto|]. intros [H|[[->|H] Hn]]; [tauto| |tauto].
    left. by rewrite E. }
  case_bool_decide as Hp; cbn [snd sessions].
  { split; [tauto|]. intros [H|[[->|H] Hn]]; [tauto|done|tauto]. }
  destruct (decide (id = sessionIdOf req)) as [->|Hne].
  - rewrite lookup_insert_eq. split; [|by left]. intros _. right. tauto.
  - rewrite lookup_insert_ne by done. tauto.
Qed.

Lemma serve_objects (reqs : list RpcRequest) (st : Routes) :
  objects st = (1 + 2 * size (sessions st))%nat ->
  objects (serve reqs st) = (1 + 2 * size (sessions (serve reqs st)))%nat.
Proof.
  revert st. induction reqs as [|req reqs IH]; intros st H; [done|].
  cbn [serve fold_left]. apply IH. unfold rpc, slot.
  destruct (sessions st !! sessionIdOf req) as [s0|] eqn:E; cbn [snd sessions objects];
    [done|].
  case_bool_decide; cbn [snd sessions objects]; [done|].
  rewrite map_size_insert_None by done. lia.
Qed.

Lemma receive_serve (json : RpcRequest -> bool) (reqs : list RpcRequest)
    (st : Routes) :
  receive json reqs st = serve (List.filter json reqs) st.
Proof.
  revert st. induction reqs as [|req reqs IH]; intros st; [done|].
  change (receive json (req :: reqs) st)
    with (receive json reqs (snd (post json req st))).
  rewrite IH. cbn [List.filter]. unfold post.
  destruct (json req); reflexivity.
Qed.

(** X11. After the server has received any list of requests, the
    sessions that exist are those of the identifiers of the requests that
    the JSON middleware handed to the route, the names inherited from
    Object.prototype apart; a request that the middleware answered itself
    has created nothing.  The server has created one server and one
    transport for each session, beside the server of startup: nothing is
    ever created twice for an identifier, and nothing is ever freed. *)
Theorem sessions_after_requests (json : RpcRequest -> bool)
    (reqs : list RpcRequest) (id : jsstring) :
  let st := receive json reqs started in
  (is_Some (sessions st !! id)
   <-> id ∈ map sessionIdOf (List.filter json reqs) /\ id ∉ objectPrototypeNames)
  /\ objects st = (1 + 2 * size (sessions st))%nat
  /\ (length (delegated st) <= length (List.filter json reqs))%nat.
Proof.
  intros st. subst st. rewrite receive_serve.
  generalize (List.filter json reqs). clear reqs. intros reqs.
  split; [|split].
  - rewrite serve_sessions. cbn [started sessions]. rewrite lookup_empty.
    split; [|tauto]. intros [[? H]|H]; [done|tauto].
  - by apply serve_objects.
  - assert (H : forall st, (length (delegated (serve reqs st))
                            <= length (delegated st) + length reqs)%nat).
    { induction reqs as [|req reqs IH]; intros st; [cbn; lia|].
      cbn [serve fold_left length]. fold (serve reqs (snd (rpc req st))).
      etransitivity; [apply IH|]. unfold rpc.
      destruct (slot _ _); cbn [snd delegated]; rewrite ?length_app; cbn; lia. }
    apply (H started).
Qed.
End RouterFacts.
(* ================================================================== *)
(** ** The progress indicator *)
(* ================================================================== *)


Section ProgressFacts.
Import Config Client Progress.
Import Server (ToolResponse).

Lemma fire_iter (n : nat) (h i : nat) (t : Terminal) :
  intervals t !! h = Some i -> (i < length spinner)%nat ->
  Nat.iter n (fire h) t
  = mkTerminal
      (written t ++ map (fun k => Stdout (frameText ((i + k) mod length spinner))) (List.seq 0%nat n))
      (<[h := ((i + n) mod length spinner)%nat]> (intervals t)) (nextInterval t).
Proof.
  intros Hi Hlt. induction n as [|n IH].
  - change (Nat.iter 0 (fire h) t) with t. cbn [List.seq map]. rewrite app_nil_r, Nat.add_0_r, Nat.mod_small by done.
    rewrite insert_id by done. by destruct t.
  - change (Nat.iter (S n) (fire h) t) with (fire h (Nat.iter n (fire h) t)).
    rewrite IH. unfold fire. cbn [intervals written nextInterval].
    rewrite lookup_insert_eq, insert_insert_eq. f_equal.
    + rewrite seq_S, map_app, <- app_assoc. reflexivity.
    + f_equal. change (length spinner) with 10%nat.
      rewrite Nat.Div0.add_mod_idemp_l. f_equal. lia.
Qed.

(** X12. The indicator cycles through its ten glyphs: after the message
    and [n] firings, the terminal has received the message and [n]
    frames, the k-th showing glyph number [k mod 10]; the index never
    leaves the table, so no frame ever shows the text undefined. *)
Theorem spinner_cycles (message : jsstring) (t : Terminal) (n : nat) :
  let h := fst (showProgress message t) in
  let t2 := Nat.iter n (fire h) (snd (showProgress message t)) in
  written t2 = written t ++ Stdout (message ++ [10]) :: frames n
  /\ intervals t2 !! h = Some (n mod 10)%nat
  /\ forall k, (k < n)%nat ->
       exists glyph, spinner !! (k mod 10)%nat = Some glyph
         /\ frames n !! k = Some (Stdout (13 :: glyph :: str " Processing...")).
Proof.
  intros h t2. subst h t2. unfold showProgress. cbn [fst snd].
  rewrite (fire_iter n _ 0%nat); cbn [intervals written nextInterval consoleLog];
    [|by rewrite lookup_insert_eq|cbn; lia].
  split; [by rewrite <- app_assoc|]. split; [by rewrite lookup_insert_eq|].
  intros k Hk.
  assert (Hm : (k mod 10 < length spinner)%nat)
    by (apply Nat.mod_upper_bound; discriminate).
  destruct (lookup_lt_is_Some_2 spinner _ Hm) as [g Hg].
  exists g. split; [exact Hg|].
  unfold frames. rewrite list_lookup_fmap, lookup_seq_lt by done.
  change (0 + k)%nat with k. cbn [fmap option_fmap option_map].
  unfold frameText, spinnerText. change (length spinner) with 10%nat. by rewrite Hg.
Qed.

(** X13. Once stopped, the indicator is silent: after the message, [n]
    frames and the stop, the terminal has received the completion mark
    and the interval is no longer armed; any further firing writes
    nothing; and the other intervals are as they were. *)
Theorem stopped_indicator_is_silent (message : jsstring) (t : Terminal) (n m : nat) :
  let h := fst (showProgress message t) in
  let t3 := stopProgress h (Nat.iter n (fire h) (snd (showProgress message t))) in
  written t3 = written t ++ Stdout (message ++ [10]) :: frames n ++ [Stdout completeText]
  /\ intervals t3 !! h = None
  /\ Nat.iter m (fire h) t3 = t3
  /\ forall h', h' <> h -> intervals t3 !! h' = intervals t !! h'.
Proof.
  intros h t3. subst h t3. unfold showProgress. cbn [fst snd].
  rewrite (fire_iter n _ 0%nat); cbn [intervals written nextInterval consoleLog];
    [|by rewrite lookup_insert_eq|cbn; lia].
  unfold stopProgress. cbn [intervals written nextInterval].
  split; [by rewrite <- !app_assoc|]. split; [by rewrite lookup_delete_eq|].
  split.
  - induction m as [|m IH]; [done|].
    change (Nat.iter (S m) ?f ?x) with (f (Nat.iter m f x)). rewrite IH.
    unfold fire. cbn [intervals]. by rewrite lookup_delete_eq.
  - intros h' Hne. by rewrite lookup_delete_ne, !lookup_insert_ne.
Qed.

Context {W : Type}.
Variable rt : Runtime.
Variable out : Outside W.

(** X14. The indicator is stopped only when the tool call returns.
    When the call returns, the completion mark is written and the
    interval disarmed.  When the call throws or times out, the error is
    written, the stop function is never called, and the interval stays
    armed: its next firing writes one more frame. *)
Theorem indicator_stops_only_on_success (toolName : jsstring) (args : JsValue)
    (fired : nat) (st : State W) (t : Terminal) :
  let h := nextInterval t in
  let shown := written t ++ Stdout (progressMessage toolName ++ [10]) :: frames fired in
  match dispatch rt out toolName args fired st t with
  | (Some toolResult, st', t') =>
      callToolWithTimeout rt out toolName args defaultToolBudget st = (Ok toolResult, st')
      /\ written t' = shown ++ [Stdout completeText]
      /\ intervals t' !! h = None
  | (None, st', t') =>
      exists err,
        callToolWithTimeout rt out toolName args defaultToolBudget st = (Throw err, st')
        /\ written t'
           = shown ++ Stderr (str "Tool invocation error: " ++ emessage err ++ [10])
               :: (if includes (str "timed out") (emessage err)
                   then [Stdout (tip ++ [10])] else [])
        /\ intervals t' !! h = Some (fired mod 10)%nat
        /\ written (fire h t')
           = written t' ++ [Stdout (frameText (fired mod 10))]
  end.
Proof.
  intros h shown. subst h shown. unfold dispatch, showProgress.
  destruct (callToolWithTimeout rt out toolName args defaultToolBudget st)
    as [[toolResult|err] st'].
  - rewrite (fire_iter fired _ 0%nat); cbn [intervals written nextInterval consoleLog];
      [|by rewrite lookup_insert_eq|cbn; lia].
    unfold stopProgress. cbn [intervals written].
    split; [done|]. split; [by rewrite <- !app_assoc|]. by rewrite lookup_delete_eq.
  - rewrite (fire_iter fired _ 0%nat); cbn [intervals written nextInterval consoleLog];
      [|by rewrite lookup_insert_eq|cbn; lia].
    exists err. split; [done|].
    unfold fire, consoleError.
    destruct (includes (str "timed out") (emessage err));
      cbn [intervals written consoleLog]; rewrite !lookup_insert_eq;
      cbn [written]; rewrite <- !app_assoc; repeat split; reflexivity.
Qed.

(** X15. A tool call that does not settle within the budget of 300000
    milliseconds ends the [try] block after exactly that time, with the
    time-out error on the error stream followed by the tip about
    cross-chain operations, for whatever tool was called. *)
Theorem timeout_prints_the_tip (toolName : jsstring) (args : JsValue)
    (fired : nat) (st : State W) (t : Terminal) :
  (forall d o, fst (callTool out toolName args (world st)) = Settles d o ->
               defaultToolBudget <= d) ->
  exists st' t',
    dispatch rt out toolName args fired st t = (None, st', t')
    /\ clock st' = clock st + 300000
    /\ written t'
       = written t ++ Stdout (progressMessage toolName ++ [10]) :: frames fired
         ++ [Stderr (str "Tool invocation error: "
                     ++ toolTimeoutMessage rt toolName defaultToolBudget ++ [10]);
             Stdout (tip ++ [10])].
Proof.
  intros Hlate.
  assert (Hinc : includes (str "timed out")
                   (toolTimeoutMessage rt toolName defaultToolBudget) = true).
  { unfold toolTimeoutMessage.
    change (str "' timed out after ") with (str "' " ++ str "timed out" ++ str " after ").
    rewrite <- !app_assoc, (app_assoc (str "Tool '")), (app_assoc (_ ++ toolName)).
    apply includes_app. }
  unfold dispatch, showProgress, callToolWithTimeout.
  destruct (callTool out toolName args (world st)) as [[d o|] w'] eqn:E; cbn [fst] in Hlate.
  - specialize (Hlate d o eq_refl).
    destruct (d <? defaultToolBudget) eqn:Hd; [lia|].
    rewrite (fire_iter fired _ 0%nat); cbn [intervals written nextInterval consoleLog];
      [|by rewrite lookup_insert_eq|cbn; lia].
    cbn [emessage Error]. rewrite Hinc. eexists _, _. split; [reflexivity|].
    split; [reflexivity|]. cbn [written consoleLog consoleError].
    by rewrite <- !app_assoc.
  - rewrite (fire_iter fired _ 0%nat); cbn [intervals written nextInterval consoleLog];
      [|by rewrite lookup_insert_eq|cbn; lia].
    cbn [emessage Error]. rewrite Hinc. eexists _, _. split; [reflexivity|].
    split; [reflexivity|]. cbn [written consoleLog consoleError].
    by rewrite <- !app_assoc.
Qed.
End ProgressFacts.
(* ================================================================== *)
(** ** More on the conversational driver *)
(* ================================================================== *)

Section DriverMore.
Import Config Client Transcript.
Import Server (ToolResponse, Content, content, text, mkToolResponse, mkContent).
Context {W : Type}.
Variable rt : Runtime.
Variable env : Env.
Variable out : Outside W.

(** The six ways a turn can go. *)
Lemma turn_cases (answer : jsstring) (st : State W) :
  let st0 := asked answer st in
  (isExit (trim answer) = true /\ turn rt env out answer st = (Ok Break, st))
  \/ (isExit (trim answer) = false
      /\ ((exists e st1,
             callLLM rt env out (conversationOf st0) st0 = (Throw e, st1)
             /\ turn rt env out answer st = (Ok Break, st1))
          \/ (exists llmReply st1,
                callLLM rt env out (conversationOf st0) st0 = (Ok llmReply, st1)
                /\ ((startsWith marker llmReply = false
                     /\ turn rt env out answer st
                        = (Ok Continue, pushed (str "Assistant: " ++ llmReply) st1))
                    \/ (startsWith marker llmReply = true
                        /\ ((exists e st2,
                               callToolWithTimeout rt out (commandName llmReply)
                                 (commandArgs llmReply) defaultToolBudget st1
                               = (Throw e, st2)
                               /\ turn rt env out answer st = (Ok Break, st2))
                            \/ (exists toolResult st2,
                                  callToolWithTimeout rt out (commandName llmReply)
                                    (commandArgs llmReply) defaultToolBudget st1
                                  = (Ok toolResult, st2)
                                  /\ let st2' := answered llmReply toolResult st2 in
                                     ((exists e st3,
                                         callLLM rt env out (followUpPromptOf st2') st2'
                                         = (Throw e, st3)
                                         /\ turn rt env out answer st = (Ok Break, st3))
                                      \/ (exists followUp st3,
                                            callLLM rt env out (followUpPromptOf st2') st2'
                                            = (Ok followUp, st3)
                                            /\ turn rt env out answer st
                                               = (Ok Continue,
                                                  pushed (if startsWith marker followUp
                                                          then cannedCompletion
                                                          else str "Assistant: " ++ followUp)
                                                    st3)))))))))).
Proof.
  intros st0. subst st0.
  destruct (isExit (trim answer)) eqn:Hstay.
  { left. split; [done|]. by apply turn_exit. }
  right. split; [done|].
  destruct (callLLM rt env out (conversationOf (asked answer st)) (asked answer st))
    as [[llmReply|e] st1] eqn:Hreply.
  2:{ left. exists e, st1. split; [done|].
      exact (turn_completion_fails rt env out answer st Hstay st1 e Hreply). }
  right. exists llmReply, st1. split; [done|].
  destruct (startsWith marker llmReply) eqn:Hmarker.
  2:{ left. split; [done|].
      exact (turn_plain_reply rt env out answer st Hstay llmReply st1 Hreply Hmarker). }
  right. split; [done|].
  destruct (callToolWithTimeout rt out (commandName llmReply) (commandArgs llmReply)
              defaultToolBudget st1) as [[toolResult|e] st2] eqn:Htool.
  2:{ left. exists e, st2. split; [done|].
      exact (turn_tool_fails rt env out answer st Hstay llmReply st1 Hreply Hmarker
               st2 e Htool). }
  right. exists toolResult, st2. split; [done|]. intros st2'. subst st2'.
  destruct (callLLM rt env out (followUpPromptOf (answered llmReply toolResult st2))
              (answered llmReply toolResult st2)) as [[followUp|e] st3] eqn:Hfollow.
  - right. exists followUp, st3. split; [done|].
    exact (turn_followup rt env out answer st Hstay llmReply st1 Hreply Hmarker
             toolResult st2 Htool followUp st3 Hfollow).
  - left. exists e, st3. split; [done|].
    exact (turn_followup_fails rt env out answer st Hstay llmReply st1 Hreply Hmarker
             toolResult st2 Htool st3 e Hfollow).
Qed.

(** What a turn does to the state: it adds at most three lines to the
    transcript and sends at most three requests, in the order completion,
    tool call, completion; no exception leaves it. *)
Lemma turn_effect (answer : jsstring) (st : State W) :
  exists (l : Loop) (st' : State W) (lines : list jsstring) (events : list Event),
    turn rt env out answer st = (Ok l, st')
    /\ history st' = history st ++ lines
    /\ trace st' = trace st ++ events
    /\ (length lines <= 3)%nat
    /\ Forall turnLine lines
    /\ (exists p n a p',
          events = [] \/ events = [Completion p] \/ events = [Completion p; Dispatch n a]
          \/ events = [Completion p; Dispatch n a; Completion p']).
Proof.
  destruct (turn_cases answer st) as [[_ ->]|[_ H]].
  { exists Break, st, [], []. rewrite !app_nil_r. repeat split; try done.
    - cbn; lia.
    - exists [], [], VNull, []. by left. }
  assert (Hu : turnLine (str "User: " ++ trim answer)) by (left; by eexists).
  destruct H as [(e & st1 & H1 & ->)|(llmReply & st1 & H1 & H)].
  { destruct (callLLM_frame _ _ _ _ _ _ _ H1) as [Ht Hh].
    cbn [asked pushed trace history] in Ht, Hh.
    eexists Break, st1, [_], [_]. split; [done|]. split; [exact Hh|]. split; [exact Ht|].
    split; [cbn; lia|].
    split; [repeat (apply Forall_cons_2; [assumption|]); apply Forall_nil_2|].
    exists (conversationOf (asked answer st)), [], VNull, []; tauto. }
  destruct (callLLM_frame _ _ _ _ _ _ _ H1) as [Ht1 Hh1].
  cbn [asked pushed clock trace history] in Ht1, Hh1.
  destruct H as [[Hm ->]|[Hm H]].
  { eexists Continue, (pushed (str "Assistant: " ++ llmReply) st1), [_; _], [_].
    split; [done|]. cbn [pushed history trace clock].
    split; [by rewrite Hh1, <- app_assoc|]. split; [exact Ht1|].
    split; [cbn; lia|]. split.
    { apply Forall_cons_2; [exact Hu|]. apply Forall_cons_2; [|apply Forall_nil_2].
      right; right; right. by exists llmReply. }
    exists (conversationOf (asked answer st)), [], VNull, []; tauto. }
  destruct H as [(e & st2 & H2 & ->)|(toolResult & st2 & H2 & H)].
  { destruct (callTool_frame _ _ _ _ _ _ _ _ H2) as [Ht2 Hh2].
    eexists Break, st2, [_], [_; _]. split; [done|].
    split; [by rewrite Hh2, Hh1|]. split; [by rewrite Ht2, Ht1, <- app_assoc|].
    split; [cbn; lia|].
    split; [repeat (apply Forall_cons_2; [assumption|]); apply Forall_nil_2|].
    eexists _, _, _, []; right; right; left; reflexivity. }
  destruct (callTool_frame _ _ _ _ _ _ _ _ H2) as [Ht2 Hh2].
  cbv zeta in H.
  assert (Hr : turnLine (str "Tool result for " ++ commandName llmReply ++ str ": "
                         ++ toolOutput toolResult)).
  { right; left. by eexists _, _. }
  destruct H as [(e & st3 & H3 & ->)|(followUp & st3 & H3 & ->)];
    destruct (callLLM_frame _ _ _ _ _ _ _ H3) as [Ht3 Hh3];
    cbn [answered pushed clock trace history] in Ht3, Hh3.
  - eexists Break, st3, [_; _], [_; _; _]. split; [done|].
    split; [by rewrite Hh3, Hh2, Hh1, <- !app_assoc|].
    split; [by rewrite Ht3, Ht2, Ht1, <- !app_assoc|].
    split; [cbn; lia|].
    split; [repeat (apply Forall_cons_2; [assumption|]); apply Forall_nil_2|].
    eexists _, _, _, _; right; right; right; reflexivity.
  - eexists Continue, _, [_; _; _], [_; _; _]. split; [done|].
    cbn [pushed history trace clock].
    split; [by rewrite Hh3, Hh2, Hh1, <- !app_assoc|].
    split; [by rewrite Ht3, Ht2, Ht1, <- !app_assoc|].
    split; [cbn; lia|]. split.
    { apply Forall_cons_2; [exact Hu|]. apply Forall_cons_2; [exact Hr|].
      apply Forall_cons_2; [|apply Forall_nil_2].
      destruct (startsWith marker followUp) eqn:Hf.
      - right; right; by left.
      - right; right; right. by exists followUp. }
    eexists _, _, _, _; right; right; right; reflexivity.
Qed.
End DriverMore.
Section ChatFacts.
Import Config Client Transcript.
Import Server (ToolResponse, Content, content, text, mkToolResponse, mkContent).
Context {W : Type}.
Variable rt : Runtime.
Variable env : Env.
Variable out : Outside W.

Lemma prompted_weaken (t : list Event) :
  prompted false t = true -> prompted true t = true.
Proof. destruct t as [|[p|n a] t]; cbn; [done|done|]. intros H. done. Qed.

Lemma chat_cons (answer : jsstring) (answers : list jsstring) (st : State W) :
  chat rt env out (answer :: answers) st
  = match turn rt env out answer st with
    | (Ok Continue, st') => chat rt env out answers st'
    | (Ok Break, st') => (Ok tt, st')
    | (Throw e, st') => (Throw e, st')
    end.
Proof.
  cbn [chat]. unfold bind.
  by destruct (turn rt env out answer st) as [[[]|e] st'].
Qed.

(** What a conversation does to the state. *)
Lemma chat_effect (answers : list jsstring) :
  forall st : State W,
  exists (st' : State W) (lines : list jsstring) (events : list Event),
    chat rt env out answers st = (Ok tt, st')
    /\ history st' = history st ++ lines
    /\ trace st' = trace st ++ events
    /\ (length lines <= 3 * length answers)%nat
    /\ Forall turnLine lines
    /\ (length events <= 3 * length answers)%nat
    /\ (dispatches events <= length answers)%nat
    /\ prompted false events = true.
Proof.
  induction answers as [|answer answers IH]; intros st.
  { exists st, [], []. rewrite !app_nil_r. cbn. repeat split; try done; lia. }
  rewrite chat_cons.
  destruct (turn_effect rt env out answer st)
    as (l & st1 & lines & events & -> & Hh & Ht & Hl & Hf & (p & n & a & p' & He)).
  assert (Hev : (length events <= 3)%nat /\ (dispatches events <= 1)%nat
                /\ forall more, prompted false more = true ->
                     prompted false (events ++ more) = true).
  { destruct He as [ -> | [ -> | [ -> | -> ]]];
      (split; [cbn; lia|]); (split; [cbn; lia|]); intros more Hm; cbn;
      try done; by apply prompted_weaken. }
  destruct Hev as (Hel & Hed & Hep).
  destruct l.
  - destruct (IH st1)
      as (st' & lines' & events' & -> & Hh' & Ht' & Hl' & Hf' & Hel' & Hed' & Hp').
    exists st', (lines ++ lines'), (events ++ events'). split; [done|].
    split; [by rewrite Hh', Hh, <- app_assoc|].
    split; [by rewrite Ht', Ht, <- app_assoc|].
    rewrite dispatches_app, !length_app. cbn [length].
    split; [lia|]. split; [by apply Forall_app|]. split; [lia|]. split; [lia|].
    by apply Hep.
  - exists st1, lines, events. split; [done|]. split; [done|]. split; [done|].
    cbn [length]. split; [lia|]. split; [done|]. split; [lia|]. split; [lia|].
    rewrite <- (app_nil_r events). by apply Hep.
Qed.

(** X16. No exception leaves the loop: a failure of the model endpoint or
    of the tool server (an error status, a body that cannot be read or
    parsed, a time-out, an exception of the tool) is caught inside the
    turn in which it happens. *)
Theorem chat_never_throws (answers : list jsstring) (st : State W) :
  forall e st', chat rt env out answers st <> (Throw e, st').
Proof.
  intros e st'. destruct (chat_effect answers st) as (st1 & ? & ? & -> & _).
  discriminate.
Qed.

(** X17. A conversation only ever appends to the transcript, at most
    three entries for each line typed, and it sends at most three
    requests for each line typed, at most one of them a tool call. *)
Theorem chat_is_bounded (answers : list jsstring) (st : State W) :
  let st' := snd (chat rt env out answers st) in
  exists lines events,
    history st' = history st ++ lines
    /\ trace st' = trace st ++ events
    /\ (length lines <= 3 * length answers)%nat
    /\ (length events <= 3 * length answers)%nat
    /\ (dispatches events <= length answers)%nat.
Proof.
  destruct (chat_effect answers st)
    as (st' & lines & events & -> & Hh & Ht & Hl & _ & Hel & Hed & _).
  exists lines, events. cbn [snd]. tauto.
Qed.

(** X18. Every tool call of a conversation comes immediately after a
    completion request: the client never sends two tool calls in a row,
    and never starts with one. *)
Theorem tool_calls_follow_completions (answers : list jsstring) (st : State W) :
  exists events,
    trace (snd (chat rt env out answers st)) = trace st ++ events
    /\ prompted false events = true.
Proof.
  destruct (chat_effect answers st)
    as (st' & lines & events & -> & _ & Ht & _ & _ & _ & _ & Hp).
  by exists events.
Qed.

Lemma turnLine_not_command (line : jsstring) :
  turnLine line -> startsWith (str "Assistant: TOOL:") line = false.
Proof.
  intros [(x & ->)|[(n & x & ->)|[->|(x & Hx & ->)]]]; try reflexivity.
  change (str "Assistant: TOOL:") with (str "Assistant: " ++ marker).
  revert Hx. generalize marker. intros m Hx.
  change (str "Assistant: ") with [65; 115; 115; 105; 115; 116; 97; 110; 116; 58; 32].
  cbn [app startsWith N.eqb Pos.eqb andb]. exact Hx.
Qed.

(** X19. The commands of the model are never pushed on the history.
    Every entry that a conversation pushes is the line of the user, the
    result of a tool, the canned message that stands for a follow-up
    which starts with the marker, or the word Assistant, a colon, a space
    and a reply that does not start with the marker; so no entry pushed
    starts with the word Assistant followed by the marker.  An entry is a
    whole reply: nothing is said of the lines after the first one of a
    reply of several lines. *)
Theorem commands_stay_out_of_transcript (answers : list jsstring) (st : State W) :
  exists entries,
    history (snd (chat rt env out answers st)) = history st ++ entries
    /\ Forall (fun entry =>
          (exists x, entry = str "User: " ++ x)
          \/ (exists name x, entry = str "Tool result for " ++ name ++ str ": " ++ x)
          \/ entry = str "Assistant: The token transfer has been completed successfully! The transaction details are shown above."
          \/ (exists x, startsWith (str "TOOL:") x = false
                        /\ entry = str "Assistant: " ++ x)) entries
    /\ Forall (fun entry => startsWith (str "Assistant: TOOL:") entry = false) entries.
Proof.
  destruct (chat_effect answers st)
    as (st' & lines & events & -> & Hh & _ & _ & Hf & _).
  cbn [snd]. exists lines. split; [exact Hh|]. split.
  - eapply Forall_impl; [exact Hf|]. intros line H. exact H.
  - eapply Forall_impl; [exact Hf|]. apply turnLine_not_command.
Qed.

(** X20. The line exit, in any letter case and with any white space
    around it, ends the conversation at once: what was typed after it is
    never read, and the line itself leaves no trace. *)
Theorem exit_ends_the_conversation (before after : list jsstring) (answer : jsstring)
    (st : State W) :
  isExit (trim answer) = true ->
  chat rt env out (before ++ answer :: after) st = chat rt env out before st.
Proof.
  intros Hx. revert st. induction before as [|b before IH]; intros st.
  - cbn [app]. rewrite chat_cons, turn_exit by done. reflexivity.
  - cbn [app]. rewrite !chat_cons.
    destruct (turn rt env out b st) as [[[]|e] st']; [apply IH|done|done].
Qed.

Ltac no_reply :=
  cbn; try discriminate;
  repeat (match goal with |- context [if ?b then _ else _] => destruct b end);
  discriminate.

(** X21. [callLLM] returns a text only when the headers of the answer
    came before the timer of 100000 milliseconds, with a success status,
    and the body, once read, is a JSON object whose member response is a
    string: that string is what is returned.  The time spent is the time
    to the headers plus the time to read the body, on which there is no
    bound. *)
Theorem callLLM_returns_only_a_response (conversation : jsstring) (st st' : State W)
    (reply : jsstring) :
  callLLM rt env out conversation st = (Ok reply, st') ->
  exists req d res text json,
    prompt req = conversation
    /\ endpoint req = default (str "http://localhost:11434/api/generate") (LLAMA_API_URL env)
    /\ fetch out req (world st) = (Settles d (Ok res), world st')
    /\ d < 100000
    /\ ok res = true
    /\ body res = Ok text
    /\ Json.parse text = Some (VObj json)
    /\ json !! str "response" = Some (VStr reply)
    /\ clock st' = clock st + d + bodyAfter res.
Proof.
  unfold callLLM, catch, bind, awaitFetch, readBody, throw, lift. cbn [prompt].
  match goal with |- context [fetch out ?r _] => set (req := r) end.
  destruct (fetch out req (world st)) as [[d [res|e]|] w'] eqn:Hf.
  - destruct (d <? llmBudget) eqn:Hd.
    + destruct (ok res) eqn:Hok; cbn [negb]; destruct (body res) as [text|e] eqn:Hb;
        try no_reply.
      unfold responseText.
      destruct (Json.parse text) as [[| | | | |json]|] eqn:Hp; cbv beta iota;
        try no_reply.
      destruct (json !! str "response") as [[| | |r| |]|] eqn:Hr; cbv beta iota;
        try no_reply.
      intros [= <- <-]. exists req, d, res, text, json. cbn.
      repeat split; try done. unfold llmBudget in Hd. lia.
    + no_reply.
  - destruct (d <? llmBudget); no_reply.
  - no_reply.
Qed.
End ChatFacts.
(* ================================================================== *)
(** ** More on reading a tool command *)
(* ================================================================== *)

Ltac step_unit H :=
  match type of H with
  | context [match ?s with [] => _ | _ :: _ => _ end] =>
      let c := fresh "c" in let s' := fresh "s" in
      destruct s as [|c s'] eqn:?; [discriminate H|];
      match type of H with
      | context [if ?b then _ else _] =>
          destruct b eqn:?; [|discriminate H]
      end
  end.

Section ExtractionKeys.
Import Client.
Context {A : Type}.

Lemma kvQuoted_key (st : MState) (k : MState -> option A) (a : A) :
  run kvQuoted st k = Some a ->
  exists st' key val,
    k st' = Some a /\ key <> [] /\ forallb isWordChar key = true /\ val <> []
    /\ caps st' = <[2%nat := val]> (<[1%nat := key]> (caps st)).
Proof.
  unfold kvQuoted. simpl. intros H.
  step_unit H.
  apply star_sound in H as (n1 & Hw & _ & H). simpl in H.
  step_unit H.
  apply star_sound in H as (n2 & _ & _ & H). simpl in H.
  step_unit H. step_unit H.
  apply star_sound in H as (n3 & _ & _ & H). simpl in H.
  step_unit H.
  eexists _, _, _. split; [exact H|]. simpl.
  split; [|split; [|split; [|reflexivity]]].
  - match goal with |- firstn ?n _ <> _ => replace n with (S n1) by lia end.
    discriminate.
  - match goal with |- forallb _ (firstn ?n _) = _ => replace n with (S n1) by lia end.
    simpl. apply andb_true_iff. split; assumption.
  - match goal with |- firstn ?n _ <> _ => replace n with (S n3) by lia end.
    discriminate.
Qed.

Lemma kvInteger_key (st : MState) (k : MState -> option A) (a : A) :
  run kvInteger st k = Some a ->
  exists st' key ds,
    k st' = Some a /\ key <> [] /\ forallb isWordChar key = true /\ ds <> []
    /\ caps st' = <[4%nat := ds]> (<[3%nat := key]> (caps st)).
Proof.
  unfold kvInteger. simpl. intros H.
  step_unit H.
  apply star_sound in H as (n1 & Hw & _ & H). simpl in H.
  step_unit H.
  apply star_sound in H as (n2 & _ & _ & H). simpl in H.
  step_unit H.
  apply star_sound in H as (n3 & Hd & _ & H). simpl in H.
  eexists _, _, _. split; [exact H|]. simpl.
  split; [|split; [|split; [|reflexivity]]].
  - match goal with |- firstn ?n _ <> _ => replace n with (S n1) by lia end.
    discriminate.
  - match goal with |- forallb _ (firstn ?n _) = _ => replace n with (S n1) by lia end.
    simpl. apply andb_true_iff. split; assumption.
  - match goal with |- firstn ?n _ <> _ => replace n with (S n3) by lia end.
    discriminate.
Qed.
End ExtractionKeys.

Section ScrapedKeys.
Import Client.

(** The key that the body of the [forEach] computes from a match. *)
Lemma execFrom_kv_key (s : jsstring) :
  forall (i : nat) (m : Match),
    execFrom kvRe i s = Some m ->
    exists key,
      key <> [] /\ forallb isWordChar key = true
      /\ (if truthyGroup (groups m !! 1%nat) then groupText (groups m !! 1%nat)
          else groupText (groups m !! 3%nat)) = key.
Proof.
  assert (G : forall i s m, matchAt kvRe i s = Some m ->
    exists key,
      key <> [] /\ forallb isWordChar key = true
      /\ (if truthyGroup (groups m !! 1%nat) then groupText (groups m !! 1%nat)
          else groupText (groups m !! 3%nat)) = key).
  { intros i s' m. unfold matchAt, kvRe. cbn [run]. intros H.
    match type of H with
    | match ?x with Some _ => _ | None => _ end = _ => destruct x eqn:E
    end.
    - injection H as ->.
      apply kvQuoted_key in E as (st' & key & val & E' & Hk & Hw & Hv & Hc).
      exists key. injection E' as <-. cbn [groups caps] in *. rewrite Hc.
      rewrite lookup_insert_ne, lookup_insert_eq by done.
      destruct key; [done|]. by cbn.
    - apply kvInteger_key in H as (st' & key & ds & E' & Hk & Hw & Hd & Hc).
      exists key. injection E' as <-. cbn [groups caps] in *. rewrite Hc.
      rewrite (lookup_insert_ne _ 4%nat 1%nat), (lookup_insert_ne _ 3%nat 1%nat),
        lookup_empty by done.
      cbn [truthyGroup].
      rewrite (lookup_insert_ne _ 4%nat 3%nat), lookup_insert_eq by done. by cbn. }
  induction s as [|c s IH]; intros i m H; cbn [execFrom] in H.
  - destruct (matchAt kvRe i []) eqn:E; [|done].
    injection H as ->. by apply G in E.
  - destruct (matchAt kvRe i (c :: s)) eqn:E.
    + injection H as ->. by apply G in E.
    + by apply IH in H.
Qed.

(** X22. The object that the manual extraction builds has only keys
    made of word characters, none of them empty and none of them
    __proto__ (an assignment to that name is dropped); each value is a
    string that is not empty, or the number that [parseInt] makes of a
    run of digits: an integer that is not negative or Infinity, and the
    integer written when that one is at most 2^53. *)
Theorem scraped_object_is_plain (argsJson : jsstring) (v : JsValue) :
  scrape argsJson = Ok v ->
  exists obj,
    v = VObj obj
    /\ forall key x, obj !! key = Some x ->
         key <> [] /\ forallb isWordChar key = true /\ key <> str "__proto__"
         /\ ((exists s, s <> [] /\ x = VStr s)
             \/ (exists ds,
                   ds <> [] /\ forallb isDigit ds = true
                   /\ x = VNum (parseInt ds)
                   /\ (parseInt ds = Infinity false
                       \/ exists z, (0 <= z)%Z /\ parseInt ds = Integral z)
                   /\ (digitsValue ds <= 9007199254740992 ->
                       parseInt ds = Integral (Z.of_N (digitsValue ds))))).
Proof.
  intros H. destruct (scrape_values _ _ H) as (obj & -> & Hv).
  exists obj. split; [reflexivity|].
  assert (Hk : map_Forall (fun key _ => key <> [] /\ forallb isWordChar key = true
                                        /\ key <> str "__proto__") obj).
  { revert H. unfold scrape. destruct (_ && _); [|done].
    destruct (matchAll kvRe argsJson) as [matches|]; [|done].
    intros [= <-].
    assert (G : forall l o,
      map_Forall (fun key _ => key <> [] /\ forallb isWordChar key = true
                               /\ key <> str "__proto__") o ->
      map_Forall (fun key _ => key <> [] /\ forallb isWordChar key = true
                               /\ key <> str "__proto__") (fold_left scrapeEntry l o)).
    { induction l as [|m l IH]; intros o Ho; cbn [fold_left]; [done|].
      apply IH. unfold scrapeEntry.
      destruct (exec kvRe m) as [kv|] eqn:E; [|done].
      apply execFrom_kv_key in E as (key & Hne & Hw & ->).
      unfold assign, eqs. case_bool_decide as Hp; [done|].
      by apply map_Forall_insert_2. }
    apply G, map_Forall_empty. }
  intros key x Hx. destruct (Hk _ _ Hx) as (? & ? & ?).
  repeat split; try done.
  destruct (Hv _ _ Hx) as [Hstr|(ds & Hne & Hds & ->)]; [by left|].
  right. exists ds. rewrite (parseInt_digits ds Hne Hds).
  split; [exact Hne|]. split; [exact Hds|]. split; [reflexivity|].
  split; [apply nearestInteger_shape|apply nearestInteger_safe].
Qed.
End ScrapedKeys.

Section CommandNames.
Import Client.

Lemma In_trimStart (c : N) (s : jsstring) : In c (trimStart s) -> In c s.
Proof.
  induction s as [|d s IH]; cbn [trimStart]; [done|].
  destruct (isWhiteSpace d); [|done]. intros H. right. by apply IH.
Qed.

Lemma In_trim (c : N) (s : jsstring) : In c (trim s) -> In c s.
Proof.
  unfold trim, trimEnd. intros H. apply In_trimStart.
  apply in_rev. apply In_trimStart. by apply in_rev in H.
Qed.

Lemma In_firstLine (c : N) (s : jsstring) : In c (firstLine s) -> In c s /\ c <> 10.
Proof.
  induction s as [|d s IH]; cbn [firstLine]; [done|].
  destruct (d =? 10) eqn:E; [done|].
  intros [->|H]; [split; [by left|lia]|].
  destruct (IH H). split; [by right|done].
Qed.

Lemma indexOf_before (s : jsstring) :
  forall n, indexOf [32] s = Some n -> ~ In 32 (firstn n s).
Proof.
  induction s as [|c s IH]; intros n; cbn [indexOf startsWith].
  - discriminate.
  - destruct (32 =? c) eqn:E; cbn [andb].
    + intros [= <-]. cbn. tauto.
    + destruct (indexOf [32] s) as [k|]; [|discriminate]. cbn. intros [= <-].
      cbn [firstn]. intros [H|H]; [lia|]. by apply (IH k).
Qed.

Lemma indexOf_none (s : jsstring) : indexOf [32] s = None -> ~ In 32 s.
Proof.
  induction s as [|c s IH]; cbn [indexOf startsWith]; [tauto|].
  destruct (32 =? c) eqn:E; cbn [andb]; [discriminate|].
  destruct (indexOf [32] s) as [k|]; [discriminate|].
  intros _ [H|H]; [lia|]. by apply IH.
Qed.

(** What the pattern with parentheses captures: a name made of word
    characters, and a text between braces. *)
Lemma paren_captures (s : jsstring) (m : Match) :
  exec parenRe s = Some m ->
  exists name tail mid,
    s = name ++ tail /\ name <> [] /\ forallb isWordChar name = true
    /\ groups m !! 1%nat = Some name
    /\ groups m !! 2%nat = Some (123 :: mid ++ [125]).
Proof.
  unfold exec. intros H.
  assert (H0 : matchAt parenRe 0 s = Some m).
  { destruct s as [|c t]; cbn [execFrom] in H.
    - by destruct (matchAt parenRe 0 []).
    - destruct (matchAt parenRe 0 (c :: t)); [done|].
      assert (Hl : execFrom parenRe 1 t = None) by (apply execFrom_bol_later; lia).
      by rewrite Hl in H. }
  clear H. unfold matchAt, parenRe in H0. cbn [seq run pos rest caps Nat.eqb] in H0.
  destruct s as [|c s]; [discriminate H0|].
  destruct (isWordChar c) eqn:Hc; [|discriminate H0].
  apply star_sound in H0 as (n1 & Hw & Hl & H).
  unfold lit in H. simpl in H.
  step_unit H.
  apply star_sound in H as (n2 & _ & _ & H). simpl in H.
  step_unit H.
  apply star_sound in H as (n3 & _ & _ & H). simpl in H.
  step_unit H.
  apply star_sound in H as (n4 & _ & _ & H). simpl in H.
  step_unit H.
  match type of H with match ?x with [] => _ | _ :: _ => _ end = _ =>
    destruct x; [|discriminate H] end.
  injection H as <-. cbn [groups].
  exists (c :: firstn n1 s), (skipn n1 s), (firstn n3 s1).
  split; [by rewrite <- app_comm_cons, firstn_skipn|].
  split; [done|]. split; [cbn; by rewrite Hc|].
  split; [by rewrite lookup_insert_ne, lookup_insert_eq|].
  rewrite lookup_insert_eq. f_equal.
  replace (S (S (n1 + n2 + n3)) - (n1 + n2))%nat with (S (S n3)) by lia.
  cbn [firstn]. unfold isChar in *.
  replace c1 with 123 by lia. f_equal.
  assert (Hc2 : s1 !! n3 = Some c2).
  { rewrite <- (Nat.add_0_r n3), <- lookup_drop.
    match goal with E : drop n3 s1 = _ |- _ => by rewrite E end. }
  rewrite (take_S_r _ _ _ Hc2). f_equal. f_equal. lia.
Qed.

(** X23. The name of the tool that a reply asks for is one word of the
    first line: it opens what follows the marker, white space apart, and
    holds no space and no line feed, whichever of the two forms the line
    has; in the form with parentheses the argument text is a text between
    braces. *)
Theorem tool_name_is_one_word (llmReply : jsstring) :
  let toolName := fst (splitCommand llmReply) in
  let argsJson := snd (splitCommand llmReply) in
  let rest := trim (sliceFrom 5 (firstLine llmReply)) in
  (exists tail, rest = toolName ++ tail)
  /\ ~ In 32 toolName
  /\ ~ In 10 toolName
  /\ (forall m, exec parenRe rest = Some m ->
       forallb isWordChar toolName = true /\ toolName <> []
       /\ exists mid, argsJson = 123 :: mid ++ [125]).
Proof.
  intros toolName argsJson rest0.
  assert (Hlf : forall x, In x rest0 -> x <> 10).
  { intros x Hx. subst rest0. apply In_trim in Hx. unfold sliceFrom in Hx.
    assert (Hx' : In x (firstLine llmReply)).
    { rewrite <- (firstn_skipn 5 (firstLine llmReply)). apply in_or_app. by right. }
    apply In_firstLine in Hx'. tauto. }
  subst toolName argsJson. unfold splitCommand. fold rest0.
  destruct (exec parenRe rest0) as [m|] eqn:E.
  - destruct (paren_captures _ _ E) as (name & tail & mid & Hs & Hne & Hw & -> & ->).
    cbn [fst snd groupText default].
    assert (Hword : forall x, In x name -> isWordChar x = true).
    { by apply forallb_forall. }
    split; [by exists tail|].
    split; [intros Hi; apply Hword, word_facts in Hi; tauto|].
    split; [intros Hi; apply Hword, word_facts in Hi; tauto|].
    intros m' [= <-]. split; [done|]. split; [done|]. by exists mid.
  - destruct (indexOf (str " ") rest0) as [n|] eqn:Hi; cbn [fst snd].
    + unfold substring. rewrite Nat.sub_0_r. cbn [skipn].
      split; [exists (skipn n rest0); by rewrite firstn_skipn|].
      split; [by apply indexOf_before|].
      split; [|done]. intros Hx. apply (Hlf 10); [|done].
      rewrite <- (firstn_skipn n rest0). apply in_or_app. by left.
    + split; [exists []; by rewrite app_nil_r|].
      split; [by apply indexOf_none|].
      split; [|done]. intros Hx. by apply (Hlf 10).
Qed.
End CommandNames.
Section Failures.
Import Config Client.
Import Server (ToolResponse, Content, content, text, mkToolResponse, mkContent).
Context {W : Type}.
Variable rt : Runtime.
Variable env : Env.
Variable out : Outside W.

(** X24. When the tool call throws or times out, the conversation is
    over: the lines typed later are never read, no follow-up is asked of
    the model, and the transcript has gained the line of the user and
    nothing else, neither the command nor the error. *)
Theorem tool_failure_ends_the_conversation (answer : jsstring) (later : list jsstring)
    (st st1 st2 : State W) (llmReply : jsstring) (e : Exn) :
  isExit (trim answer) = false ->
  callLLM rt env out (conversationOf (asked answer st)) (asked answer st)
  = (Ok llmReply, st1) ->
  startsWith marker llmReply = true ->
  callToolWithTimeout rt out (commandName llmReply) (commandArgs llmReply)
    defaultToolBudget st1 = (Throw e, st2) ->
  chat rt env out (answer :: later) st = (Ok tt, st2)
  /\ history st2 = history st ++ [str "User: " ++ trim answer]
  /\ trace st2
     = trace st ++ [Completion (conversationOf (asked answer st));
                    Dispatch (commandName llmReply) (commandArgs llmReply)].
Proof.
  intros Hstay Hreply Hmarker Htool.
  destruct (callLLM_frame _ _ _ _ _ _ _ Hreply) as [Ht1 Hh1].
  destruct (callTool_frame _ _ _ _ _ _ _ _ Htool) as [Ht2 Hh2].
  split; [|split].
  - cbn [chat]. unfold bind.
    by rewrite (turn_tool_fails rt env out answer st Hstay llmReply st1 Hreply Hmarker
                  st2 e Htool).
  - by rewrite Hh2, Hh1.
  - by rewrite Ht2, Ht1, <- app_assoc.
Qed.
End Failures.

(* ================================================================== *)
(** ** The further properties at concrete inputs *)
(* ================================================================== *)

Section HandlerRuns.
Import Config Server.

(** X1 without a signing key, and at an amount of 1.5. *)
Lemma moveToken_fails_before_any_call_witness :
  invoke Mock.rt Mock.chain Mock.envWithoutKey (Mock.input 5) (Mock.healthy 10)
  = (Throw (Error (str "invalid private key")), mkState (Mock.healthy 10) [])
  /\ exists msg,
       invoke Mock.rt Mock.chain Mock.env
         (mkInput (str "0xabc") (Fraction 15 1) (str "0xdef")) (Mock.healthy 10)
       = (Throw (mkExn (str "RangeError") msg), mkState (Mock.healthy 10) []).
Proof.
  split.
  - apply (proj1 (moveToken_fails_before_any_call Mock.rt Mock.chain Mock.envWithoutKey
                    (Mock.input 5) (Mock.healthy 10))).
    reflexivity.
  - apply (proj2 (moveToken_fails_before_any_call Mock.rt Mock.chain Mock.env
                    (mkInput (str "0xabc") (Fraction 15 1) (str "0xdef"))
                    (Mock.healthy 10)) Mock.sender);
      [reflexivity | intros z; discriminate].
Defined.

(** X3 at a request for 5 with a balance of 10: the response is the
    completion text, so the approval and the send have returned. *)
Lemma moveToken_response_inversion_witness :
  exists w2 receipt w3,
    approveRouter Mock.chain (approveArgs Mock.env (Mock.input 5) Mock.sender 5)
      (Mock.healthy 10) = (Ok tt, w2)
    /\ transferTokens Mock.chain (transferArgs Mock.env (Mock.input 5) Mock.sender 5) w2
       = (Ok receipt, w3)
    /\ mkToolResponse
         [mkContent (str "text")
            (str "Moved 5 tokens from 0xabc to 0xdef on Arbitrum Sepolia with txHash 0xhash and message ID 0xmessage.")]
       = mkToolResponse
           [mkContent (str "text")
              (str "Moved " ++ numberToString Mock.rt (Integral 5)
               ++ str " tokens from " ++ str "0xabc" ++ str " to " ++ str "0xdef"
               ++ str " on Arbitrum Sepolia with txHash " ++ txHash receipt
               ++ str " and message ID " ++ messageId receipt ++ str ".")].
Proof.
  destruct (moveToken_response_inversion Mock.rt Mock.chain Mock.env (Mock.input 5)
              (Mock.healthy 10)
              (mkToolResponse
                 [mkContent (str "text")
                    (str "Moved 5 tokens from 0xabc to 0xdef on Arbitrum Sepolia with txHash 0xhash and message ID 0xmessage.")])
              (mkState (Mock.mkWorld 5 None None None [5%Z] [5%Z])
                 [CallRead (readArgs Mock.env (Mock.input 5) Mock.sender);
                  CallApprove (approveArgs Mock.env (Mock.input 5) Mock.sender 5);
                  CallTransfer (transferArgs Mock.env (Mock.input 5) Mock.sender 5)]))
    as (account & amount & balance & w1 & Hk & Ha & Hr & H);
    [vm_compute; reflexivity|].
  injection Hk as <-. injection Ha as <-. injection Hr as <- <-.
  destruct H as [(E & _)|(w2 & receipt & w3 & Hap & Htr & _ & E & _)].
  - exfalso. vm_compute in E. discriminate E.
  - exists w2, receipt, w3. split; [exact Hap|]. split; [exact Htr|exact E].
Defined.

(** X4 at two environments that differ in the variables of the defaults. *)
Lemma moveToken_reads_four_variables_witness :
  invoke Mock.rt Mock.chain Mock.env (Mock.input 5) (Mock.healthy 10)
  = invoke Mock.rt Mock.chain
      (mkEnv (Some (str "https://rpc.example")) (Some (str "0xkey"))
         (Some (str "0xrouter")) (Some (str "0xother"))
         (Some (str "3478487238524512106")) (Some (str "0xelse"))
         (Some (str "1000")) None None (Some (str "8080")))
      (Mock.input 5) (Mock.healthy 10).
Proof. apply moveToken_reads_four_variables; reflexivity. Defined.
End HandlerRuns.

Section ConfigRuns.
Import Config.

(** X5 at the same two environments. *)
Lemma validateConfig_reads_four_variables_witness :
  validateConfig (config Mock.env)
  = validateConfig
      (config (mkEnv (Some (str "https://rpc.example")) (Some (str "0xkey"))
                 (Some (str "0xrouter")) (Some (str "0xother"))
                 (Some (str "3478487238524512106")) (Some (str "0xelse"))
                 (Some (str "1000")) None None (Some (str "8080")))).
Proof. apply validateConfig_reads_four_variables; reflexivity. Defined.

(** X6 at an amount of 1000, at an amount of 2^53 + 1, which is not a
    number and reads as 2^53, and at a port of 8080. *)
Lemma config_numbers_witness :
  amount (config (mkEnv None None None None None None (Some (str "1000")) None None
                    (Some (str "8080"))))
  = Integral 1000
  /\ mcpServerPort (config (mkEnv None None None None None None (Some (str "1000"))
                              None None (Some (str "8080"))))
     = Integral 8080
  /\ amount (config (mkEnv None None None None None None
                       (Some (str "9007199254740993")) None None None))
     = Integral 9007199254740992
  /\ amount (config Mock.env) = Integral 1.
Proof.
  pose proof (config_numbers (mkEnv None None None None None None (Some (str "1000"))
                                None None (Some (str "8080")))) as (_ & Ha & _ & Hp).
  pose proof (config_numbers (mkEnv None None None None None None
                                (Some (str "9007199254740993")) None None None))
    as (_ & Hb & _).
  split; [|split; [|split]].
  - destruct (Ha (str "1000") eq_refl ltac:(discriminate) eq_refl) as (_ & E & _).
    apply E. vm_compute. discriminate.
  - destruct (Hp (str "8080") eq_refl ltac:(discriminate) eq_refl) as (_ & E).
    apply E. vm_compute. discriminate.
  - destruct (Hb (str "9007199254740993") eq_refl ltac:(discriminate) eq_refl)
      as (E & _).
    rewrite E. vm_compute. reflexivity.
  - exact (proj1 (config_numbers Mock.env) eq_refl).
Defined.
End ConfigRuns.

Section RouterRuns.
Import Router.

(** X7: the session of the first request is still there after two more. *)
Lemma sessions_are_never_dropped_witness :
  sessions (serve [mkRpcRequest (Some (str "b")) []; mkRpcRequest (Some (str "a")) []]
              (serve [mkRpcRequest (Some (str "a")) []] started))
  !! str "a"
  = Some (mkSession 1 2 registeredTools (str "a")).
Proof.
  apply (sessions_are_never_dropped
           [mkRpcRequest (Some (str "b")) []; mkRpcRequest (Some (str "a")) []]
           (serve [mkRpcRequest (Some (str "a")) []] started)).
  vm_compute. reflexivity.
Defined.

(** X8 after one request of session a and one of session b. *)
Lemma sessions_do_not_share_witness :
  sessionServer (mkSession 1 2 registeredTools (str "a"))
  <> sessionServer (mkSession 3 4 registeredTools (str "b"))
  /\ sessionTransport (mkSession 1 2 registeredTools (str "a"))
     <> sessionTransport (mkSession 3 4 registeredTools (str "b")).
Proof.
  apply (proj1 (sessions_do_not_share
                  (serve [mkRpcRequest (Some (str "a")) [];
                          mkRpcRequest (Some (str "b")) []] started)
                  (str "a") (str "b") _ _
                  (ReachRpc _ _ (ReachRpc _ _ ReachStarted))
                  ltac:(vm_compute; reflexivity) ltac:(vm_compute; reflexivity))).
  discriminate.
Defined.

(** X9: a request without the header and one for the session default
    went to the same transport. *)
Lemma delegation_follows_session_id_witness :
  (4%nat = 4%nat)
  <-> sessionIdOf (mkRpcRequest None (str "x"))
      = sessionIdOf (mkRpcRequest (Some (str "default")) (str "y")).
Proof.
  apply (delegation_follows_session_id
           (serve [mkRpcRequest (Some (str "a")) [];
                   mkRpcRequest None (str "x");
                   mkRpcRequest (Some (str "default")) (str "y")] started)).
  - exact (ReachRpc _ _ (ReachRpc _ _ (ReachRpc _ _ ReachStarted))).
  - apply list_elem_of_lookup_2 with 1%nat. vm_compute. reflexivity.
  - apply list_elem_of_lookup_2 with 2%nat. vm_compute. reflexivity.
Defined.

(** X10 at the session identifier constructor. *)
Lemma inherited_name_is_not_a_session_witness :
  rpc (mkRpcRequest (Some (str "constructor")) [])
    (serve [mkRpcRequest (Some (str "a")) []] started)
  = (Throw (mkExn (str "TypeError")
              (str "Cannot read properties of undefined (reading 'handleRequest')")),
     serve [mkRpcRequest (Some (str "a")) []] started).
Proof.
  apply inherited_name_is_not_a_session.
  - exact (ReachRpc _ _ ReachStarted).
  - apply list_elem_of_lookup_2 with 0%nat. reflexivity.
Defined.
End RouterRuns.

Section ProgressRuns.
Import Config Client Progress.

(** X12: the fourteenth frame of twenty-five shows the fourth glyph. *)
Lemma spinner_cycles_witness :
  exists glyph,
    spinner !! 3%nat = Some glyph
    /\ frames 25 !! 13%nat = Some (Stdout (13 :: glyph :: str " Processing...")).
Proof.
  destruct (spinner_cycles (str "working") (mkTerminal [] ∅ 0) 25) as (_ & _ & H).
  exact (H 13%nat ltac:(lia)).
Defined.

(** X13: another interval, armed before, is as it was. *)
Lemma stopped_indicator_is_silent_witness :
  intervals
    (stopProgress 1
       (Nat.iter 4 (fire 1)
          (snd (showProgress (str "working") (mkTerminal [] {[0%nat := 7%nat]} 1)))))
  !! 0%nat
  = (intervals (mkTerminal [] {[0%nat := 7%nat]} 1)) !! 0%nat.
Proof.
  destruct (stopped_indicator_is_silent (str "working")
              (mkTerminal [] {[0%nat := 7%nat]} 1) 4 2) as (_ & _ & _ & H).
  exact (H 0%nat ltac:(discriminate)).
Defined.

(** X15 at a tool server that never answers. *)
Lemma timeout_prints_the_tip_witness :
  exists st' t',
    dispatch Mock.rt Mock.outside (str "moveToken") (VObj ∅) 7
      (Mock.fresh (Mock.mkScript [] [])) (mkTerminal [] ∅ 0)
    = (None, st', t')
    /\ clock st' = 300000.
Proof.
  destruct (timeout_prints_the_tip Mock.rt Mock.outside (str "moveToken") (VObj ∅) 7
              (Mock.fresh (Mock.mkScript [] [])) (mkTerminal [] ∅ 0))
    as (st' & t' & Hd & Hc & _).
  - intros d o H. vm_compute in H. discriminate H.
  - exists st', t'. split; [exact Hd|exact Hc].
Defined.
End ProgressRuns.

Section ChatRuns.
Import Config Client Transcript.
Import Server (ToolResponse, Content, content, text, mkToolResponse, mkContent).

(** X19 at a conversation in which the model asks for a tool twice. *)
Lemma commands_stay_out_of_transcript_witness :
  exists entries,
    history (snd (chat Mock.rt Mock.emptyEnv Mock.outside [str "hello"; str "again"]
                    (Mock.fresh (Mock.mkScript
                       [Mock.says 1200 (str "TOOL: helloWorld");
                        Mock.says 900 (str "TOOL: helloWorld")]
                       [Mock.returns 50 (str "Hello, world!!")]))))
    = [str "SYSTEM: You are an assistant."] ++ entries
    /\ Forall (fun entry => startsWith (str "Assistant: TOOL:") entry = false) entries.
Proof.
  destruct (commands_stay_out_of_transcript Mock.rt Mock.emptyEnv Mock.outside
              [str "hello"; str "again"]
              (Mock.fresh (Mock.mkScript
                 [Mock.says 1200 (str "TOOL: helloWorld");
                  Mock.says 900 (str "TOOL: helloWorld")]
                 [Mock.returns 50 (str "Hello, world!!")])))
    as (entries & Hh & _ & Hf).
  exists entries. split; [exact Hh|exact Hf].
Defined.

(** X20 at a conversation of three lines, the second being EXIT. *)
Lemma exit_ends_the_conversation_witness :
  chat Mock.rt Mock.emptyEnv Mock.outside [str "hello"; str "  EXIT "; str "more"]
    (Mock.fresh (Mock.mkScript [Mock.says 1200 (str "Hi."); Mock.says 10 (str "No.")] []))
  = chat Mock.rt Mock.emptyEnv Mock.outside [str "hello"]
      (Mock.fresh (Mock.mkScript [Mock.says 1200 (str "Hi."); Mock.says 10 (str "No.")] [])).
Proof.
  apply (exit_ends_the_conversation Mock.rt Mock.emptyEnv Mock.outside
           [str "hello"] [str "more"] (str "  EXIT ")).
  vm_compute. reflexivity.
Defined.

(** X21 at an endpoint whose headers come after 1200 milliseconds and
    whose body takes 200000 more. *)
Lemma callLLM_returns_only_a_response_witness :
  exists st' : State Mock.Script,
    callLLM Mock.rt Mock.emptyEnv Mock.outside (str "hello")
      (Mock.fresh (Mock.mkScript
         [Settles 1200 (Ok (mkHttpResponse true 200 (str "OK") 200000
                              (Ok (qstr "{'response':'Hi.'}"))))] []))
    = (Ok (str "Hi."), st')
    /\ clock st' = 201200.
Proof.
  eexists. split; [vm_compute; reflexivity|].
  edestruct (callLLM_returns_only_a_response Mock.rt Mock.emptyEnv Mock.outside
               (str "hello")
               (Mock.fresh (Mock.mkScript
                  [Settles 1200 (Ok (mkHttpResponse true 200 (str "OK") 200000
                                       (Ok (qstr "{'response':'Hi.'}"))))] [])))
    as (req & d & res & text & json & _ & _ & Hf & _ & _ & _ & _ & _ & Hc);
    [vm_compute; reflexivity|].
  vm_compute in Hf. injection Hf as <- <-. exact Hc.
Defined.

(** X24 at a tool server that never answers. *)
Lemma tool_failure_ends_the_conversation_witness :
  exists st2 : State Mock.Script,
    chat Mock.rt Mock.emptyEnv Mock.outside [str "hello"; str "more"]
      (Mock.fresh (Mock.mkScript [Mock.says 1200 (str "TOOL: helloWorld")] []))
    = (Ok tt, st2)
    /\ history st2 = [str "SYSTEM: You are an assistant."; str "User: hello"].
Proof.
  edestruct (tool_failure_ends_the_conversation Mock.rt Mock.emptyEnv Mock.outside
               (str "hello") [str "more"]
               (Mock.fresh (Mock.mkScript [Mock.says 1200 (str "TOOL: helloWorld")] [])))
    as (Hchat & Hh & _);
    [vm_compute; reflexivity | vm_compute; reflexivity | vm_compute; reflexivity
     | vm_compute; reflexivity |].
  eexists. split; [exact Hchat|exact Hh].
Defined.
End ChatRuns.

Section ParsingRuns.
Import Client.

(** X22 at an argument text with keys that are not quoted and a number
    above 2^53. *)
Lemma scraped_object_is_plain_witness :
  scrape (qstr "{to: '0xdef', amount: 9007199254740993}")
  = Ok (VObj (<[str "to" := VStr (str "0xdef")]>
                (<[str "amount" := VNum (Integral 9007199254740992)]> ∅)))
  /\ exists obj,
       VObj (<[str "to" := VStr (str "0xdef")]>
               (<[str "amount" := VNum (Integral 9007199254740992)]> ∅))
       = VObj obj
       /\ forall key x, obj !! key = Some x ->
            key <> [] /\ forallb isWordChar key = true /\ key <> str "__proto__"
            /\ ((exists s, s <> [] /\ x = VStr s)
                \/ (exists ds,
                      ds <> [] /\ forallb isDigit ds = true
                      /\ x = VNum (parseInt ds)
                      /\ (parseInt ds = Infinity false
                          \/ exists z, (0 <= z)%Z /\ parseInt ds = Integral z)
                      /\ (digitsValue ds <= 9007199254740992 ->
                          parseInt ds = Integral (Z.of_N (digitsValue ds))))).
Proof.
  split; [vm_compute; reflexivity|].
  apply (scraped_object_is_plain (qstr "{to: '0xdef', amount: 9007199254740993}")).
  vm_compute. reflexivity.
Defined.

(** X23 at a command in the form with parentheses. *)
Lemma tool_name_is_one_word_witness :
  forallb isWordChar (fst (splitCommand (qstr "TOOL: moveToken({'amount': 5})"))) = true
  /\ fst (splitCommand (qstr "TOOL: moveToken({'amount': 5})")) <> []
  /\ exists mid,
       snd (splitCommand (qstr "TOOL: moveToken({'amount': 5})")) = 123 :: mid ++ [125].
Proof.
  edestruct (proj2 (proj2 (proj2 (tool_name_is_one_word
                                    (qstr "TOOL: moveToken({'amount': 5})")))))
    as (Hw & Hne & Hmid); [vm_compute; reflexivity|].
  split; [exact Hw|split; [exact Hne|exact Hmid]].
Defined.
End ParsingRuns.
